(** * rpmbuild-bot2: a shallow embedding of the configuration resolver, the
    pipeline runner and the build/upload workflow of [rpmbuild-bot2.py].

    Python values are modelled as follows: [str] as [string], [None]-or-[str]
    as [option string], [dict] as stdpp's [gmap], exit statuses as [Z],
    a raised exception as the [Raise] branch of [outcome].  External
    processes, the environment and the clock are read from explicit
    oracle records. *)

From Stdlib Require Import ZArith Ascii String List Lia.
From stdpp Require Import base option list gmap strings pretty.

Local Open Scope string_scope.
Local Open Scope Z_scope.

(** ** Python string primitives *)

Module PyStr.

Definition ascii_in (lo hi c : ascii) : bool :=
  (N.leb (N_of_ascii lo) (N_of_ascii c) && N.leb (N_of_ascii c) (N_of_ascii hi))%bool.

Definition is_digit (c : ascii) : bool := ascii_in "0" "9" c.
Definition is_upper (c : ascii) : bool := ascii_in "A" "Z" c.
Definition is_lower (c : ascii) : bool := ascii_in "a" "z" c.

(** [\w] of the [re] module without flags: [[a-zA-Z0-9_]]. *)
Definition is_word (c : ascii) : bool :=
  (is_digit c || is_upper c || is_lower c || Ascii.eqb c "_")%bool.

(** The characters removed by [str.strip ()]: space, TAB, LF, VT, FF, CR. *)
Definition is_space (c : ascii) : bool :=
  let n := N_of_ascii c in
  (N.eqb n 32 || (N.leb 9 n && N.leb n 13))%bool.

Definition lower_char (c : ascii) : ascii :=
  if is_upper c then ascii_of_N (N_of_ascii c + 32) else c.

(** [s.lower ()] *)
Fixpoint lower (s : string) : string :=
  match s with
  | EmptyString => EmptyString
  | String c t => String (lower_char c) (lower t)
  end.

Fixpoint lstrip (s : string) : string :=
  match s with
  | String c t => if is_space c then lstrip t else s
  | EmptyString => EmptyString
  end.

Definition rstrip (s : string) : string := String.rev (lstrip (String.rev s)).

(** [s.strip ()] *)
Definition strip (s : string) : string := rstrip (lstrip s).

Fixpoint rstrip_char_rev (c : ascii) (s : string) : string :=
  match s with
  | String d t => if Ascii.eqb c d then rstrip_char_rev c t else s
  | EmptyString => EmptyString
  end.

(** [s.rstrip (c)] for a one-character argument. *)
Definition rstrip_char (c : ascii) (s : string) : string :=
  String.rev (rstrip_char_rev c (String.rev s)).

Fixpoint startswith (p s : string) : bool :=
  match p, s with
  | EmptyString, _ => true
  | String a p', String b s' => (Ascii.eqb a b && startswith p' s')%bool
  | String _ _, EmptyString => false
  end.

Definition endswith (p s : string) : bool :=
  startswith (String.rev p) (String.rev s).

Fixpoint take_str (n : nat) (s : string) : string :=
  match n, s with
  | O, _ => EmptyString
  | S n', String c t => String c (take_str n' t)
  | S _, EmptyString => EmptyString
  end.

(** [s [:-1]] *)
Definition drop_last (s : string) : string := take_str (String.length s - 1) s.

(** [sep.join (l)] *)
Fixpoint join (sep : string) (l : list string) : string :=
  match l with
  | [] => ""
  | [x] => x
  | x :: r => x +:+ sep +:+ join sep r
  end.

(** [sep.join (s)] where [s] is itself a [str]: Python iterates over its
    characters. *)
Fixpoint chars (s : string) : list string :=
  match s with
  | EmptyString => []
  | String c t => String c EmptyString :: chars t
  end.

Definition join_chars (sep s : string) : string := join sep (chars s).

(** [s.split (c)] for a one-character separator, with an optional
    [maxsplit]; the accumulator [cur] holds the current field reversed. *)
Fixpoint split_go (c : ascii) (maxsplit : option nat) (cur : string) (s : string)
  : list string :=
  match s with
  | EmptyString => [String.rev cur]
  | String d t =>
      if Ascii.eqb c d then
        match maxsplit with
        | Some O => [String.rev cur +:+ s]
        | Some (S k) => String.rev cur :: split_go c (Some k) "" t
        | None => String.rev cur :: split_go c None "" t
        end
      else split_go c maxsplit (String d cur) t
  end.

Definition split (c : ascii) (s : string) : list string := split_go c None "" s.

Definition split_max (c : ascii) (n : nat) (s : string) : list string :=
  split_go c (Some n) "" s.

(** [s.replace (old, new)] for a non-empty [old]: every non-overlapping
    occurrence, scanning from the left.  [skip] counts the characters of
    an occurrence that was just replaced and are still to be passed. *)
Fixpoint replace_go (old new : string) (skip : nat) (s : string) : string :=
  match s with
  | EmptyString => EmptyString
  | String c t =>
      match skip with
      | S k => replace_go old new k t
      | O =>
          if startswith old s
          then new +:+ replace_go old new (String.length old - 1) t
          else String c (replace_go old new O t)
      end
  end.

Definition replace (old new s : string) : string := replace_go old new O s.

(** [os.path.join] and [os.path.basename] for two components, in the
    [posixpath] flavour. *)
Definition path_join (a b : string) : string :=
  if startswith "/" b then b
  else if (String.eqb a "" || endswith "/" a)%bool then a +:+ b
  else a +:+ "/" +:+ b.

Fixpoint basename_go (cur : string) (s : string) : string :=
  match s with
  | EmptyString => String.rev cur
  | String c t =>
      if Ascii.eqb c "/" then basename_go "" t else basename_go (String c cur) t
  end.

Definition basename (p : string) : string := basename_go "" p.

(** Truthiness of a [str] and of a [None]-or-[str] value. *)
Definition truthy (s : string) : bool := negb (String.eqb s "").
Definition otruthy (o : option string) : bool :=
  match o with Some s => truthy s | None => false end.

End PyStr.

(** ** The placeholder pattern of [Config.get]

    [re.findall (r'\$\{(\w+:)?((?<=SHELL:).+|\w+)\}', ret)] yields one pair
    (group 1, group 2) per non-overlapping match, an unmatched group 1 being
    the empty string.  The pattern is matched here the way the backtracking
    engine does: after the literal [${] the greedy [\w+:] is tried first;
    the look-behind holds exactly when that word run ends in [SHELL], and
    then the greedy [.+] extends to the last closing brace of the line. *)

Module Placeholder.
Import PyStr.

Definition newline : ascii := ascii_of_N 10.

(** The longest prefix of [\w] characters, and what follows it. *)
Fixpoint span_word (s : string) : string * string :=
  match s with
  | String c t =>
      if is_word c then let '(w, r) := span_word t in (String c w, r) else ("", s)
  | EmptyString => ("", "")
  end.

(** Position (counted from [i]) of the last closing brace before the end of
    the line. *)
Fixpoint last_brace (i : nat) (s : string) : option nat :=
  match s with
  | EmptyString => None
  | String c t =>
      if Ascii.eqb c newline then None
      else match last_brace (S i) t with
           | Some p => Some p
           | None => if Ascii.eqb c "}" then Some i else None
           end
  end.

(** [(?<=SHELL:).+\}] at [s], the look-behind already checked: at least one
    character other than a newline, then as many as possible up to a brace.
    Returns group 2 and the number of characters consumed. *)
Definition shell_body (s : string) : option (string * nat) :=
  match s with
  | String c t =>
      if Ascii.eqb c newline then None
      else match last_brace 0 t with
           | Some q => Some (take_str (S q) s, S (S q))
           | None => None
           end
  | EmptyString => None
  end.

(** [\w+\}] at [s]. *)
Definition word_body (s : string) : option (string * nat) :=
  match span_word s with
  | (String c w, String b _) =>
      if Ascii.eqb b "}" then Some (String c w, S (String.length (String c w))) else None
  | _ => None
  end.

(** A match of the whole pattern starting at the first character of [s]:
    groups 1 and 2 and the length of the match. *)
Definition match_at (s : string) : option (string * string * nat) :=
  match s with
  | String d (String b t) =>
      if (Ascii.eqb d "$" && Ascii.eqb b "{")%bool then
        match span_word t with
        | (String c w, String e r) =>
            let word := String c w in
            if Ascii.eqb e ":" then
              let prefixed (body : option (string * nat)) :=
                match body with
                | Some (g2, n) => Some (word +:+ ":", g2, (2 + String.length word + 1 + n)%nat)
                | None => None
                end in
              match (if endswith "SHELL" word then shell_body r else None) with
              | Some m => prefixed (Some m)
              | None => prefixed (word_body r)
              end
            else if Ascii.eqb e "}" then Some ("", word, (2 + String.length word + 1)%nat)
            else None
        | _ => None
        end
      else None
  | _ => None
  end.

Fixpoint findall_go (skip : nat) (s : string) : list (string * string) :=
  match s with
  | EmptyString => []
  | String _ t =>
      match skip with
      | S k => findall_go k t
      | O =>
          match match_at s with
          | Some (g1, g2, n) => (g1, g2) :: findall_go (n - 1) t
          | None => findall_go O t
          end
      end
  end.

Definition findall (s : string) : list (string * string) := findall_go O s.

End Placeholder.

(** ** Exceptions *)

(** What is handed to [subprocess]: an argument vector, or a command line
    for the shell ([shell = True]). *)
Inductive command :=
| Argv (argv : list string)
| Shell (line : string).

#[global] Instance command_eq_dec : EqDecision command.
Proof. solve_decision. Defined.

Inductive exn :=
| NoSectionError (section : string)
| NoOptionError (option section : string)
| InterpolationError (option section msg : string)
| InterpolationDepthError (option section rawval : string)
| CalledProcessError (returncode : Z) (cmd : command) (output : string)
| OSError (errno : Z) (strerror : string) (filename : option string)
| IOError (errno : Z) (strerror : string) (filename : option string)
| ValueError
| IndexError
| KeyError (key : string)
| TypeError (msg : string)
| Error (prefix : option string) (msg : string) (hint : option string)
| RunError (cmd : string) (msg : string) (hint : option string) (log_file : option string).

Inductive outcome (A : Type) :=
| Return (a : A)
| Raise (e : exn).
Arguments Return {A} a.
Arguments Raise {A} e.

(** The exceptions the top level reports as configuration errors:
    [NoSectionError], [NoOptionError] and [InterpolationError] with its
    subclass [InterpolationDepthError]. *)
Definition is_ConfigError (e : exn) : bool :=
  match e with
  | NoSectionError _ | NoOptionError _ _
  | InterpolationError _ _ _ | InterpolationDepthError _ _ _ => true
  | _ => false
  end.

Definition nl : string := String Placeholder.newline "".

(** [str (e)] of an [OSError] or [IOError]; a file name is shown by its
    [repr], which for a name without quotes or escapes is the name in single
    quotes. *)
Definition str_OSError (errno : Z) (strerror : string) (filename : option string) : string :=
  "[Errno " +:+ pretty errno +:+ "] " +:+ strerror +:+
  match filename with Some f => ": '" +:+ f +:+ "'" | None => "" end.

(** ** External processes *)

Inductive proc_result :=
| CannotStart (errno : Z) (strerror : string)
| Exited (status : Z) (stdout : string).

(** The operating system as seen by the configuration resolver: the
    environment, and what running a command yields given the commands run
    before it. *)
Record OS := {
  environ : gmap string string;
  execute : list command -> command -> proc_result;
}.

(** The mutable state outside of a [Config] object: the dictionaries that
    objects refer to (so that two objects may share one), and the commands
    run so far, latest first. *)
Record World := {
  heap : gmap nat (gmap string string);
  trace : list command;
}.

Definition RPMBUILD_EXE : string := "rpmbuild.exe".

Module ConfigStore.
Import PyStr.

Definition MAX_INTERPOLATION_DEPTH : Z := 10.
Definition DEFAULTSECT : string := "DEFAULT".

Record Config := {
  get_depth : Z;
  rpm_macros : nat;
  defaults : gmap string string;
  sections : gmap string (gmap string string);
}.

Definition set_depth (d : Z) (self : Config) : Config :=
  {| get_depth := d; rpm_macros := rpm_macros self;
     defaults := defaults self; sections := sections self |}.

Definition set_macro (l : nat) (name sub : string) (w : World) : World :=
  {| heap := <[l := <[name := sub]> (heap w !!! l)]> (heap w); trace := trace w |}.

(** [subprocess.check_output]: [OSError] when the process cannot be
    started, [CalledProcessError] on a non-zero exit status, else the
    captured standard output. *)
Definition check_output (os : OS) (w : World) (c : command) : outcome string * World :=
  let w' := {| heap := heap w; trace := c :: trace w |} in
  match execute os (trace w) c with
  | CannotStart errno strerror => (Raise (OSError errno strerror None), w')
  | Exited status out =>
      if status =? 0 then (Return out, w')
      else (Raise (CalledProcessError status c out), w')
  end.

Definition command_output (os : OS) (w : World) (command : list string)
  : outcome string * World :=
  match check_output os w (Argv command) with
  | (Raise (OSError errno strerror filename), w') =>
      (Raise (RunError (join " " command) (str_OSError errno strerror filename) None None), w')
  | r => r
  end.

Definition shell_output (os : OS) (w : World) (command : string)
  : outcome string * World :=
  match check_output os w (Shell command) with
  | (Raise (OSError errno strerror filename), w') =>
      (Raise (RunError (join_chars " " command) (str_OSError errno strerror filename) None None), w')
  | r => r
  end.

(** [ConfigParser.SafeConfigParser.get (self, section, option, True, vars)]:
    the raw value, looked up in [vars], then in the section, then in the
    defaults, under the lower-cased option name. *)
Definition parser_get (self : Config) (section option : string)
    (vars : gmap string string) : outcome string :=
  let lookup (sectiondict : gmap string string) :=
    let option := lower option in
    match vars !! option with
    | Some v => Return v
    | None =>
        match sectiondict !! option with
        | Some v => Return v
        | None =>
            match defaults self !! option with
            | Some v => Return v
            | None => Raise (NoOptionError option section)
            end
        end
    end in
  match sections self !! section with
  | Some d => lookup d
  | None => if String.eqb section DEFAULTSECT then lookup ∅ else Raise (NoSectionError section)
  end.

(** The macro evaluation command of the [RPM:] branch. *)
Definition eval_macro (name : string) : list string :=
  [RPMBUILD_EXE; "--eval"; "%{?" +:+ name +:+ "}"].

Definition result : Type := outcome string * Config * World.

Section Get.
Variable os : OS.

(** The body of the [try] for one match, up to the value [sub]; [rec] is
    the recursive [self.get]. *)
Definition resolve (rec : Config -> World -> string -> string -> option result)
    (self : Config) (w : World) (section f_section f_option : string)
  : option result :=
  if String.eqb f_section "ENV:" then
    match environ os !! f_option with
    | Some sub =>
        if truthy sub then Some (Return sub, self, w)
        else Some (Raise (NoOptionError f_option (drop_last f_section)), self, w)
    | None => Some (Raise (NoOptionError f_option (drop_last f_section)), self, w)
    end
  else if String.eqb f_section "SHELL:" then
    match shell_output os w f_option with
    | (Return out, w') => Some (Return (strip out), self, w')
    | (Raise e, w') => Some (Raise e, self, w')
    end
  else if String.eqb f_section "RPM:" then
    match (heap w !!! rpm_macros self) !! f_option with
    | None =>
        match command_output os w (eval_macro f_option) with
        | (Return out, w') =>
            let sub := strip out in
            Some (Return sub, self, set_macro (rpm_macros self) f_option sub w')
        | (Raise e, w') => Some (Raise e, self, w')
        end
    | Some sub => Some (Return sub, self, w)
    end
  else
    rec self w (if truthy (drop_last f_section) then drop_last f_section else section) f_option.

Definition interpolation_failure (section option f_section f_option : string) (e : exn) : exn :=
  match e with
  | RunError cmd msg _ _ =>
      InterpolationError section option
        ("Failed to interpolate ${" +:+ f_section +:+ f_option +:+ "}:" +:+ nl +:+
         "The following command failed with: " +:+ msg +:+ ":" +:+ nl +:+ "  " +:+ cmd)
  | _ => e
  end.

(** The [for] loop over the matches, followed by the two statements after
    it. *)
Fixpoint get_loop (rec : Config -> World -> string -> string -> option result)
    (section opt : string) (matches : list (string * string))
    (ret : string) (self : Config) (w : World) : option result :=
  match matches with
  | [] => Some (Return ret, set_depth (get_depth self - 1) self, w)
  | (f_section, f_option) :: rest =>
      let self := set_depth (get_depth self + 1) self in
      if get_depth self <? MAX_INTERPOLATION_DEPTH then
        match resolve rec self w section f_section f_option with
        | None => None
        | Some (Return sub, self, w) =>
            get_loop rec section opt rest
              (replace ("${" +:+ f_section +:+ f_option +:+ "}") sub ret) self w
        | Some (Raise e, self, w) =>
            Some (Raise (interpolation_failure section opt f_section f_option e), self, w)
        end
      else Some (Raise (InterpolationDepthError opt section ret), self, w)
  end.

(** [Config.get]; [fuel] bounds the nesting of recursive calls, and [None]
    is returned when it does not suffice. *)
Fixpoint get_fuel (fuel : nat) (vars : gmap string string) (raw : bool)
    (self : Config) (w : World) (section : string) (opt : option string)
  : option result :=
  match fuel with
  | O => None
  | S fuel =>
      let names :=
        if otruthy opt then Return (section, default "" opt)
        else match split ":" section with
             | [s; o] => Return (s, o)
             | _ => Raise ValueError
             end in
      match names with
      | Raise e => Some (Raise e, self, w)
      | Return (section, opt) =>
          match parser_get self section opt vars with
          | Raise e => Some (Raise e, self, w)
          | Return ret =>
              if raw then Some (Return ret, self, w)
              else
                get_loop
                  (fun self w s o => get_fuel fuel vars false self w s (Some o))
                  section opt (Placeholder.findall ret) ret self w
          end
      end
  end.

(** Fuel that always suffices: every nested call starts with a strictly
    larger counter, and none is made once the counter has reached the
    maximum. *)
Definition get_bound (self : Config) : nat :=
  S (Z.to_nat (MAX_INTERPOLATION_DEPTH - get_depth self)).

Definition get (self : Config) (w : World) (section : string) (opt : option string)
  : option result :=
  get_fuel (get_bound self) ∅ false self w section opt.

End Get.

(** [Config.__deepcopy__].  The loop over [self.sections ()] copies every
    section through the methods of the base class ([add_section], [items],
    [set]); [copy_sections] stands for what they yield, the base class
    being no part of this program.  The new object starts with a zero
    counter and refers to the very dictionary of macros of the original. *)
Section Deepcopy.
Variable copy_sections :
  gmap string string -> gmap string (gmap string string) ->
  outcome (gmap string (gmap string string)).

Definition deepcopy (self : Config) : outcome Config :=
  match copy_sections (defaults self) (sections self) with
  | Return secs =>
      Return {| get_depth := 0; rpm_macros := rpm_macros self;
                defaults := defaults self; sections := secs |}
  | Raise e => Raise e
  end.

End Deepcopy.

End ConfigStore.

(** ** Reference structure of a configuration *)

Module ConfigRefs.
Import PyStr ConfigStore.

(** A placeholder that is resolved by a recursive [get]: neither [ENV:],
    [SHELL:] nor [RPM:]. *)
Definition is_plain (f_section : string) : bool :=
  negb (String.eqb f_section "ENV:" || String.eqb f_section "SHELL:"
        || String.eqb f_section "RPM:").

(** [f_section [:-1] or section] *)
Definition target (section f_section : string) : string :=
  if truthy (drop_last f_section) then drop_last f_section else section.



(** The number of times the builder was run by [Config.get] to evaluate
    macro [name], that is the number of runs of the command for this one
    macro.  The combined command of the start-up is not counted here; see
    [StartupRun.builder_evals]. *)
Definition macro_evals (name : string) (tr : list command) : nat :=
  length (filter (fun c => c = Argv (eval_macro name)) tr).

(** Every macro evaluated so far was evaluated once and is held by the
    dictionary at [l]. *)
Definition cache_covers (l : nat) (w : World) : Prop :=
  forall name,
    (macro_evals name (trace w) <= 1)%nat /\
    (0 < macro_evals name (trace w) -> is_Some ((heap w !!! l) !! name))%nat.

Definition rec_t : Type := Config -> World -> string -> string -> option result.

(** Two objects with the same options and the same macro dictionary. *)
Definition same_store (a b : Config) : Prop :=
  rpm_macros a = rpm_macros b /\ defaults a = defaults b /\ sections a = sections b.

(** What every call of [get] guarantees, stated for the recursive call
    handed to the loop: the options and the macro reference are left
    alone, and a call that returns has lowered the counter by at most 1. *)
Definition frame (rec : rec_t) : Prop :=
  forall self w s o r self' w',
    rec self w s o = Some (r, self', w') ->
    same_store self self' /\
    (forall v, r = Return v -> get_depth self - 1 <= get_depth self').


(** On return the dictionary at [l] still covers the commands run; after
    an exception every macro has still been evaluated at most once. *)
Definition evaluated_once (w : World) : Prop :=
  forall name, (macro_evals name (trace w) <= 1)%nat.

Definition cache_post (l : nat) (r : outcome string) (w : World) : Prop :=
  match r with
  | Return _ => cache_covers l w
  | Raise _ => evaluated_once w
  end.

Definition cache_ok (l : nat) (rec : rec_t) : Prop :=
  forall self w s o r self' w',
    rpm_macros self = l -> cache_covers l w ->
    rec self w s o = Some (r, self', w') -> cache_post l r w'.

(** A client of the store: a sequence of [get] and [copy.deepcopy] calls on
    the objects created so far (object 0 is the first one), abandoned at
    the first exception, as the program does.  The pre-evaluation of the
    start-up, which writes to the dictionary without going through [get],
    is no such call; see [StartupRun.startup]. *)
Inductive op :=
| OpGet (i : nat) (section : string) (opt : option string)
| OpDeepcopy (i : nat).

Record run_state := {
  objects : list Config;
  world : World;
  failure : option exn;
}.

Section Run.
Variable os : OS.
Variable copy_sections :
  gmap string string -> gmap string (gmap string string) ->
  outcome (gmap string (gmap string string)).

Definition step (st : run_state) (o : op) : run_state :=
  match failure st with
  | Some _ => st
  | None =>
      match o with
      | OpGet i section opt =>
          match objects st !! i with
          | Some self =>
              match get os self (world st) section opt with
              | Some (Return _, self', w') =>
                  {| objects := <[i := self']> (objects st); world := w'; failure := None |}
              | Some (Raise e, self', w') =>
                  {| objects := <[i := self']> (objects st); world := w'; failure := Some e |}
              | None => st
              end
          | None => st
          end
      | OpDeepcopy i =>
          match objects st !! i with
          | Some self =>
              match deepcopy copy_sections self with
              | Return copy =>
                  {| objects := objects st ++ [copy]; world := world st; failure := None |}
              | Raise e =>
                  {| objects := objects st; world := world st; failure := Some e |}
              end
          | None => st
          end
      end
  end.

Definition run (ops : list op) (st : run_state) : run_state := foldl step st ops.

End Run.

(** All objects refer to the dictionary at [l]; it covers the commands run
    as long as nothing has failed. *)
Definition run_inv (l : nat) (st : run_state) : Prop :=
  Forall (fun c => rpm_macros c = l) (objects st) /\
  match failure st with
  | None => cache_covers l (world st)
  | Some _ => evaluated_once (world st)
  end.

End ConfigRefs.

(** ** The pipeline runner *)

Module Pipeline.
Import PyStr.

(** [class Error]: [__init__ (self, prefix, msg = None, hint = None)]. *)
Definition Error_init (prefix : string) (msg hint : option string) : exn :=
  Error (if otruthy msg then Some prefix else None)
        (if otruthy msg then default "" msg else prefix)
        hint.

Definition Error_params : list string := ["prefix"; "msg"; "hint"].

(** A call of [Error] with positional and keyword string arguments, bound the way
    Python binds the parameters of [__init__]: a keyword that is no
    parameter, a parameter given twice, too many positional arguments or a
    missing [prefix] make the call itself raise [TypeError]. *)
Definition call_Error (args : list string) (kwargs : list (string * string)) : exn :=
  match List.find (fun kv => negb (existsb (String.eqb kv.1) Error_params)) kwargs with
  | Some (k, _) => TypeError ("__init__() got an unexpected keyword argument '" +:+ k +:+ "'")
  | None =>
      let positional := zip Error_params args in
      let clash := List.find (fun kv => existsb (fun pv => String.eqb kv.1 pv.1) positional) kwargs in
      let bound := (positional ++ kwargs)%list in
      let value (p : string) := snd <$> List.find (fun kv => String.eqb kv.1 p) bound in
      match clash, value "prefix" with
      | Some (k, _), _ =>
          TypeError ("__init__() got multiple values for keyword argument '" +:+ k +:+ "'")
      | None, None => TypeError "__init__() takes at least 2 arguments"
      | None, Some prefix =>
          if (3 <? length args)%nat then TypeError "__init__() takes at most 4 arguments"
          else Error_init prefix (value "msg") (value "hint")
      end
  end.

(** Where output can go: the console, or an open file. *)
Inductive stream :=
| Stdout
| LogFile (path : string).

#[global] Instance stream_eq_dec : EqDecision stream.
Proof. solve_decision. Defined.

(** The globals read by the runner: [g_args.log_to_console], [g_log] and
    [g_output_file]. *)
Record Globals := {
  log_to_console : bool;
  g_log : option stream;
  g_output_file : option stream;
}.

(** One run of a pipeline as the operating system decides it: whether the
    [i]-th process can be started, the exit status [wait] returns for it,
    the lines of the merged output, whether a file can be opened for
    writing, and the readings of the clock as [run_pipe_log] prints them
    ([strftime (DATETIME_FMT)] of the two time stamps and [str] of their
    difference). *)
Record PipeOS := {
  popen : nat -> list string -> option (Z * string);
  wait : nat -> Z;
  output : list string;
  open_w : string -> option (Z * string);
  start_ts : string;
  end_ts : string;
  elapsed : string;
}.

Section Runner.
(** [re.compile (regex).findall (line)] *)
Variable re_findall : string -> string -> list string.
Variable os : PipeOS.
Variable g : Globals.

(** The [Popen] calls in the order made; [cmd] is the variable of that name,
    which the loop rebinds before each call.  Yields its last value and the
    [OSError], if any. *)
Fixpoint spawn_all (i : nat) (commands : list (list string)) (cmd : list string)
  : list string * option (Z * string) :=
  match commands with
  | [] => (cmd, None)
  | c :: rest =>
      match popen os i c with
      | Some err => (c, Some err)
      | None => spawn_all (S i) rest c
      end
  end.

(** [run_pipe]: the result, and what was written where, in order.  The
    output reaches [file] line by line when it is captured, and straight
    from the processes when it is not.  The status of the last process is
    collected into [rc] and replaced by that of the first in the next
    statement, as in the source.  When a command cannot be started the
    list of writes is left empty: what the processes started before it
    wrote to [file] by then is not described. *)
Definition run_pipe (commands : list (list string)) (regex : option string)
    (file : option stream) : outcome (list string) * list (stream * string) :=
  let file := match file with Some _ => file | None => g_output_file g end in
  let recomp := if otruthy regex then Some (re_findall (default "" regex)) else None in
  let duplicate_output :=
    (log_to_console g && bool_decide (g_log g <> Some Stdout)
     && bool_decide (file <> Some Stdout))%bool in
  let capture_output :=
    (duplicate_output || bool_decide (is_Some recomp) || bool_decide (file = None))%bool in
  match commands with
  | [] => (Raise IndexError, [])
  | cmd0 :: _ =>
      match spawn_all 0 commands cmd0 with
      | (cmd, Some (errno, strerror)) =>
          let rc := 1 in
          let msg := "error " +:+ pretty errno +:+ " (" +:+ strerror +:+ ")" in
          (Raise (RunError (join " " cmd) msg None None), [])
      | (cmd, None) =>
          let lines :=
            if capture_output then
              match recomp with
              | Some findall => concat (map findall (output os))
              | None => []
              end
            else [] in
          let to_file (line : string) :=
            match file with Some f => [(f, line)] | None => [] end in
          let written :=
            if capture_output then
              concat (map (fun line =>
                             ((if duplicate_output then [(Stdout, line)] else [])
                              ++ to_file line)%list)
                          (output os))
            else concat (map to_file (output os)) in
          let rc := if (1 <? length commands)%nat
                    then wait os (length commands - 1) else 0 in
          let rc := wait os 0 in
          let msg := "exit code " +:+ pretty rc in
          if negb (rc =? 0) then (Raise (RunError (join " " cmd) msg None None), written)
          else (Return lines, written)
      end
  end.

(** [run (command, regex)] *)
Definition run (command : list string) (regex : option string)
  : outcome (list string) * list (stream * string) :=
  run_pipe [command] regex None.

Definition start_line (commands : list (list string)) : string :=
  "[" +:+ start_ts os +:+ ", " +:+ join " | " (map (join " ") commands) +:+ "]" +:+ nl.

Definition end_line (msg : string) : string :=
  "[" +:+ end_ts os +:+ ", " +:+ msg +:+ ", " +:+ rstrip_char "0" (elapsed os)
  +:+ " s]" +:+ nl.

(** [run_pipe_log]; the [finally] clause writes the end line and then
    calls [Error] with the keyword [log_file]. *)
Definition run_pipe_log (log_file : string) (commands : list (list string))
    (regex : option string) : outcome (list string) * list (stream * string) :=
  match open_w os log_file with
  | Some (errno, strerror) => (Raise (IOError errno strerror (Some log_file)), [])
  | None =>
      let f := LogFile log_file in
      let '(r, written) := run_pipe commands regex (Some f) in
      let '(rc, msg, cmd) :=
        match r with
        | Raise (RunError cmd msg _ _) => (1, msg, cmd)
        | _ => (0, "exit code 0", "")
        end in
      let written := ((f, start_line commands) :: written ++ [(f, end_line msg)])%list in
      if negb (rc =? 0) then
        (Raise (call_Error
                  ["The following command failed with: " +:+ msg +:+ ":" +:+ nl +:+
                   "  " +:+ join_chars " " cmd]
                  [("log_file", log_file)]),
         written)
      else (r, written)
  end.

(** [run_log (log_file, command, regex)] *)
Definition run_log (log_file : string) (command : list string) (regex : option string)
  : outcome (list string) * list (stream * string) :=
  run_pipe_log log_file [command] regex.

End Runner.

Definition raises_RunError {A} (r : outcome A) : Prop :=
  exists cmd msg hint log_file, r = Raise (RunError cmd msg hint log_file).

End Pipeline.

(** ** The grammar of the summary header

    [VER_FULL_REGEX] and [BUILD_USER_REGEX] use character classes,
    concatenation and repetition only, so [re.match (r'^%s$' % R, s)] for a
    stripped [s] is full-match membership, decided here by derivatives. *)

Module Regex.
Import PyStr.

Inductive re :=
| Void
| Eps
| Class (p : ascii -> bool)
| Seq (a b : re)
| Alt (a b : re)
| Star (a : re).

Fixpoint nullable (r : re) : bool :=
  match r with
  | Void => false
  | Eps => true
  | Class _ => false
  | Seq a b => nullable a && nullable b
  | Alt a b => nullable a || nullable b
  | Star _ => true
  end.

Fixpoint deriv (c : ascii) (r : re) : re :=
  match r with
  | Void => Void
  | Eps => Void
  | Class p => if p c then Eps else Void
  | Seq a b =>
      if nullable a then Alt (Seq (deriv c a) b) (deriv c b) else Seq (deriv c a) b
  | Alt a b => Alt (deriv c a) (deriv c b)
  | Star a => Seq (deriv c a) (Star a)
  end.

Fixpoint fullmatch (r : re) (s : string) : bool :=
  match s with
  | EmptyString => nullable r
  | String c t => fullmatch (deriv c r) t
  end.

Definition plus (r : re) : re := Seq r (Star r).
Definition lit (c : ascii) : re := Class (Ascii.eqb c).
Definition seqs (l : list re) : re := foldr Seq Eps l.

Definition dot_or (p : ascii -> bool) (c : ascii) : bool := (Ascii.eqb c "." || p c)%bool.

(** [\d+[.\d]*-\w+[.\w]*\.\w+] *)
Definition VER_FULL_REGEX : re :=
  seqs [plus (Class is_digit); Star (Class (dot_or is_digit)); lit "-";
        plus (Class is_word); Star (Class (dot_or is_word)); lit "."; plus (Class is_word)].

Definition user_char (c : ascii) : bool :=
  (is_word c || Ascii.eqb c "." || Ascii.eqb c "-")%bool.

(** [[a-zA-Z0-9_.-]+@[a-zA-Z0-9_.-]+] *)
Definition BUILD_USER_REGEX : re :=
  seqs [plus (Class user_char); lit "@"; plus (Class user_char)].

End Regex.

(** ** Numbers in text

    [float (s)], [int (s)] and ['%s' % x] for a float are the interpreter's
    own; they are taken as given, together with the type of floats and its
    equality. *)
Record PyNum := {
  pyfloat : Type;
  float_eqb : pyfloat -> pyfloat -> bool;
  float_of_string : string -> option pyfloat;
  str_of_float : pyfloat -> string;
  int_of_string : string -> option Z;
}.

#[global] Instance outcome_ret : MRet outcome := fun A a => Return a.
#[global] Instance outcome_bind : MBind outcome := fun A B k m =>
  match m with
  | Return a => k a
  | Raise e => Raise e
  end.

(** ** The file system *)

Module FS.
Import PyStr.

Section Files.
Variable P : PyNum.

Inductive node :=
| File (content : list string)
| Dir.

(** A path that exists: what is there, with the time of its last
    modification and its size as [os.stat] reports them.  A file holds its
    lines, each with its line terminator. *)
Record entry := {
  kind : node;
  mtime : pyfloat P;
  size : Z;
}.

Definition ENOENT : Z := 2.
Definition EISDIR : Z := 21.
Definition no_such_file : string := "No such file or directory".

Definition isfile (s : gmap string entry) (path : string) : bool :=
  match s !! path with
  | Some {| kind := File _ |} => true
  | _ => false
  end.

Definition isdir (s : gmap string entry) (path : string) : bool :=
  match s !! path with
  | Some {| kind := Dir |} => true
  | _ => false
  end.

Definition stat (s : gmap string entry) (path : string) : outcome entry :=
  match s !! path with
  | Some e => Return e
  | None => Raise (OSError ENOENT no_such_file (Some path))
  end.

Definition getmtime (s : gmap string entry) (path : string) : outcome (pyfloat P) :=
  e ← stat s path; Return (mtime e).

Definition getsize (s : gmap string entry) (path : string) : outcome Z :=
  e ← stat s path; Return (size e).

(** [open (path, 'r')] and reading all of it. *)
Definition open_r (s : gmap string entry) (path : string) : outcome (list string) :=
  match s !! path with
  | Some {| kind := File content |} => Return content
  | Some {| kind := Dir |} => Raise (IOError EISDIR "Is a directory" (Some path))
  | None => Raise (IOError ENOENT no_such_file (Some path))
  end.

(** Everything at [path] or below it. *)
Definition under (path : string) (p : string) : bool :=
  (String.eqb p path || startswith (path +:+ "/") p)%bool.

(** [remove_path (path)]: a file is removed, a directory is removed with
    all it holds, a missing path is left alone. *)
Definition remove_path (s : gmap string entry) (path : string) : gmap string entry :=
  if isfile s path then delete path s
  else if isdir s path then filter (fun kv => under path kv.1 = false) s
  else s.

(** [ensure_dir (path)]; [now] is the time a new directory is stamped
    with. *)
Definition ensure_dir (now : pyfloat P) (s : gmap string entry) (path : string)
  : outcome unit * gmap string entry :=
  if isdir s path then (Return (), s)
  else
    match s !! path with
    | Some _ =>
        (Raise (Error None
                  ("Cannot create directory `" +:+ path +:+ "`: " +:+
                   str_OSError 17 "File exists" (Some path)) None), s)
    | None => (Return (), <[path := {| kind := Dir; mtime := now; size := 0 |}]> s)
    end.

Definition content_size (content : list string) : Z :=
  foldr (fun line n => Z.of_nat (String.length line) + n) 0 content.

(** [open (path, 'w')]: the file is created or emptied. *)
Definition open_w (now : pyfloat P) (s : gmap string entry) (path : string)
  : outcome unit * gmap string entry :=
  if isdir s path then (Raise (IOError EISDIR "Is a directory" (Some path)), s)
  else (Return (), <[path := {| kind := File []; mtime := now; size := 0 |}]> s).

(** [f.write (line)] on the file opened at [path]. *)
Definition write (now : pyfloat P) (s : gmap string entry) (path line : string)
  : gmap string entry :=
  match s !! path with
  | Some {| kind := File content |} =>
      let content := (content ++ [line])%list in
      <[path := {| kind := File content; mtime := now; size := content_size content |}]> s
  | _ => s
  end.

(** [os.rename (src, dst)] for a regular file [src], the only use made of
    it here: a directory at [dst] is an [OSError], anything else at [dst]
    is replaced.  The renaming of a directory is not described. *)
Definition rename (s : gmap string entry) (src dst : string)
  : outcome unit * gmap string entry :=
  match s !! src with
  | None => (Raise (OSError ENOENT no_such_file None), s)
  | Some e =>
      if isdir s dst then (Raise (OSError EISDIR "Is a directory" None), s)
      else (Return (), <[dst := e]> (delete src s))
  end.

(** [shutil.copy2 (src, dst)]: into [dst] when it is a directory, else onto
    it; the time stamp travels with the content. *)
Definition copy2 (s : gmap string entry) (src dst : string)
  : outcome unit * gmap string entry :=
  match s !! src with
  | Some {| kind := File content; mtime := m; size := n |} =>
      let target := if isdir s dst then path_join dst (basename src) else dst in
      (Return (), <[target := {| kind := File content; mtime := m; size := n |}]> s)
  | Some {| kind := Dir |} => (Raise (IOError EISDIR "Is a directory" (Some src)), s)
  | None => (Raise (IOError ENOENT no_such_file (Some src)), s)
  end.

End Files.

End FS.

(** ** Repository layout and the build summary *)

Module Summary.
Import PyStr FS.

Record repo_config := {
  rc_base : string;
  rc_rpm : string;
  rc_srpm : string;
  rc_zip : string;
  rc_log : string;
}.

(** The dictionary [read_group_config] returns: [base], [repos] and one
    entry [repo.NAME] per repository, [repo.None] being the local build
    area. *)
Record group_config := {
  gc_base : string;
  gc_repos : list string;
  gc_repo : gmap string repo_config;
}.

(** ['repo.%s' % repo] *)
Definition repo_key (repo : option string) : string :=
  "repo." +:+ default "None" repo.

Definition lookup_repo (gc : group_config) (repo : option string) : outcome repo_config :=
  match gc_repo gc !! repo_key repo with
  | Some rc => Return rc
  | None => Raise (KeyError (repo_key repo))
  end.

Definition resolve_path (name arch : string) (repo : option string) (gc : group_config)
  : outcome string :=
  rc ← lookup_repo gc repo;
  if String.eqb arch "srpm" then Return (path_join (rc_srpm rc) name)
  else if String.eqb arch "zip" then Return (path_join (rc_zip rc) name)
  else Return (path_join (path_join (rc_rpm rc) arch) name).

(** A value of the dictionary of artifacts: one path under [srpm] and
    [zip], a list of paths under each target. *)
Inductive artifact :=
| One (path : string)
| Many (paths : list string).

Section Read.
Variable P : PyNum.

Definition float_ne (a b : pyfloat P) : bool := negb (float_eqb P a b).

(** The two [except] clauses around the parsing of the summary, with the
    line number reached. *)
Definition summary_failure (summary : string) (ln : nat) (e : exn) : exn :=
  match e with
  | IOError errno strerror filename | OSError errno strerror filename =>
      Error None (summary +:+ ":" +:+ pretty ln +:+ ":" +:+ nl +:+
                  str_OSError errno strerror filename) None
  | ValueError =>
      Error (Some (summary +:+ ":" +:+ pretty ln))
            "Invalid field type or number of fields" None
  | _ => e
  end.

(** The body of the loop over the artifact lines, before the [except]
    clauses apply. *)
Definition read_record (s : gmap string (entry P)) (summary : string)
    (repo : option string) (gc : group_config) (ln : nat) (line : string)
    (d : gmap string artifact) : outcome (gmap string artifact) :=
  match split "|" (strip line) with
  | [arch; name; mtime; size] =>
      match float_of_string P mtime with
      | None => Raise ValueError
      | Some mtime =>
          match int_of_string P size with
          | None => Raise ValueError
          | Some size =>
              path ← resolve_path name arch repo gc;
              actual ← getmtime P s path;
              if float_ne actual mtime then
                Raise (Error (Some (summary +:+ ":" +:+ pretty ln))
                         (nl +:+ "Recorded mtime differs from actual for `%s`") None)
              else
                actual ← getsize P s path;
                if negb (actual =? size) then
                  Raise (Error (Some (summary +:+ ":" +:+ pretty ln))
                           (nl +:+ "Recorded size differs from actual for `%s`") None)
                else if (String.eqb arch "srpm" || String.eqb arch "zip")%bool then
                  Return (<[arch := One path]> d)
                else
                  match d !! arch with
                  | Some (Many paths) => Return (<[arch := Many (paths ++ [path])%list]> d)
                  | Some (One _) => Raise (TypeError "'str' object has no attribute 'append'")
                  | None => Return (<[arch := Many [path]]> d)
                  end
          end
      end
  | _ => Raise ValueError
  end.

Fixpoint read_records (s : gmap string (entry P)) (summary : string)
    (repo : option string) (gc : group_config) (ln : nat) (lines : list string)
    (d : gmap string artifact) : outcome (gmap string artifact) :=
  match lines with
  | [] => Return d
  | line :: rest =>
      let ln := S ln in
      match read_record s summary repo gc ln line d with
      | Return d => read_records s summary repo gc ln rest d
      | Raise e => Raise (summary_failure summary ln e)
      end
  end.

Definition read_build_summary (s : gmap string (entry P)) (spec_base : string)
    (repo : option string) (gc : group_config)
  : outcome (string * string * pyfloat P * gmap string artifact) :=
  rc ← lookup_repo gc repo;
  let log_base := path_join (rc_log rc) spec_base in
  let summary := path_join log_base "summary" in
  match open_r P s summary with
  | Raise (IOError errno strerror filename) =>
      if errno =? 2 then
        Raise (Error None ("No build summary for `" +:+ spec_base +:+ "` (" +:+ summary +:+ ")")
                 (Some "Use `build` command to build the packages first."))
      else
        Raise (Error None ("Cannot read build summary for `" +:+ spec_base +:+ "`:" +:+ nl +:+
                           str_OSError errno strerror filename) None)
  | Raise e => Raise e
  | Return lines =>
      let ver_full := strip (nth 0 lines "") in
      if negb (Regex.fullmatch Regex.VER_FULL_REGEX ver_full) then
        Raise (Error None ("Invalid version specification: `" +:+ ver_full +:+ "`") None)
      else
        match split "|" (strip (nth 1 lines "")) with
        | [build_user; build_time] =>
            if negb (Regex.fullmatch Regex.BUILD_USER_REGEX build_user) then
              Raise (Error None ("Invalid build user specification: `" +:+ build_user +:+ "`")
                       None)
            else
              match float_of_string P build_time with
              | None => Raise (summary_failure summary 2 ValueError)
              | Some build_time =>
                  d ← read_records s summary repo gc 2 (drop 2 lines) ∅;
                  Return (ver_full, build_user, build_time, d)
              end
        | _ => Raise (summary_failure summary 2 ValueError)
        end
  end.

(** The first two lines of a summary pass the checks of the reader. *)
Definition header_ok (lines : list string) : Prop :=
  Regex.fullmatch Regex.VER_FULL_REGEX (strip (nth 0 lines "")) = true /\
  exists build_user build_time t,
    split "|" (strip (nth 1 lines "")) = [build_user; build_time] /\
    Regex.fullmatch Regex.BUILD_USER_REGEX build_user = true /\
    float_of_string P build_time = Some t.

(** An artifact line that parses, and what it records. *)
Definition record_of (repo : option string) (gc : group_config) (line : string)
    (path : string) (m : pyfloat P) (n : Z) : Prop :=
  exists arch name ms ss,
    split "|" (strip line) = [arch; name; ms; ss] /\
    float_of_string P ms = Some m /\
    int_of_string P ss = Some n /\
    resolve_path name arch repo gc = Return path.

(** An artifact line whose file is on disk with the recorded time and
    size. *)
Definition record_verified (s : gmap string (entry P)) (repo : option string)
    (gc : group_config) (line : string) : Prop :=
  exists path m n e,
    record_of repo gc line path m n /\
    s !! path = Some e /\ float_ne (mtime P e) m = false /\ size P e = n.

End Read.

End Summary.

(** ** Upload: resolving the repositories and copying the packages *)

Module Promotion.
Import PyStr FS Summary Pipeline.

Section Move.
Variable P : PyNum.

(** The loop that looks for a summary in the repositories of the group; it
    has no [break]. *)
Fixpoint find_summary (s : gmap string (entry P)) (gc : group_config)
    (spec_base : string) (repos : list string) (from_repo : option string)
  : outcome (option string) :=
  match repos with
  | [] => Return from_repo
  | repo :: rest =>
      rc ← lookup_repo gc (Some repo);
      find_summary s gc spec_base rest
        (if isfile P s (path_join (path_join (rc_log rc) spec_base) "summary")
         then Some repo else from_repo)
  end.

Fixpoint index (repos : list string) (x : string) : option nat :=
  match repos with
  | [] => None
  | r :: rest => if String.eqb r x then Some O else S <$> index rest x
  end.

Definition member (x : option string) (repos : list string) : bool :=
  match x with
  | Some r => existsb (String.eqb r) repos
  | None => false
  end.

Definition no_repository (repo : option string) (group : string) : exn :=
  call_Error ["No repository `" +:+ default "None" repo +:+ "` in group `" +:+ group +:+ "`"] [].

(** [move_cmd] for one spec, from its first statement to the check of
    [to_repo], the loading of the spec by [resolve_spec] left aside: the
    group configuration and the resolved [from_repo] and [to_repo].
    [read_group_config] stands for the function of that name applied to
    the configuration of the spec. *)
Definition move_cmd_resolve (s : gmap string (entry P)) (COMMAND GROUP spec_base : string)
    (read_group_config : string -> outcome group_config)
  : outcome (group_config * option string * option string) :=
  let is_upload := String.eqb COMMAND "upload" in
  if negb is_upload then Raise (call_Error ["Not implemented!"] [])
  else
    match firstn 3 (map Some (split_max ":" 2 GROUP) ++ [None; None])%list with
    | [Some group; to_repo; from_repo] =>
        if (is_upload && otruthy from_repo)%bool then
          Raise (call_Error ["Extra input in GROUP spec: `" +:+ default "" from_repo +:+ "`"] [])
        else
          gc ← read_group_config group;
          let repos := gc_repos gc in
          from_repo ←
            (if (negb is_upload && negb (otruthy from_repo))%bool
             then find_summary s gc spec_base repos from_repo
             else Return from_repo);
          if (otruthy from_repo && negb (member from_repo repos))%bool then
            Raise (no_repository from_repo group)
          else
            to_repo ←
              (if negb (otruthy to_repo) then
                 if otruthy from_repo then
                   match index repos (default "" from_repo) with
                   | None => Raise ValueError
                   | Some i =>
                       if (i <? length repos)%nat then
                         match repos !! S i with
                         | Some r => Return (Some r)
                         | None => Raise IndexError
                         end
                       else
                         Raise (call_Error
                                  ["No repository after `" +:+ default "" from_repo +:+
                                   "` in group `" +:+ group +:+ "`"] [])
                   end
                 else
                   match repos !! O with
                   | Some r => Return (Some r)
                   | None => Raise IndexError
                   end
               else Return to_repo);
            if negb (member to_repo repos) then Raise (no_repository to_repo group)
            else Return (gc, from_repo, to_repo)
    | _ => Raise ValueError
    end.

(** The inner loop of the copy: every pair collected so far is copied,
    after the check that its destination is a directory.  [copied] lists
    the calls of [shutil.copy2] made, latest last. *)
Fixpoint copy_all (s : gmap string (entry P)) (rpms_to_copy : list (string * string))
    (copied : list (string * string))
  : outcome unit * gmap string (entry P) * list (string * string) :=
  match rpms_to_copy with
  | [] => (Return (), s, copied)
  | (src, dst) :: rest =>
      if negb (isdir P s dst) then (Raise (call_Error [dst; "Not a directory"] []), s, copied)
      else
        match copy2 P s src dst with
        | (Return _, s) => copy_all s rest (copied ++ [(src, dst)])%list
        | (Raise e, s) => (Raise e, s, copied)
        end
  end.

(** The pairs of source file and destination directory that the outer
    loop appends for the key [arch].  A value of the wrong shape for its
    key, which [read_build_summary] never builds, is a [TypeError]. *)
Definition pairs_of (to_repo_config : repo_config) (rpms : gmap string artifact)
    (arch : string) : outcome (list (string * string)) :=
  match rpms !! arch with
  | None => Raise (KeyError arch)
  | Some a =>
      if String.eqb arch "srpm" then
        match a with
        | One src => Return [(src, rc_srpm to_repo_config)]
        | Many _ => Raise (TypeError "coercing to Unicode: need string or buffer, list found")
        end
      else if String.eqb arch "zip" then
        match a with
        | One src => Return [(src, rc_zip to_repo_config)]
        | Many _ => Raise (TypeError "coercing to Unicode: need string or buffer, list found")
        end
      else
        match a with
        | Many srcs =>
            let dst := path_join (rc_rpm to_repo_config) arch in
            Return (map (fun src => (src, dst)) srcs)
        | One _ => Raise (TypeError "a single path under a target key")
        end
  end.

(** The [Copy RPMs] loop of [move_cmd] over [rpms.keys ()], given as
    [keys]; the inner loop sits inside it. *)
Fixpoint move_cmd_copy (s : gmap string (entry P)) (to_repo_config : repo_config)
    (rpms : gmap string artifact) (keys : list string)
    (rpms_to_copy : list (string * string)) (copied : list (string * string))
  : outcome (list (string * string)) * gmap string (entry P) * list (string * string) :=
  match keys with
  | [] => (Return rpms_to_copy, s, copied)
  | arch :: rest =>
      match pairs_of to_repo_config rpms arch with
      | Raise e => (Raise e, s, copied)
      | Return pairs =>
          let rpms_to_copy := (rpms_to_copy ++ pairs)%list in
          match copy_all s rpms_to_copy copied with
          | (Return _, s, copied) => move_cmd_copy s to_repo_config rpms rest rpms_to_copy copied
          | (Raise e, s, copied) => (Raise e, s, copied)
          end
      end
  end.

End Move.

End Promotion.

(** ** Build: writing the summary *)

Module Build.
Import PyStr FS Summary.

(** What the build steps before the summary yield: the version, the
    source package, the archive, and the packages of each target in the
    order of [arch_rpms.keys ()]. *)
Record products := {
  ver_full : string;
  srpm : string;
  zip_file : string;
  arch_rpms : list (string * list string);
}.

Section BuildCmd.
Variable P : PyNum.

(** A run that may be cut short.  Every operation on the file system takes
    one unit of [budget]; when none is left the process is gone and the
    file system stays as it is ([Crashed]). *)
Inductive ended (A : Type) :=
| Finished (r : outcome A) (s : gmap string (entry P)) (budget : nat)
| Crashed (s : gmap string (entry P)).
Arguments Finished {A} r s budget.
Arguments Crashed {A} s.

Definition task (A : Type) : Type := gmap string (entry P) -> nat -> ended A.

Definition ret {A} (a : A) : task A := fun s n => Finished (Return a) s n.

Definition raise {A} (e : exn) : task A := fun s n => Finished (Raise e) s n.

Definition bind {A B} (m : task A) (k : A -> task B) : task B := fun s n =>
  match m s n with
  | Finished (Return a) s' n' => k a s' n'
  | Finished (Raise e) s' n' => Finished (Raise e) s' n'
  | Crashed s' => Crashed s'
  end.

Definition step {A} (f : gmap string (entry P) -> outcome A * gmap string (entry P))
  : task A := fun s n =>
  match n with
  | O => Crashed s
  | S n' => let '(r, s') := f s in Finished r s' n'
  end.

Notation "x <~ m ;; k" := (bind m (fun x => k))
  (at level 100, m at next level, right associativity).

Definition final_fs {A} (e : ended A) : gmap string (entry P) :=
  match e with
  | Finished _ s _ => s
  | Crashed s => s
  end.

(** The stamp new files and directories get. *)
Variable now : pyfloat P.

Definition f_write (path line : string) : task unit :=
  step (fun s => (Return (), write P now s path line)).

(** [file_data (path)] *)
Definition file_data (path : string) : task string :=
  mtime <~ step (fun s => (getmtime P s path, s)) ;;
  size <~ step (fun s => (getsize P s path, s)) ;;
  ret (basename path +:+ "|" +:+ str_of_float P mtime +:+ "|" +:+ pretty size).

Definition write_record (tmp class path : string) : task unit :=
  data <~ file_data path ;;
  f_write tmp (class +:+ "|" +:+ data +:+ nl).

Fixpoint write_rpms (tmp a : string) (rpms : list string) : task unit :=
  match rpms with
  | [] => ret ()
  | r :: rest => _ <~ write_record tmp a r ;; write_rpms tmp a rest
  end.

Fixpoint write_archs (tmp : string) (arch_rpms : list (string * list string)) : task unit :=
  match arch_rpms with
  | [] => ret ()
  | (a, rpms) :: rest => _ <~ write_rpms tmp a rpms ;; write_archs tmp rest
  end.

(** The last statements of [build_cmd]: the summary is written to
    [summary.tmp], which is then renamed.  [time_time] is the reading of
    [time.time ()]. *)
Definition build_cmd_summary (summary g_username g_hostname : string)
    (time_time : pyfloat P) (p : products) : task unit :=
  let tmp := summary +:+ ".tmp" in
  _ <~ step (fun s => open_w P now s tmp) ;;
  _ <~ f_write tmp (ver_full p +:+ nl) ;;
  _ <~ f_write tmp (g_username +:+ "@" +:+ g_hostname +:+ "|"
                    +:+ str_of_float P time_time +:+ nl) ;;
  _ <~ write_record tmp "srpm" (srpm p) ;;
  _ <~ write_record tmp "zip" (zip_file p) ;;
  _ <~ write_archs tmp (arch_rpms p) ;;
  step (fun s => rename P s tmp summary).

(** [build_cmd] for one spec.  [builder] stands for the steps between
    [ensure_dir] and the summary, which run the external builder and the
    archiver: they yield the products or fail, and change the file system
    as those tools do. *)
Definition build_cmd (force_command : bool)
    (g_log_dir spec_base g_username g_hostname : string) (time_time : pyfloat P)
    (builder : string -> task products) : task unit :=
  let log_base := path_join (path_join g_log_dir "build") spec_base in
  let summary := path_join log_base "summary" in
  present <~ step (fun s => (Return (isfile P s summary), s)) ;;
  _ <~ (if present : bool then
          lines <~ step (fun s => (open_r P s summary, s)) ;;
          let ver := strip (nth 0 lines "") in
          if force_command then ret ()
          else raise (Pipeline.call_Error
                        ["Build summary for `" +:+ spec_base +:+ "` (" +:+ ver
                         +:+ ") already exists (" +:+ summary +:+ ")"]
                        [("hint", "Use -f option to overwrite this build with another one w/o uploading it.")])
        else ret ()) ;;
  _ <~ step (fun s => (Return (), remove_path P s log_base)) ;;
  _ <~ step (fun s => ensure_dir P now s log_base) ;;
  p <~ builder log_base ;;
  build_cmd_summary summary g_username g_hostname time_time p.

(** [s'] is [s0] everywhere but at [tmp]. *)
Definition unchanged_off (tmp : string) (s0 s' : gmap string (entry P)) : Prop :=
  forall path, path <> tmp -> s' !! path = s0 !! path.

(** While the summary is being staged: nothing but [tmp] differs from the
    file system the staging started with, and [tmp] holds [lines]. *)
Definition staging (tmp : string) (s0 s : gmap string (entry P)) (lines : list string)
  : Prop :=
  unchanged_off tmp s0 s /\ exists e, s !! tmp = Some e /\ kind P e = File lines.

(** The line written for an artifact of class [class] found at [path] with
    the attributes [e]. *)
Definition record_line (class path : string) (e : entry P) : string :=
  class +:+ "|" +:+
  (basename path +:+ "|" +:+ str_of_float P (mtime P e) +:+ "|" +:+ pretty (size P e))
  +:+ nl.

(** One line per artifact, each made from a successful [os.stat]; for an
    artifact other than [tmp] itself that is the file the staging started
    with. *)
Definition recorded (tmp : string) (s0 : gmap string (entry P))
    (arts : list (string * string)) (recs : list string) : Prop :=
  Forall2 (fun a line =>
             exists e, (a.2 <> tmp -> s0 !! a.2 = Some e) /\ line = record_line a.1 a.2 e)
          arts recs.

(** The artifacts of a build in the order their lines are written. *)
Definition artifacts (p : products) : list (string * string) :=
  ("srpm", srpm p) :: ("zip", zip_file p)
  :: concat (map (fun ar => map (fun r => (ar.1, r)) ar.2) (arch_rpms p)).

(** Reasoning about a task by cases on how it ends. *)
Definition within {A} (m : task A) (s : gmap string (entry P)) (n : nat)
    (Qc : gmap string (entry P) -> Prop)
    (Qr : A -> gmap string (entry P) -> nat -> Prop) : Prop :=
  match m s n with
  | Crashed s' => Qc s'
  | Finished (Raise _) s' _ => Qc s'
  | Finished (Return a) s' n' => Qr a s' n'
  end.

(** What a part of the staging guarantees: if it is cut short or fails,
    only [tmp] has been touched; if it completes, it has appended the
    lines of the artifacts [arts]. *)
Definition stages (tmp : string) (s0 : gmap string (entry P))
    (arts : list (string * string)) (m : task unit) : Prop :=
  forall s n lines,
    staging tmp s0 s lines ->
    within m s n (unchanged_off tmp s0)
      (fun _ s' _ => exists recs, staging tmp s0 s' (lines ++ recs) /\ recorded tmp s0 arts recs).

End BuildCmd.

Arguments Finished {P A} r s budget.
Arguments Crashed {P A} s.
Arguments unchanged_off {P} tmp s0 s'.
Arguments staging {P} tmp s0 s lines.
Arguments record_line {P} class path e.
Arguments recorded {P} tmp s0 arts recs.
Arguments within {P A} m s n Qc Qr.
Arguments stages {P} tmp s0 arts m.

End Build.

(** ** What a call of [Config.get] leaves behind *)

Module ConfigInv.
Import PyStr ConfigStore ConfigRefs.

(** What a call may have done to the world outside of the object: commands
    were only added to the trace, no dictionary but the one at [l] was
    touched, and every macro the dictionary at [l] held is still there with
    its value. *)
Definition extends (l : nat) (w w' : World) : Prop :=
  (exists new, trace w' = (new ++ trace w)%list) /\
  (forall l', l' <> l -> heap w' !! l' = heap w !! l') /\
  (forall name v, (heap w !!! l) !! name = Some v -> (heap w' !!! l) !! name = Some v).

Definition extends_ok (rec : rec_t) : Prop :=
  forall self w s o r self' w',
    rec self w s o = Some (r, self', w') -> extends (rpm_macros self) w w'.

(** The exceptions that leave [get]: those of [ConfigParser], the
    [CalledProcessError] of [subprocess.check_output], and the [ValueError]
    of the unpacking of [section.split (':')]. *)
Definition get_exn (e : exn) : bool :=
  match e with
  | NoSectionError _ | NoOptionError _ _
  | InterpolationError _ _ _ | InterpolationDepthError _ _ _
  | CalledProcessError _ _ _ | ValueError => true
  | _ => false
  end.

Definition get_exn_ok (rec : rec_t) : Prop :=
  forall self w s o e self' w',
    rec self w s o = Some (Raise e, self', w') -> get_exn e = true.

(** A placeholder that is resolved without running anything: an
    environment variable, or a macro the dictionary at [l] holds. *)
Definition quiet (w : World) (l : nat) (m : string * string) : Prop :=
  m.1 = "ENV:" \/ (m.1 = "RPM:" /\ is_Some ((heap w !!! l) !! m.2)).

(** [c in s] for a character [c]. *)
Fixpoint contains_char (c : ascii) (s : string) : bool :=
  match s with
  | EmptyString => false
  | String d t => (Ascii.eqb c d || contains_char c t)%bool
  end.

End ConfigInv.

(** ** The exit status of the script *)

Module Main.

(** The [except] clauses of the top level, in their order: the code the
    script exits with after exception [e].  [Error.code] is 101 and
    [RunError.code] is 102; an exception no clause names gets 127. *)
Definition exit_code (e : exn) : Z :=
  match e with
  | NoSectionError _ | NoOptionError _ _
  | InterpolationError _ _ _ | InterpolationDepthError _ _ _ => 1
  | IOError _ _ _ | OSError _ _ _ => 2
  | RunError _ _ _ _ => 102
  | Error _ _ _ => 101
  | _ => 127
  end.

End Main.

(** ** Splitting a value into a list *)

Module ConfigLists.
Import PyStr ConfigStore.

(** [s.split ()]: the maximal runs of characters that are no white space. *)
Fixpoint split_ws (s : string) : list string :=
  match s with
  | EmptyString => []
  | String c t =>
      if is_space c then split_ws t
      else
        match t with
        | String d _ =>
            if is_space d then String c "" :: split_ws t
            else
              match split_ws t with
              | w :: r => String c w :: r
              | [] => [String c ""]
              end
        | EmptyString => [String c ""]
        end
  end.

(** [s.split (sep)] for a non-empty [sep]: the fields between the
    non-overlapping occurrences of [sep], found from the left.  [skip]
    counts the characters of an occurrence still to be passed. *)
Fixpoint split_str_go (sep : string) (skip : nat) (s : string) : list string :=
  match s with
  | EmptyString => [""]
  | String c t =>
      match skip with
      | S k => split_str_go sep k t
      | O =>
          if startswith sep s then "" :: split_str_go sep (String.length sep - 1) t
          else
            match split_str_go sep O t with
            | f :: r => String c f :: r
            | [] => [String c ""]
            end
      end
  end.

(** [s.split (sep)]: [None] splits at white space, an empty separator is a
    [ValueError]. *)
Definition py_split (sep : option string) (s : string) : outcome (list string) :=
  match sep with
  | None => Return (split_ws s)
  | Some "" => Raise ValueError
  | Some sep => Return (split_str_go sep O s)
  end.

Definition list_result : Type := outcome (list string) * Config * World.

Section Lists.
Variable os : OS.

(** [Config.getlist]: [filter (None, l)] keeps the strings that are not
    empty. *)
Definition getlist (self : Config) (w : World) (section : string) (opt : option string)
    (sep : option string) : option list_result :=
  match get os self w section opt with
  | None => None
  | Some (Raise e, self, w) => Some (Raise e, self, w)
  | Some (Return v, self, w) =>
      match py_split sep v with
      | Raise e => Some (Raise e, self, w)
      | Return l => Some (Return (List.filter truthy l), self, w)
      end
  end.

Definition getlines (self : Config) (w : World) (section : string) (opt : option string)
  : option list_result :=
  getlist self w section opt (Some nl).

Definition getwords (self : Config) (w : World) (section : string) (opt : option string)
  : option list_result :=
  getlist self w section opt None.

End Lists.

(** The characters of a list of strings, in order. *)
Definition chars_of (l : list string) : list ascii :=
  concat (map list_ascii_of_string l).

(** A word as [getwords] yields it, a line as [getlines] does. *)
Definition is_word_item (x : string) : Prop :=
  x <> "" /\ Forall (fun c => is_space c = false) (list_ascii_of_string x).

Definition is_line_item (x : string) : Prop :=
  x <> "" /\ Forall (fun c => c <> Placeholder.newline) (list_ascii_of_string x).

(** The loop of the main program over [general:spec_dirs]: a line that starts with [+] joins the
    group before it, if there is one; any other line starts a group. *)
Fixpoint spec_dirs_loop (g_spec_dirs : list (list string)) (lines : list string)
  : outcome (list (list string)) :=
  match lines with
  | [] => Return g_spec_dirs
  | d :: rest =>
      match d with
      | EmptyString => Raise IndexError
      | String c d1 =>
          if (Ascii.eqb c "+" && negb (length g_spec_dirs =? 0)%nat)%bool then
            match g_spec_dirs !! (length g_spec_dirs - 1)%nat with
            | Some group =>
                spec_dirs_loop
                  (<[(length g_spec_dirs - 1)%nat := (group ++ [lstrip d1])%list]> g_spec_dirs)
                  rest
            | None => Raise IndexError
            end
          else spec_dirs_loop (g_spec_dirs ++ [[d]])%list rest
      end
  end.

End ConfigLists.

(** ** Logging *)

Module Logging.
Import PyStr Pipeline.

(** [s [-1]] *)
Fixpoint last_char (s : string) : option ascii :=
  match s with
  | EmptyString => None
  | String c EmptyString => Some c
  | String _ t => last_char t
  end.

(** [log (msg)]: the exception, if any, and what is written where. *)
Definition log (g : Globals) (msg : string) : outcome unit * list (stream * string) :=
  match last_char msg with
  | None => (Raise IndexError, [])
  | Some c =>
      let msg := if negb (Ascii.eqb c Placeholder.newline) then msg +:+ nl else msg in
      match g_output_file g with
      | Some f =>
          (Return (),
           (f, msg) ::
           (if (log_to_console g && bool_decide (g_log g <> Some Stdout))%bool
            then [(Stdout, msg)] else []))
      | None =>
          (Return (),
           (Stdout, msg) ::
           match g_log g with
           | Some l => if bool_decide (l <> Stdout) then [(l, msg)] else []
           | None => []
           end)
      end
  end.

(** [c in '.:!?'] *)
Definition punctuation (c : ascii) : bool :=
  (Ascii.eqb c "." || Ascii.eqb c ":" || Ascii.eqb c "!" || Ascii.eqb c "?")%bool.

(** [log_kind (kind, prefix, msg = None)]; [prefix] may be [None] as well,
    the top level passes [e.prefix]. *)
Definition log_kind (g : Globals) (kind : string) (prefix msg : option string)
  : outcome unit * list (stream * string) :=
  let '(msg, prefix) := if negb (otruthy msg) then (prefix, None) else (msg, prefix) in
  match msg with
  | None => (Raise (TypeError "'NoneType' object has no attribute '__getitem__'"), [])
  | Some m =>
      match last_char m with
      | None => (Raise IndexError, [])
      | Some c =>
          let m := if negb (punctuation c) then m +:+ "." else m in
          log g (kind +:+ ": " +:+
                 (if otruthy prefix then default "" prefix +:+ ": " else "") +:+ m)
      end
  end.

Definition log_err (g : Globals) (prefix msg : option string) := log_kind g "ERROR" prefix msg.
Definition log_note (g : Globals) (prefix msg : option string) := log_kind g "NOTE" prefix msg.
Definition log_hint (g : Globals) (prefix msg : option string) := log_kind g "HINT" prefix msg.

(** [g_output_file = f] *)
Definition set_output_file (f : option stream) (g : Globals) : Globals :=
  {| log_to_console := log_to_console g; g_log := g_log g; g_output_file := f |}.

(** [type (e).__name__] *)
Definition exn_name (e : exn) : string :=
  match e with
  | NoSectionError _ => "NoSectionError"
  | NoOptionError _ _ => "NoOptionError"
  | InterpolationError _ _ _ => "InterpolationError"
  | InterpolationDepthError _ _ _ => "InterpolationDepthError"
  | CalledProcessError _ _ _ => "CalledProcessError"
  | OSError _ _ _ => "OSError"
  | IOError _ _ _ => "IOError"
  | ValueError => "ValueError"
  | IndexError => "IndexError"
  | KeyError _ => "KeyError"
  | TypeError _ => "TypeError"
  | Error _ _ _ => "Error"
  | RunError _ _ _ _ => "RunError"
  end.

(** What [func_log] can raise: an exception of [exn], or the
    [AttributeError] of [sys.exc_type.__name__] when no exception is being
    handled. *)
Inductive func_log_exn :=
| Raised (e : exn)
| AttributeError (msg : string).

Section FuncLog.
Variable os : PipeOS.
(** [traceback.format_exc ()] for the exception caught. *)
Variable format_exc : exn -> string.

(** [func_log (log_file, func)].  [func] is given the globals it runs
    under and yields what it returns ([None] or an integer) or raises, and
    what it wrote; [str_func] is [str (func)]; [exc_type] is the name of
    [sys.exc_type] as the caller left it, [None] when no exception is being
    handled.  Yields the exception, if any, what was written, and the
    globals afterwards. *)
Definition func_log (g : Globals) (exc_type : option string) (log_file str_func : string)
    (func : Globals -> outcome (option Z) * list (stream * string))
  : option func_log_exn * list (stream * string) * Globals :=
  match open_w os log_file with
  | Some (errno, strerror) => (Some (Raised (IOError errno strerror (Some log_file))), [], g)
  | None =>
      let f := LogFile log_file in
      let start := (f, "[" +:+ start_ts os +:+ ", Python " +:+ str_func +:+ "]" +:+ nl) in
      let '(r, written) := func (set_output_file (Some f) g) in
      let '(rc, msg, written, exc_type) :=
        match r with
        | Return v =>
            let rc := default 0 v in
            (rc, "return code " +:+ pretty rc, written, exc_type)
        | Raise (RunError cmd msg _ _) =>
            (1, "", (written ++ [(f, cmd +:+ ": " +:+ msg +:+ nl)])%list, Some "RunError")
        | Raise e =>
            (1, "",
             (written ++ [(f, "Unexpected exception occured:" +:+ nl +:+ format_exc e)])%list,
             Some (exn_name e))
        end in
      let g := set_output_file None g in
      if negb (rc =? 0) then
        match exc_type with
        | None =>
            (Some (AttributeError "'NoneType' object has no attribute '__name__'"),
             start :: written, g)
        | Some name =>
            let msg := "exception " +:+ name in
            (Some (Raised (RunError str_func msg None (Some log_file))),
             (start :: written ++ [(f, end_line os msg)])%list, g)
        end
      else (None, (start :: written ++ [(f, end_line os msg)])%list, g)
  end.

End FuncLog.

End Logging.

(** ** Log rotation *)

Module LogFiles.
Import PyStr FS.

Section Rotate.
Variable P : PyNum.

(** [os.path.exists (path)] *)
Definition exists_path (s : gmap string (entry P)) (path : string) : bool :=
  bool_decide (is_Some (s !! path)).

(** [os.remove (path)]: a file is removed; a directory and a missing path
    are an [OSError]. *)
Definition remove (s : gmap string (entry P)) (path : string)
  : outcome unit * gmap string (entry P) :=
  match s !! path with
  | Some {| kind := File _ |} => (Return (), delete path s)
  | Some {| kind := Dir |} => (Raise (OSError 1 "Operation not permitted" (Some path)), s)
  | None => (Raise (OSError ENOENT no_such_file (Some path)), s)
  end.

(** [rotate_log (log_file)]: the [OSError] of [os.remove] is passed over,
    that of [os.rename] becomes an [Error]. *)
Definition rotate_log (s : gmap string (entry P)) (log_file : string)
  : outcome unit * gmap string (entry P) :=
  if exists_path s log_file then
    let s := (remove s (log_file +:+ ".bak")).2 in
    match rename P s log_file (log_file +:+ ".bak") with
    | (Raise (OSError errno strerror filename), s) =>
        (Raise (Pipeline.call_Error
                  ["Cannot rename `" +:+ log_file +:+ "` to `.bak`: " +:+
                   str_OSError errno strerror filename] []), s)
    | r => r
    end
  else (Return (), s).

End Rotate.

End LogFiles.

(** ** Repository groups *)

Module Groups.
Import PyStr ConfigStore ConfigLists Summary.

Section ReadGroup.
Variable os : OS.
(** Where the dictionary [g_rpm] lives, and the globals [g_zip_dir] and
    [g_log_dir]. *)
Variable g_rpm : nat.
Variable g_zip_dir : string.
Variable g_log_dir : string.

(** Statements that use a [Config] object: they read and change the object
    and the world, and end in a value or an exception. *)
Definition cfg_task (A : Type) : Type :=
  Config -> World -> option (outcome A * Config * World).

Definition cfg_ret {A} (a : A) : cfg_task A := fun c w => Some (Return a, c, w).

Definition cfg_raise {A} (e : exn) : cfg_task A := fun c w => Some (Raise e, c, w).

Definition cfg_bind {A B} (m : cfg_task A) (k : A -> cfg_task B) : cfg_task B := fun c w =>
  match m c w with
  | None => None
  | Some (Raise e, c, w) => Some (Raise e, c, w)
  | Some (Return a, c, w) => k a c w
  end.

Notation "x <~ m ;; k" := (cfg_bind m (fun x => k))
  (at level 100, m at next level, right associativity).

(** [config.get (section, option)] and [config.getwords (section, option)] *)
Definition config_get (section opt : string) : cfg_task string :=
  fun c w => get os c w section (Some opt).

Definition config_getwords (section opt : string) : cfg_task (list string) :=
  fun c w => getwords os c w section (Some opt).

(** [g_rpm [key]] *)
Definition g_rpm_item (key : string) : cfg_task string := fun c w =>
  match (heap w !!! g_rpm) !! key with
  | Some v => Some (Return v, c, w)
  | None => Some (Raise (KeyError key), c, w)
  end.

(** The body of the loop over the repositories: the dictionary [rd].  Its
    entry [layout] is read within the body only and is not kept here. *)
Definition read_repo (base group repo : string) : cfg_task repo_config :=
  let repo_section := "repository." +:+ group +:+ ":" +:+ repo in
  layout <~ config_get repo_section "layout" ;;
  repo_dir <~ config_get repo_section "base" ;;
  let repo_base := path_join base repo_dir in
  let layout_section := "layout." +:+ layout in
  rpm <~ config_get layout_section "rpm" ;;
  srpm <~ config_get layout_section "srpm" ;;
  zip <~ config_get layout_section "zip" ;;
  log <~ config_get layout_section "log" ;;
  cfg_ret {| rc_base := repo_base;
             rc_rpm := path_join repo_base rpm;
             rc_srpm := path_join repo_base srpm;
             rc_zip := path_join repo_base zip;
             rc_log := path_join repo_base log |}.

Fixpoint read_repos (base group : string) (repos : list string)
    (d : gmap string repo_config) : cfg_task (gmap string repo_config) :=
  match repos with
  | [] => cfg_ret d
  | repo :: rest =>
      rd <~ read_repo base group repo ;;
      read_repos base group rest (<[repo_key (Some repo) := rd]> d)
  end.

(** [read_group_config (group, config)] *)
Definition read_group_config (group : string) : cfg_task group_config :=
  let group_section := "group." +:+ group in
  base <~ config_get group_section "base" ;;
  repos <~ config_getwords group_section "repositories" ;;
  if (length repos =? 0)%nat then
    cfg_raise (Pipeline.call_Error ["config"; "No repositories in group `" +:+ group +:+ "`"] [])
  else
    d <~ read_repos base group repos ∅ ;;
    topdir <~ g_rpm_item "_topdir" ;;
    rpmdir <~ g_rpm_item "_rpmdir" ;;
    srcrpmdir <~ g_rpm_item "_srcrpmdir" ;;
    cfg_ret {| gc_base := base;
               gc_repos := repos;
               gc_repo :=
                 <[repo_key None :=
                     {| rc_base := topdir; rc_rpm := rpmdir; rc_srpm := srcrpmdir;
                        rc_zip := g_zip_dir; rc_log := path_join g_log_dir "build" |}]> d |}.

End ReadGroup.

(** The keys of the dictionary of a group: [repo.None] and one per
    repository. *)
Definition group_keys (gc : group_config) (k : string) : Prop :=
  k = repo_key None \/ exists repo, In repo (gc_repos gc) /\ k = repo_key (Some repo).

(** A group configuration as [read_group_config] yields it for some
    [Config] object. *)
Definition read_from_config (os : OS) (g_rpm : nat) (g_zip_dir g_log_dir : string)
    (group : string) (gc : group_config) : Prop :=
  exists c w c' w',
    read_group_config os g_rpm g_zip_dir g_log_dir group c w = Some (Return gc, c', w').

End Groups.

(** ** Upload: the two repositories *)

Module Upload.
Import PyStr FS Summary Promotion.

Section Configs.
Variable P : PyNum.

(** [move_cmd] up to the two statements that take [from_repo_config] and
    [to_repo_config] out of the group configuration. *)
Definition move_cmd_repo_configs (s : gmap string (entry P)) (COMMAND GROUP spec_base : string)
    (read_group_config : string -> outcome group_config)
  : outcome (repo_config * repo_config) :=
  '(gc, from_repo, to_repo) ← move_cmd_resolve P s COMMAND GROUP spec_base read_group_config;
  from_repo_config ← lookup_repo gc from_repo;
  to_repo_config ← lookup_repo gc to_repo;
  Return (from_repo_config, to_repo_config).

End Configs.



End Upload.

(** ** Build: the loop over the targets *)

Module BuildArchs.
Import PyStr.

Section Archs.
(** What [run_log] returns for the [i]-th target of the list: the lines
    of the log that name a package written. *)
Variable run_log_arch : nat -> string -> outcome (list string).
Variable log_base : string.

(** [bool (l)] of a list or [None]. *)
Definition nonempty (l : option (list string)) : bool :=
  match l with
  | Some (_ :: _) => true
  | _ => false
  end.

(** The loop over [archs] in [build_cmd], from the [i]-th target on, with
    the variables [noarch_only], [base_rpms] and [arch_rpms]; the inner
    loop looks for a package of the target itself. *)
Fixpoint arch_loop (i : nat) (archs : list string) (noarch_only : bool)
    (base_rpms : option (list string)) (arch_rpms : gmap string (list string))
  : outcome (option (list string) * gmap string (list string)) :=
  match archs with
  | [] => Return (base_rpms, arch_rpms)
  | arch :: rest =>
      let log_file := path_join log_base (arch +:+ ".log") in
      match run_log_arch i arch with
      | Raise e => Raise e
      | Return rpms =>
          if negb (length rpms =? 0)%nat then
            let arch_rpms := <[arch := rpms]> arch_rpms in
            let base_rpms := if negb (nonempty base_rpms) then Some rpms else base_rpms in
            let noarch_only :=
              if existsb (endswith ("." +:+ arch +:+ ".rpm")) rpms then false
              else noarch_only in
            if noarch_only then Return (base_rpms, arch_rpms)
            else arch_loop (S i) rest noarch_only base_rpms arch_rpms
          else
            Raise (Pipeline.call_Error
                     ["Cannot find `.(" +:+ arch +:+ "|noarch).rpm` file names in `"
                      +:+ log_file +:+ "`."] [])
      end
  end.

End Archs.

End BuildArchs.

(** ** Start-up: the macros evaluated in advance *)

Module Startup.
Import PyStr ConfigStore.

Definition g_rpmbuild_used_macros : list string :=
  ["_topdir"; "_sourcedir"; "dist"; "_bindir"; "_rpmdir"; "_srcrpmdir"].

(** [s.lstrip (c)] for a one-character argument. *)
Fixpoint lstrip_char (c : ascii) (s : string) : string :=
  match s with
  | String d t => if Ascii.eqb c d then lstrip_char c t else s
  | EmptyString => EmptyString
  end.

(** [''.join (l)] *)
Definition concat_str (l : list string) : string := foldr String.append "" l.

(** The one command that evaluates all the macros. *)
Definition eval_all : list string :=
  [RPMBUILD_EXE; "--eval";
   lstrip_char "|" (concat_str (map (fun s => "|%{?" +:+ s +:+ "}") g_rpmbuild_used_macros))].

(** The loop over [enumerate (fields)], from index [i] on: the field is
    stored under the [i]-th macro name. *)
Fixpoint store_fields (g_rpm : nat) (i : nat) (fields : list string) (w : World)
  : outcome unit * World :=
  match fields with
  | [] => (Return (), w)
  | m :: rest =>
      match g_rpmbuild_used_macros !! i with
      | Some name => store_fields g_rpm (S i) rest (set_macro g_rpm name m w)
      | None => (Raise IndexError, w)
      end
  end.

(** The pre-evaluation of the macros at start-up; [g_rpm] is where the
    dictionary of that name lives. *)
Definition preevaluate (os : OS) (g_rpm : nat) (w : World) : outcome unit * World :=
  match command_output os w eval_all with
  | (Return out, w) => store_fields g_rpm 0 (split "|" (strip out)) w
  | (Raise e, w) => (Raise e, w)
  end.

End Startup.

(** ** Start-up: from the spec directories to the macros evaluated in advance *)

Module StartupRun.
Import PyStr ConfigStore ConfigLists Startup ConfigInv.

(** Command [c] makes the builder evaluate macro [name]: it is the
    one-macro command of [Config.get], or the combined command of the
    start-up and [name] is one of its macros. *)
Definition evaluates (name : string) (c : command) : bool :=
  (bool_decide (c = Argv (eval_macro name))
   || (bool_decide (c = Argv eval_all)
       && bool_decide (name ∈ g_rpmbuild_used_macros)))%bool.

(** The number of times the builder was run to evaluate macro [name], by
    either command. *)
Definition builder_evals (name : string) (tr : list command) : nat :=
  length (filter (fun c => evaluates name c = true) tr).

(** Beyond [extends]: a macro that the dictionary at [l] holds now and did
    not hold before was evaluated by the builder in between. *)
Definition accounted (l : nat) (w w' : World) : Prop :=
  extends l w w' /\
  forall name,
    (heap w !!! l) !! name = None -> is_Some ((heap w' !!! l) !! name) ->
    (builder_evals name (trace w) < builder_evals name (trace w'))%nat.

Definition accounted_ok (rec : ConfigRefs.rec_t) : Prop :=
  forall self w s o r self' w',
    rec self w s o = Some (r, self', w') -> accounted (rpm_macros self) w w'.

(** The main program from the loop over [general:spec_dirs] to the end of
    the pre-evaluation of the macros.  [g_config] is [Config (g_rpm)], so
    the dictionary [g_rpm] is the one the object refers to.  Yields
    [g_spec_dirs]. *)
Definition startup (os : OS) (g_config : Config) (w : World)
  : option (outcome (list (list string)) * Config * World) :=
  match getlines os g_config w "general:spec_dirs" None with
  | None => None
  | Some (Raise e, g_config, w) => Some (Raise e, g_config, w)
  | Some (Return lines, g_config, w) =>
      match spec_dirs_loop [] lines with
      | Raise e => Some (Raise e, g_config, w)
      | Return g_spec_dirs =>
          match preevaluate os (rpm_macros g_config) w with
          | (Raise e, w) => Some (Raise e, g_config, w)
          | (Return _, w) => Some (Return g_spec_dirs, g_config, w)
          end
      end
  end.

End StartupRun.

(** ** Sample inputs *)

Module Samples.
Import ConfigStore ConfigRefs.

(** A machine whose shell knows [false], cannot be started for [nosh] and
    prints [ out] otherwise, and whose builder evaluates every macro to the
    empty string. *)
Definition os_sample : OS := {|
  environ := {[ "HOME" := "/home/u" ]};
  execute := fun _ c =>
    match c with
    | Shell "false" => Exited 1 ""
    | Shell "nosh" => CannotStart 2 "No such file or directory"
    | Shell _ => Exited 0 (" out" +:+ nl)
    | Argv _ => Exited 0 nl
    end;
|}.

Definition world_empty : World := {| heap := ∅; trace := [] |}.

Definition cfg_sample : Config := {|
  get_depth := 0;
  rpm_macros := 0%nat;
  defaults := ∅;
  sections :=
    {[ "s" := {[ "a" := "${a}"; "b" := "plain"; "d" := "${SHELL:false}";
                 "e" := "${RPM:x}${RPM:x}";
                 "h" := "${ENV:HOME}${ENV:HOME}${ENV:HOME}${ENV:HOME}${ENV:HOME}${ENV:HOME}${ENV:HOME}${ENV:HOME}${ENV:HOME}${ENV:HOME}" ]} ]};
|}.

Definition copy_raw (defaults : gmap string string)
    (sections : gmap string (gmap string string))
  : outcome (gmap string (gmap string string)) :=
  Return ((fun d => d ∪ defaults) <$> sections).

(** Pipelines of two processes that both start: [pipe_last_fails] has the
    first exit with 0 and the second with 1, [pipe_first_fails] the
    reverse. *)
Definition pipe_os (statuses : list Z) : Pipeline.PipeOS := {|
  Pipeline.popen := fun _ _ => None;
  Pipeline.wait := fun i => default 0 (statuses !! i);
  Pipeline.output := ["Wrote: a.rpm" +:+ nl];
  Pipeline.open_w := fun _ => None;
  Pipeline.start_ts := "2017-01-01 00:00:00";
  Pipeline.end_ts := "2017-01-01 00:00:01";
  Pipeline.elapsed := "0:00:01.500000";
|}.

Definition pipe_last_fails : Pipeline.PipeOS := pipe_os [0; 1].
Definition pipe_first_fails : Pipeline.PipeOS := pipe_os [1; 0].

Definition globals_sample : Pipeline.Globals := {|
  Pipeline.log_to_console := false;
  Pipeline.g_log := Some (Pipeline.LogFile "rpmbuild-bot2.log");
  Pipeline.g_output_file := None;
|}.

Definition unpack : list (list string) :=
  [["rpm2cpio.exe"; "a.rpm"]; ["cpio.exe"; "-idm"]].

Definition no_findall (_ _ : string) : list string := [].

(** Floats that are whole numbers of seconds, printed and read the way
    Python prints them ([1478185465.0]); integers in plain decimal. *)
Fixpoint digits_go (acc : Z) (s : string) : option Z :=
  match s with
  | EmptyString => Some acc
  | String c t =>
      if PyStr.is_digit c
      then digits_go (10 * acc + (Z.of_N (N_of_ascii c) - 48)) t
      else None
  end.

Definition digits (s : string) : option Z :=
  match s with
  | EmptyString => None
  | _ => digits_go 0 s
  end.

Definition seconds : PyNum := {|
  pyfloat := Z;
  float_eqb := Z.eqb;
  float_of_string := fun s =>
    digits (if PyStr.endswith ".0" s then PyStr.drop_last (PyStr.drop_last s) else s);
  str_of_float := fun z => pretty z +:+ ".0";
  int_of_string := digits;
|}.

Definition local_repo : Summary.repo_config := {|
  Summary.rc_base := "/rpmbuild";
  Summary.rc_rpm := "/rpmbuild/RPMS";
  Summary.rc_srpm := "/rpmbuild/SRPMS";
  Summary.rc_zip := "/rpmbuild/zip";
  Summary.rc_log := "/rpmbuild/logs/build";
|}.

Definition repo_at (base : string) : Summary.repo_config := {|
  Summary.rc_base := base;
  Summary.rc_rpm := base +:+ "/rpm";
  Summary.rc_srpm := base +:+ "/srpm";
  Summary.rc_zip := base +:+ "/zip";
  Summary.rc_log := base +:+ "/log";
|}.

Definition group_sample : Summary.group_config := {|
  Summary.gc_base := "/repo";
  Summary.gc_repos := ["dev"; "staging"; "public"];
  Summary.gc_repo :=
    {[ "repo.dev" := repo_at "/repo/dev"; "repo.staging" := repo_at "/repo/staging";
       "repo.public" := repo_at "/repo/public"; "repo.None" := local_repo ]};
|}.

Definition file_of (content : list string) (mtime size : Z) : FS.entry seconds :=
  FS.Build_entry seconds (FS.File content) mtime size.

Definition dir_entry : FS.entry seconds :=
  FS.Build_entry seconds FS.Dir 0 0.

Definition summary_lines : list string :=
  ["1.2-3.oc00" +:+ nl; "builder@host|1500000000.0" +:+ nl;
   "srpm|foo-1.2-3.oc00.src.rpm|1500000001.0|1000" +:+ nl;
   "zip|foo-1_2-3_oc00.zip|1500000002.0|2000" +:+ nl].

(** A local build of [foo] whose summary matches the two files on disk. *)
Definition fs_built : gmap string (FS.entry seconds) :=
  {[ "/rpmbuild/logs/build/foo" := dir_entry;
     "/rpmbuild/logs/build/foo/summary" := file_of summary_lines 1500000003 120;
     "/rpmbuild/SRPMS/foo-1.2-3.oc00.src.rpm" := file_of [] 1500000001 1000;
     "/rpmbuild/zip/foo-1_2-3_oc00.zip" := file_of [] 1500000002 2000;
     "/repo/dev/srpm" := dir_entry; "/repo/dev/zip" := dir_entry;
     "/repo/dev/rpm" := dir_entry; "/repo/dev/log" := dir_entry ]}.

(** The same after the archive was touched. *)
Definition fs_touched : gmap string (FS.entry seconds) :=
  <["/rpmbuild/zip/foo-1_2-3_oc00.zip" := file_of [] 1500000009 2000]> fs_built.

(** The same after the archive was deleted. *)
Definition fs_deleted : gmap string (FS.entry seconds) :=
  delete "/rpmbuild/zip/foo-1_2-3_oc00.zip" fs_built.




(** The dictionary [read_build_summary] returns for [fs_built]. *)
Definition rpms_sample : gmap string Summary.artifact :=
  {[ "srpm" := Summary.One "/rpmbuild/SRPMS/foo-1.2-3.oc00.src.rpm";
     "zip" := Summary.One "/rpmbuild/zip/foo-1_2-3_oc00.zip" ]}.

(** What a build of [foo] yields when the builder succeeds, and a builder
    that fails. *)
Definition products_sample : Build.products := {|
  Build.ver_full := "1.2-3.oc00";
  Build.srpm := "/rpmbuild/SRPMS/foo-1.2-3.oc00.src.rpm";
  Build.zip_file := "/rpmbuild/zip/foo-1_2-3_oc00.zip";
  Build.arch_rpms := [];
|}.

Definition builder_ok (log_base : string) : Build.task seconds Build.products :=
  Build.ret seconds products_sample.

(** A failing [rpmbuild] surfaces from [run_log] as the [TypeError] of
    [run_pipe_log]. *)
Definition builder_fails (log_base : string) : Build.task seconds Build.products :=
  Build.raise seconds (TypeError "__init__() got an unexpected keyword argument 'log_file'").


(** A configuration with a group of two repositories that share one
    layout, and values that use the environment, the shell and a macro. *)
Definition cfg_more : Config := {|
  get_depth := 0;
  rpm_macros := 0%nat;
  defaults := ∅;
  sections :=
    {[ "general" := {[ "archs" := "pentium4 i686";
                       "spec_dirs" := "/specs" +:+ nl +:+ "+ /specs/extra" +:+ nl +:+ nl +:+ "/other" ]};
       "t" := {[ "env" := "${ENV:NOPE}"; "top" := "${RPM:_topdir}/logs";
                 "sh" := "${SHELL:echo out}"; "nosh" := "${SHELL:nosh}" ]};
       "group.grp" := {[ "base" := "/repo"; "repositories" := "dev  staging" ]};
       "repository.grp:dev" := {[ "layout" := "flat"; "base" := "dev" ]};
       "repository.grp:staging" := {[ "layout" := "flat"; "base" := "staging" ]};
       "layout.flat" := {[ "rpm" := "rpm"; "srpm" := "srpm"; "zip" := "zip"; "log" := "log" ]} ]};
|}.

(** The macro dictionary after start-up. *)
Definition macros_more : gmap string string :=
  {[ "_topdir" := "/rpmbuild"; "_rpmdir" := "/rpmbuild/RPMS";
     "_srcrpmdir" := "/rpmbuild/SRPMS" ]}.

Definition world_more : World := {| heap := {[ 0%nat := macros_more ]}; trace := [] |}.

(** The group [grp] as [cfg_more] describes it. *)
Definition group_more : Summary.group_config := {|
  Summary.gc_base := "/repo";
  Summary.gc_repos := ["dev"; "staging"];
  Summary.gc_repo :=
    {[ "repo.dev" := repo_at "/repo/dev";
       "repo.staging" := repo_at "/repo/staging";
       "repo.None" := local_repo ]};
|}.

(** [read_group_config] on [cfg_more], as a function of the group. *)
Definition read_group_more (group : string) : outcome Summary.group_config :=
  match Groups.read_group_config os_sample 0 "/rpmbuild/zip" "/rpmbuild/logs" group
          cfg_more world_more with
  | Some (r, _, _) => r
  | None => Raise ValueError
  end.

(** A machine on which [cpio.exe], the second command of a pipeline, cannot
    be started. *)
Definition pipe_no_cpio : Pipeline.PipeOS := {|
  Pipeline.popen := fun i _ =>
    if (i =? 1)%nat then Some (2, "No such file or directory") else None;
  Pipeline.wait := fun _ => 0;
  Pipeline.output := [];
  Pipeline.open_w := fun _ => None;
  Pipeline.start_ts := "2017-01-01 00:00:00";
  Pipeline.end_ts := "2017-01-01 00:00:01";
  Pipeline.elapsed := "0:00:01.500000";
|}.

(** A [gen_zip] whose archiver fails after the first message. *)
Definition gen_zip_fails (g : Pipeline.Globals)
  : outcome (option Z) * list (Pipeline.stream * string) :=
  (Raise (RunError "zip -mry9 foo.zip @unixroot" "exit code 12" None None),
   (Logging.log g "Creating `foo.zip`...").2).

Definition format_exc_sample (e : exn) : string :=
  "Traceback (most recent call last):" +:+ nl.

(** A test log and its backup. *)
Definition fs_logs : gmap string (FS.entry seconds) :=
  {[ "/rpmbuild/logs/test/foo.log" := file_of ["new" +:+ nl] 1500000005 4;
     "/rpmbuild/logs/test/foo.log.bak" := file_of ["old" +:+ nl] 1500000004 4 ]}.

(** A builder that writes one package of the target itself and one
    [noarch] package for every target. *)
Definition run_log_sample (i : nat) (arch : string) : outcome (list string) :=
  Return ["/rpmbuild/RPMS/" +:+ arch +:+ "/foo-1.2-3.oc00." +:+ arch +:+ ".rpm";
          "/rpmbuild/RPMS/noarch/foo-doc-1.2-3.oc00.noarch.rpm"].

(** A machine whose builder answers the combined evaluation. *)
Definition os_startup : OS := {|
  environ := ∅;
  execute := fun _ c =>
    Exited 0 ("/rpmbuild|/rpmbuild/SOURCES|.oc00|/@unixroot/usr/bin|/rpmbuild/RPMS|/rpmbuild/SRPMS"
              +:+ nl);
|}.

(** A configuration whose spec directories lie under [%{_topdir}], and a
    machine whose builder answers the evaluation of that macro and the
    combined evaluation of the start-up. *)
Definition cfg_topdir : Config := {|
  get_depth := 0;
  rpm_macros := 0%nat;
  defaults := ∅;
  sections := {[ "general" := {[ "spec_dirs" := "${RPM:_topdir}/SPECS" ]} ]};
|}.

Definition os_topdir : OS := {|
  environ := ∅;
  execute := fun _ c =>
    if bool_decide (c = Argv (eval_macro "_topdir")) then Exited 0 ("/rpmbuild" +:+ nl)
    else
      Exited 0 ("/rpmbuild|/rpmbuild/SOURCES|.oc00|/@unixroot/usr/bin|/rpmbuild/RPMS|/rpmbuild/SRPMS"
                +:+ nl);
|}.

(** The macro dictionary [g_rpm] as the script creates it: empty. *)
Definition world_start : World := {| heap := {[ 0%nat := ∅ ]}; trace := [] |}.

(** A test log with a directory where its backup would go. *)
Definition fs_bak_dir : gmap string (FS.entry seconds) :=
  {[ "/rpmbuild/logs/test/foo.log" := file_of ["new" +:+ nl] 1500000005 4;
     "/rpmbuild/logs/test/foo.log.bak" := dir_entry ]}.

End Samples.

(** * Properties *)

Example strip_ex : PyStr.strip "  /usr/bin
" = "/usr/bin".
Proof. reflexivity. Qed.

Example split_ex : PyStr.split ":" "general:archs" = ["general"; "archs"].
Proof. reflexivity. Qed.

Example split_max_ex : PyStr.split_max ":" 2 "g:a:b:c" = ["g"; "a"; "b:c"].
Proof. reflexivity. Qed.

Example replace_ex : PyStr.replace "${a}" "xy" "1${a}2${a}${a" = "1xy2xy${a".
Proof. reflexivity. Qed.

Example join_chars_ex : PyStr.join_chars " " "ls -l" = "l s   - l".
Proof. reflexivity. Qed.

Example findall_kinds :
  Placeholder.findall "a ${b} ${sec:opt} ${ENV:HOME} ${RPM:_topdir} ${bad ${x-y}"
  = [("", "b"); ("sec:", "opt"); ("ENV:", "HOME"); ("RPM:", "_topdir")].
Proof. reflexivity. Qed.

Example findall_shell_greedy :
  Placeholder.findall "${SHELL:echo ${x} y} z} ${q}"
  = [("SHELL:", "echo ${x} y} z} ${q")].
Proof. reflexivity. Qed.

Example findall_shell_line :
  Placeholder.findall ("${SHELL:a" +:+ nl +:+ "} ${SHELL:} ${a}")
  = [("SHELL:", "} ${a")].
Proof. reflexivity. Qed.

Example fullmatch_version :
  map (Regex.fullmatch Regex.VER_FULL_REGEX)
    ["1.2-3.oc00"; "1.2-3"; "1-a.b"; "1..2-a_b.c.d"; ".1-a.b"; "1.2-3.oc00 "; "1-.a"]
  = [true; false; true; true; false; false; false].
Proof. reflexivity. Qed.

Example fullmatch_user :
  map (Regex.fullmatch Regex.BUILD_USER_REGEX)
    ["a@b"; "a.b-c@host.x"; "@b"; "a@"; "a@b@c"; "a b@c"]
  = [true; true; false; false; false; false].
Proof. reflexivity. Qed.

(** ** The configuration resolver *)

Module ConfigFacts.
Import PyStr ConfigStore ConfigRefs.

Lemma same_store_refl a : same_store a a.
Proof. by repeat split. Qed.

Lemma same_store_trans a b c : same_store a b -> same_store b c -> same_store a c.
Proof. intros (?&?&?) (?&?&?). repeat split; congruence. Qed.

Lemma same_store_set_depth d a : same_store a (set_depth d a).
Proof. by repeat split. Qed.





Section GetFacts.
Variable os : OS.

Lemma resolve_frame rec self w section f_section f_option r self' w' :
  frame rec ->
  resolve os rec self w section f_section f_option = Some (r, self', w') ->
  same_store self self' /\
  (forall v, r = Return v -> get_depth self - 1 <= get_depth self').
Proof.
  intros Hrec H. unfold resolve in H.
  repeat case_match; simplify_eq;
    try (split; [apply same_store_refl|intros; lia]).
  all: by eapply Hrec.
Qed.

Lemma get_loop_frame rec section opt matches :
  frame rec ->
  forall ret self w r self' w',
    get_loop os rec section opt matches ret self w = Some (r, self', w') ->
    same_store self self' /\
    (forall v, r = Return v -> get_depth self - 1 <= get_depth self').
Proof.
  intros Hrec. induction matches as [|[fs fo] rest IH]; intros ret self w r self' w' H.
  - simpl in H. simplify_eq. split; [apply same_store_set_depth|simpl; intros; lia].
  - simpl in H. case_match.
    + destruct (resolve os rec _ w section fs fo) as [[[[sub|e] self1] w1]|] eqn:Hres;
        [| |done].
      * apply (resolve_frame _ _ _ _ _ _ _ _ _ Hrec) in Hres as [Hs Hd].
        apply IH in H as [Hs' Hd'].
        split.
        { eapply same_store_trans; [apply (same_store_set_depth (get_depth self + 1))|].
          eapply same_store_trans; eauto. }
        intros v ->. specialize (Hd' v eq_refl). specialize (Hd sub eq_refl).
        simpl in Hd. lia.
      * apply (resolve_frame _ _ _ _ _ _ _ _ _ Hrec) in Hres as [Hs Hd].
        simplify_eq. split; [|done].
        eapply same_store_trans; [apply (same_store_set_depth (get_depth self + 1))|done].
    + simplify_eq. split; [apply same_store_set_depth|done].
Qed.

Lemma get_fuel_frame fuel vars raw : frame (fun self w s o => get_fuel os fuel vars raw self w s (Some o)).
Proof.
  revert raw. induction fuel as [|fuel IH]; intros raw self w s o r self' w' H; [done|].
  simpl in H. repeat case_match; simplify_eq;
    try (split; [apply same_store_refl|intros; lia]);
    by eapply get_loop_frame; [apply (IH false)|].
Qed.

Lemma get_fuel_frame' fuel vars raw self w s opt r self' w' :
  get_fuel os fuel vars raw self w s opt = Some (r, self', w') ->
  same_store self self' /\
  (forall v, r = Return v -> get_depth self - 1 <= get_depth self').
Proof.
  destruct fuel as [|fuel]; [done|]. simpl.
  intros H. repeat case_match; simplify_eq;
    try (split; [apply same_store_refl|intros; lia]);
    by eapply get_loop_frame; [apply (get_fuel_frame fuel vars false)|].
Qed.

(** *** Termination *)

Lemma get_loop_total rec section opt matches d0 :
  frame rec ->
  (forall self w s o,
     d0 < get_depth self < MAX_INTERPOLATION_DEPTH -> is_Some (rec self w s o)) ->
  forall ret self w,
    d0 <= get_depth self ->
    is_Some (get_loop os rec section opt matches ret self w).
Proof.
  intros Hrec Htot. induction matches as [|[fs fo] rest IH]; intros ret self w Hd.
  - by eexists.
  - simpl. case_match; [|by eexists].
    destruct (resolve os rec (set_depth (get_depth self + 1) self) w section fs fo)
      as [[[[sub|e] self1] w1]|] eqn:Hres.
    + apply IH. apply (resolve_frame _ _ _ _ _ _ _ _ _ Hrec) in Hres as [_ Hd1].
      specialize (Hd1 sub eq_refl). simpl in Hd1. lia.
    + by eexists.
    + exfalso. unfold resolve in Hres.
      repeat case_match; simplify_eq.
      all: match goal with
           | H : _ ?c ?w ?s ?o = None |- _ =>
               destruct (Htot c w s o) as [? ?]; [simpl; lia|congruence]
           end.
Qed.

Lemma get_fuel_total fuel vars raw self w s opt :
  (Z.to_nat (MAX_INTERPOLATION_DEPTH - get_depth self) < fuel)%nat ->
  is_Some (get_fuel os fuel vars raw self w s opt).
Proof.
  revert raw self w s opt.
  induction fuel as [|fuel IH]; intros raw self w s opt Hf; [lia|].
  simpl. repeat (case_match; simplify_eq); try by eexists.
  all: apply (get_loop_total
                (fun self w s o => get_fuel os fuel vars false self w s (Some o))
                _ _ _ (get_depth self));
    [apply (get_fuel_frame fuel vars false)| |lia];
    intros ? ? ? ? ?; apply IH; lia.
Qed.

(** More fuel never changes a result. *)
Lemma get_loop_mono (rec1 rec2 : rec_t) section opt matches :
  (forall self w s o r, rec1 self w s o = Some r -> rec2 self w s o = Some r) ->
  forall ret self w r,
    get_loop os rec1 section opt matches ret self w = Some r ->
    get_loop os rec2 section opt matches ret self w = Some r.
Proof.
  intros Hle. induction matches as [|[fs fo] rest IH]; intros ret self w r H; [done|].
  simpl in *. case_match; [|done].
  destruct (resolve os rec1 _ w section fs fo) as [[[o1 self1] w1]|] eqn:Hres; [|done].
  assert (resolve os rec2 (set_depth (get_depth self + 1) self) w section fs fo
          = Some (o1, self1, w1)) as ->.
  { unfold resolve in *. repeat case_match; simplify_eq; try done; by apply Hle. }
  destruct o1; [by apply IH|done].
Qed.

Lemma get_fuel_S fuel vars raw self w s opt r :
  get_fuel os fuel vars raw self w s opt = Some r ->
  get_fuel os (S fuel) vars raw self w s opt = Some r.
Proof.
  revert raw self w s opt r.
  induction fuel as [|fuel IH]; intros raw self w s opt r H; [done|].
  change (get_fuel os (S (S fuel)) vars raw self w s opt) with
    (let fuel := S fuel in
     let names :=
       if otruthy opt then Return (s, default "" opt)
       else match split ":" s with
            | [s; o] => Return (s, o)
            | _ => Raise ValueError
            end in
     match names with
     | Raise e => Some (Raise e, self, w)
     | Return (section, opt) =>
         match parser_get self section opt vars with
         | Raise e => Some (Raise e, self, w)
         | Return ret =>
             if raw then Some (Return ret, self, w)
             else
               get_loop os
                 (fun self w s o => get_fuel os fuel vars false self w s (Some o))
                 section opt (Placeholder.findall ret) ret self w
         end
     end).
  simpl in H. cbv zeta.
  repeat case_match; simplify_eq; try done.
  all: eapply get_loop_mono; [|done]; intros; by apply IH.
Qed.

Lemma get_fuel_mono n m vars raw self w s opt r :
  (n <= m)%nat ->
  get_fuel os n vars raw self w s opt = Some r ->
  get_fuel os m vars raw self w s opt = Some r.
Proof.
  induction 1 as [|m _ IH]; [done|]. intros H. by apply get_fuel_S, IH.
Qed.


Lemma get_returns self w s opt : is_Some (get os self w s opt).
Proof. apply get_fuel_total. unfold get_bound. lia. Qed.

(** *** Self-reference *)



Lemma otruthy_Some o : o <> "" -> otruthy (Some o) = true.
Proof.
  intros H. unfold otruthy, truthy. by destruct (String.eqb_spec o "").
Qed.

Lemma resolve_plain rec self w section f_section f_option :
  is_plain f_section = true ->
  resolve os rec self w section f_section f_option
  = rec self w (target section f_section) f_option.
Proof.
  unfold is_plain, resolve, target. intros H.
  destruct (String.eqb f_section "ENV:"); [done|].
  destruct (String.eqb f_section "SHELL:"); [done|].
  by destruct (String.eqb f_section "RPM:").
Qed.





(** *** Depth overflow *)





(** A value whose first placeholder is the option itself: every level of
    the recursion meets that placeholder first, so the only way out is the
    depth error, which names the option and its section and carries the
    raw value. *)
Lemma get_fuel_direct_self_reference fuel cfg w section o raw f_section rest :
  o <> "" ->
  parser_get cfg section o ∅ = Return raw ->
  Placeholder.findall raw = (f_section, o) :: rest ->
  is_plain f_section = true ->
  target section f_section = section ->
  forall d,
    (Z.to_nat (MAX_INTERPOLATION_DEPTH - d) < fuel)%nat ->
    get_fuel os fuel ∅ false (set_depth d cfg) w section (Some o)
    = Some (Raise (InterpolationDepthError o section raw),
            set_depth (Z.max (d + 1) MAX_INTERPOLATION_DEPTH) cfg, w).
Proof.
  intros Ho Hraw Hm Hp Ht.
  induction fuel as [|fuel IH]; intros d Hf; [lia|].
  cbn [get_fuel]. rewrite (otruthy_Some o Ho). cbn [default from_option id].
  change (parser_get (set_depth d cfg) section o ∅) with (parser_get cfg section o ∅).
  rewrite Hraw, Hm. cbn [get_loop].
  change (get_depth (set_depth (get_depth (set_depth d cfg) + 1) (set_depth d cfg)))
    with (d + 1).
  change (set_depth (get_depth (set_depth d cfg) + 1) (set_depth d cfg))
    with (set_depth (d + 1) cfg).
  destruct (Z.ltb_spec (d + 1) MAX_INTERPOLATION_DEPTH) as [Hlt|Hge].
  - rewrite resolve_plain by done. rewrite Ht, IH by lia. cbn [interpolation_failure].
    do 3 f_equal. f_equal. lia.
  - do 3 f_equal. f_equal. lia.
Qed.

(** X8. A value whose first placeholder is its own option ends in the
    [InterpolationDepthError] that names that option and its section and
    carries the raw value; nothing is run, and the counter is left at
    [MAX_INTERPOLATION_DEPTH] (or one above where it was, if that is
    more). *)
Lemma get_direct_self_reference cfg w section o raw f_section rest :
  o <> "" ->
  parser_get cfg section o ∅ = Return raw ->
  Placeholder.findall raw = (f_section, o) :: rest ->
  is_plain f_section = true ->
  target section f_section = section ->
  get os cfg w section (Some o)
  = Some (Raise (InterpolationDepthError o section raw),
          set_depth (Z.max (get_depth cfg + 1) MAX_INTERPOLATION_DEPTH) cfg, w).
Proof.
  intros Ho Hraw Hm Hp Ht. unfold get.
  replace cfg with (set_depth (get_depth cfg) cfg) at 2 by (by destruct cfg).
  rewrite (get_fuel_direct_self_reference _ cfg w section o raw f_section rest
             Ho Hraw Hm Hp Ht).
  - done.
  - unfold get_bound. simpl. lia.
Qed.

(** *** The counter across a call *)

(** C9 (what the code does instead). The counter is raised once for every
    match but lowered once for every call: a [get] of a value without any
    placeholder returns with the counter one below where it started. *)
Theorem get_without_placeholder_lowers_depth cfg w section o raw :
  o <> "" ->
  parser_get cfg section o ∅ = Return raw ->
  Placeholder.findall raw = [] ->
  get os cfg w section (Some o)
  = Some (Return raw, set_depth (get_depth cfg - 1) cfg, w).
Proof.
  intros Ho Hraw Hnone. unfold get, get_bound. cbn [get_fuel].
  rewrite (otruthy_Some o Ho). cbn [default from_option id].
  by rewrite Hraw, Hnone.
Qed.

(** *** Shell placeholders *)

Lemma get_first_match cfg w section o raw f_section f_option rest :
  o <> "" ->
  parser_get cfg section o ∅ = Return raw ->
  Placeholder.findall raw = (f_section, f_option) :: rest ->
  get_depth cfg + 1 < MAX_INTERPOLATION_DEPTH ->
  get os cfg w section (Some o)
  = let self := set_depth (get_depth cfg + 1) cfg in
    let rec := fun self w s o =>
      get_fuel os (Z.to_nat (MAX_INTERPOLATION_DEPTH - get_depth cfg)) ∅ false self w s (Some o) in
    match resolve os rec self w section f_section f_option with
    | None => None
    | Some (Return sub, self, w) =>
        get_loop os rec section o rest
          (replace ("${" +:+ f_section +:+ f_option +:+ "}") sub raw) self w
    | Some (Raise e, self, w) =>
        Some (Raise (interpolation_failure section o f_section f_option e), self, w)
    end.
Proof.
  intros Ho Hraw Hm Hd. unfold get, get_bound. cbn [get_fuel].
  rewrite (otruthy_Some o Ho). cbn [default from_option id].
  rewrite Hraw, Hm. cbn [get_loop].
  destruct (Z.ltb_spec (get_depth (set_depth (get_depth cfg + 1) cfg))
              MAX_INTERPOLATION_DEPTH) as [|Hge]; [done|].
  simpl in Hge. lia.
Qed.

(** C7 (what the code does instead). When the command of a shell
    placeholder exits with a non-zero status, [get] lets the
    [CalledProcessError] of [subprocess.check_output] escape: it is not
    turned into a [RunError] by [shell_output], hence not into an
    [InterpolationError] by [get], and it is no configuration error. *)
Theorem get_shell_nonzero_exit cfg w section o raw cmd rest status out :
  o <> "" ->
  parser_get cfg section o ∅ = Return raw ->
  Placeholder.findall raw = ("SHELL:", cmd) :: rest ->
  get_depth cfg + 1 < MAX_INTERPOLATION_DEPTH ->
  execute os (trace w) (Shell cmd) = Exited status out ->
  status <> 0 ->
  get os cfg w section (Some o)
  = Some (Raise (CalledProcessError status (Shell cmd) out),
          set_depth (get_depth cfg + 1) cfg,
          {| heap := heap w; trace := Shell cmd :: trace w |}) /\
  is_ConfigError (CalledProcessError status (Shell cmd) out) = false.
Proof.
  intros Ho Hraw Hm Hd Hex Hst. split; [|done].
  rewrite (get_first_match _ _ _ _ _ _ _ _ Ho Hraw Hm Hd). cbv zeta.
  unfold resolve, shell_output, check_output. cbn [String.eqb Ascii.eqb Bool.eqb].
  rewrite Hex. by destruct (Z.eqb_spec status 0).
Qed.

(** X9. A shell placeholder whose command exits with status 0 is replaced
    by the output of the command with the white space at both ends removed;
    the command is run once, and the counter is back where it was. *)
Lemma get_shell_success cfg w section o raw cmd out :
  o <> "" ->
  parser_get cfg section o ∅ = Return raw ->
  Placeholder.findall raw = [("SHELL:", cmd)] ->
  get_depth cfg + 1 < MAX_INTERPOLATION_DEPTH ->
  execute os (trace w) (Shell cmd) = Exited 0 out ->
  get os cfg w section (Some o)
  = Some (Return (replace ("${SHELL:" +:+ cmd +:+ "}") (strip out) raw),
          set_depth (get_depth cfg) cfg,
          {| heap := heap w; trace := Shell cmd :: trace w |}).
Proof.
  intros Ho Hraw Hm Hd Hex.
  rewrite (get_first_match _ _ _ _ _ _ _ _ Ho Hraw Hm Hd). cbv zeta.
  unfold resolve, shell_output, check_output. cbn [String.eqb Ascii.eqb Bool.eqb].
  rewrite Hex. cbn. unfold set_depth. cbn. do 3 f_equal. f_equal. lia.
Qed.

(** X10. A shell placeholder whose shell cannot be started ends in an
    [InterpolationError] for the option asked for: the [OSError] becomes a
    [RunError] in [shell_output] and that an [InterpolationError] in
    [get]. *)
Lemma get_shell_cannot_start cfg w section o raw cmd rest errno strerror :
  o <> "" ->
  parser_get cfg section o ∅ = Return raw ->
  Placeholder.findall raw = ("SHELL:", cmd) :: rest ->
  get_depth cfg + 1 < MAX_INTERPOLATION_DEPTH ->
  execute os (trace w) (Shell cmd) = CannotStart errno strerror ->
  exists msg cfg' w',
    get os cfg w section (Some o) = Some (Raise (InterpolationError section o msg), cfg', w').
Proof.
  intros Ho Hraw Hm Hd Hex.
  rewrite (get_first_match _ _ _ _ _ _ _ _ Ho Hraw Hm Hd). cbv zeta.
  unfold resolve, shell_output, check_output. cbn [String.eqb Ascii.eqb Bool.eqb].
  rewrite Hex. cbn [interpolation_failure]. by eexists _, _, _.
Qed.

(** *** The macro cache *)

Lemma app_brace_inj a b : a +:+ "}" = b +:+ "}" -> a = b.
Proof.
  revert b. induction a as [|c a IH]; intros [|d b] H; simpl in *; try done.
  - destruct b; simplify_eq.
  - destruct a; simplify_eq.
  - simplify_eq. f_equal. by apply IH.
Qed.

Lemma eval_macro_inj a b : eval_macro a = eval_macro b -> a = b.
Proof. unfold eval_macro. intros H. simplify_eq. by apply app_brace_inj. Qed.

Lemma macro_evals_shell name line tr :
  macro_evals name (Shell line :: tr) = macro_evals name tr.
Proof. unfold macro_evals. by rewrite filter_cons_False. Qed.

Lemma macro_evals_same name tr :
  macro_evals name (Argv (eval_macro name) :: tr) = S (macro_evals name tr).
Proof. unfold macro_evals. by rewrite filter_cons_True. Qed.

Lemma macro_evals_other name other tr :
  name <> other ->
  macro_evals name (Argv (eval_macro other) :: tr) = macro_evals name tr.
Proof.
  intros Hne. unfold macro_evals. rewrite filter_cons_False; [done|].
  intros H. apply Hne. symmetry. apply eval_macro_inj. congruence.
Qed.

Lemma cache_covers_once l w : cache_covers l w -> evaluated_once w.
Proof. intros H name. apply H. Qed.

Lemma cache_covers_shell l w line :
  cache_covers l w -> cache_covers l {| heap := heap w; trace := Shell line :: trace w |}.
Proof. intros H name. simpl. rewrite macro_evals_shell. apply H. Qed.

Lemma evaluated_once_eval l w name :
  cache_covers l w -> (heap w !!! l) !! name = None ->
  evaluated_once {| heap := heap w; trace := Argv (eval_macro name) :: trace w |}.
Proof.
  intros H Hnone other. simpl. destruct (decide (other = name)) as [->|Hne].
  - rewrite macro_evals_same. destruct (H name) as [_ Hin].
    destruct (macro_evals name (trace w)); [lia|].
    destruct Hin as [? ?]; [lia|congruence].
  - rewrite macro_evals_other by done. apply H.
Qed.

Lemma cache_covers_eval l w name sub :
  cache_covers l w -> (heap w !!! l) !! name = None ->
  cache_covers l
    (set_macro l name sub {| heap := heap w; trace := Argv (eval_macro name) :: trace w |}).
Proof.
  intros H Hnone other. split.
  - by apply (evaluated_once_eval l w name).
  - intros Hpos. unfold set_macro. simpl in *. rewrite lookup_total_insert_eq.
    destruct (decide (other = name)) as [->|Hne]; [by rewrite lookup_insert_eq|].
    rewrite lookup_insert_ne by done. rewrite macro_evals_other in Hpos by done.
    by apply H.
Qed.

Lemma resolve_cache l rec self w section f_section f_option r self' w' :
  cache_ok l rec ->
  rpm_macros self = l -> cache_covers l w ->
  resolve os rec self w section f_section f_option = Some (r, self', w') ->
  cache_post l r w'.
Proof.
  intros Hrec Hl Hc H. unfold resolve, shell_output, command_output, check_output in H.
  repeat (case_match; simplify_eq); simpl;
    try done;
    try (by apply (cache_covers_once (rpm_macros self')));
    try (by apply cache_covers_shell);
    try (by apply cache_covers_once with (rpm_macros self'), cache_covers_shell);
    try (by apply cache_covers_eval);
    try (by eapply evaluated_once_eval).
  all: by eapply Hrec.
Qed.

Lemma get_loop_cache l rec section opt matches :
  frame rec -> cache_ok l rec ->
  forall ret self w r self' w',
    rpm_macros self = l -> cache_covers l w ->
    get_loop os rec section opt matches ret self w = Some (r, self', w') ->
    cache_post l r w'.
Proof.
  intros Hframe Hrec. induction matches as [|[fs fo] rest IH];
    intros ret self w r self' w' Hl Hc H.
  - simpl in H. by simplify_eq.
  - simpl in H. case_match; [|simplify_eq; by eapply cache_covers_once].
    destruct (resolve os rec _ w section fs fo) as [[[[sub|e] self1] w1]|] eqn:Hres;
      [| |done].
    + pose proof (resolve_cache l _ (set_depth (get_depth self + 1) self)
                    _ _ _ _ _ _ _ Hrec Hl Hc Hres) as Hc1.
      apply (resolve_frame _ _ _ _ _ _ _ _ _ Hframe) in Hres as [(Hm&_) _].
      eapply IH; [|exact Hc1|exact H]. simpl in Hm. congruence.
    + simplify_eq.
      by eapply (resolve_cache _ _ (set_depth (get_depth self + 1) self)
                   _ _ _ _ (Raise e)).
Qed.

Lemma get_fuel_cache l fuel vars raw :
  cache_ok l (fun self w s o => get_fuel os fuel vars raw self w s (Some o)).
Proof.
  revert raw. induction fuel as [|fuel IH]; intros raw self w s o r self' w' Hl Hc H; [done|].
  simpl in H. repeat (case_match; simplify_eq); simpl;
    try done; try (by eapply cache_covers_once).
  all: by eapply get_loop_cache; [apply (get_fuel_frame fuel vars false)|apply (IH false)|..].
Qed.

Lemma get_cache self w section opt r self' w' :
  cache_covers (rpm_macros self) w ->
  get os self w section opt = Some (r, self', w') ->
  rpm_macros self' = rpm_macros self /\ cache_post (rpm_macros self) r w'.
Proof.
  intros Hc H. split.
  { apply get_fuel_frame' in H as [(Hm&_) _]. done. }
  unfold get, get_bound in H. cbn [get_fuel] in H.
  repeat (case_match; simplify_eq); simpl;
    try done; try (by eapply cache_covers_once).
  all: match goal with
       | H : get_loop os ?rec _ _ _ _ _ _ = _ |- _ =>
           eapply (get_loop_cache _ rec);
           [apply (get_fuel_frame _ ∅ false)|apply (get_fuel_cache _ _ ∅ false)
           | | |exact H]; done
       end.
Qed.

End GetFacts.

End ConfigFacts.

(** ** Clients of the store: one macro dictionary, many objects *)

Module CacheFacts.
Import PyStr ConfigStore ConfigRefs ConfigFacts.

Section RunFacts.
Variable os : OS.
Variable copy_sections :
  gmap string string -> gmap string (gmap string string) ->
  outcome (gmap string (gmap string string)).

Lemma deepcopy_shares self copy :
  deepcopy copy_sections self = Return copy ->
  rpm_macros copy = rpm_macros self /\ get_depth copy = 0.
Proof. unfold deepcopy. intros H. by case_match; simplify_eq. Qed.

Lemma step_inv l st o : run_inv l st -> run_inv l (step os copy_sections st o).
Proof.
  intros [Hobj Hw]. unfold step.
  destruct (failure st) eqn:Hf; [by split; [|rewrite Hf]|].
  destruct o as [i section opt|i].
  - destruct (objects st !! i) as [self|] eqn:Hi; [|by split; [|rewrite Hf]].
    assert (rpm_macros self = l) as Hl.
    { by eapply (Forall_lookup_1 _ _ _ _ Hobj). }
    destruct (get os self (world st) section opt) as [[[r self'] w']|] eqn:Hget;
      [|by split; [|rewrite Hf]].
    rewrite <- Hl in Hw. destruct (get_cache os _ _ _ _ _ _ _ Hw Hget) as [Hm Hpost].
    rewrite Hl in Hm, Hpost.
    destruct r; (split; [by apply Forall_insert|exact Hpost]).
  - destruct (objects st !! i) as [self|] eqn:Hi; [|by split; [|rewrite Hf]].
    assert (rpm_macros self = l) as Hl.
    { by eapply (Forall_lookup_1 _ _ _ _ Hobj). }
    destruct (deepcopy copy_sections self) as [copy|e] eqn:Hcopy.
    + apply deepcopy_shares in Hcopy as [Hm _]. split; [|done]. simpl.
      apply Forall_app. split; [done|]. constructor; [congruence|constructor].
    + split; [done|]. simpl. by eapply cache_covers_once.
Qed.

Lemma run_inv_run l ops st : run_inv l st -> run_inv l (run os copy_sections ops st).
Proof.
  unfold run. revert st. induction ops as [|o ops IH]; intros st H; [done|].
  simpl. by apply IH, step_inv.
Qed.

(** The calls of [get] and [copy.deepcopy] taken by themselves.  Start
    from one [Config] object whose macro dictionary covers the commands run
    so far, and let the program call [get] and [copy.deepcopy] on it and on
    its copies in any order until the first exception.  Then [get] has run
    the builder for each macro at most once; every copy refers to the one
    dictionary; and unless a call failed, each macro evaluated is held by
    that dictionary whatever its value, the empty string included.  The
    start-up of the script is not such a sequence of calls, see
    [StartupRunFacts.startup_evaluates_macro_twice]. *)
Theorem macro_evaluated_at_most_once ops g_config w :
  cache_covers (rpm_macros g_config) w ->
  let st := run os copy_sections ops
              {| objects := [g_config]; world := w; failure := None |} in
  (forall name, (macro_evals name (trace (world st)) <= 1)%nat) /\
  Forall (fun c => rpm_macros c = rpm_macros g_config) (objects st) /\
  (failure st = None ->
   forall name, (0 < macro_evals name (trace (world st)))%nat ->
     is_Some ((heap (world st) !!! rpm_macros g_config) !! name)).
Proof.
  intros Hc st.
  assert (run_inv (rpm_macros g_config) st) as [Hobj Hw].
  { apply run_inv_run. split; [|done]. simpl. by constructor. }
  split; [|split; [done|]].
  - destruct (failure st); [done|]. by eapply cache_covers_once.
  - intros Hf name. rewrite Hf in Hw. apply Hw.
Qed.

End RunFacts.

End CacheFacts.

(** ** The pipeline runner *)

Module PipelineFacts.
Import PyStr Pipeline.

Section RunnerFacts.
Variable re_findall : string -> string -> list string.
Variable os : PipeOS.
Variable g : Globals.

Lemma spawn_all_started i commands cmd :
  (forall j c, popen os j c = None) ->
  exists cmd', spawn_all os i commands cmd = (cmd', None).
Proof.
  intros Hok. revert i cmd. induction commands as [|c rest IH]; intros i cmd; simpl.
  - by eexists.
  - rewrite Hok. apply IH.
Qed.

Lemma run_pipe_started commands regex file :
  commands <> [] ->
  (forall j c, popen os j c = None) ->
  exists cmd lines written,
    run_pipe re_findall os g commands regex file
    = (if negb (wait os 0 =? 0)
       then Raise (RunError (join " " cmd) ("exit code " +:+ pretty (wait os 0)) None None)
       else Return lines,
       written).
Proof.
  intros Hne Hok. unfold run_pipe. destruct commands as [|cmd0 rest]; [done|].
  destruct (spawn_all_started 0 (cmd0 :: rest) cmd0 Hok) as [cmd ->].
  cbv zeta. eexists cmd, _, _. by destruct (negb (wait os 0 =? 0)).
Qed.

(** C1 (as the code has it). A pipeline of two or more commands that could
    all be started fails with [RunError] exactly when the first command
    exits with a non-zero status; the status collected from the last
    command is overwritten before it is looked at, and the statuses of the
    stages in between are never collected. *)
Theorem run_pipe_fails_iff_first_status commands regex file :
  (2 <= length commands)%nat ->
  (forall j c, popen os j c = None) ->
  raises_RunError (run_pipe re_findall os g commands regex file).1 <-> wait os 0 <> 0.
Proof.
  intros Hlen Hok.
  destruct (run_pipe_started commands regex file) as (cmd&lines&written&->);
    [destruct commands; [simpl in Hlen; lia|done]|done|].
  simpl. destruct (Z.eqb_spec (wait os 0) 0) as [Hz|Hnz]; simpl.
  - split; [|done]. by intros (?&?&?&?&?).
  - split; [done|]. intros _. by eexists _, _, _, _.
Qed.

(** X22. The log of [run_pipe_log] is framed whatever the pipeline does: the
    first line written to the log file is the start line and the last one
    an end line. *)
Lemma run_pipe_log_framed log_file commands regex :
  open_w os log_file = None ->
  exists msg middle,
    (run_pipe_log re_findall os g log_file commands regex).2
    = (LogFile log_file, start_line os commands) :: middle
      ++ [(LogFile log_file, end_line os msg)].
Proof.
  intros Hopen. unfold run_pipe_log. rewrite Hopen.
  destruct (run_pipe re_findall os g commands regex (Some (LogFile log_file)))
    as [r written].
  destruct r as [lines|e]; [by eexists _, _|].
  destruct e; by eexists _, _.
Qed.

(** C6 (what the code does instead). When the pipeline fails, the end line
    is still written after the start line, but the [Error] that should
    carry the log file is never built: [Error.__init__] has no [log_file]
    parameter, so the call raises [TypeError]. *)
Theorem run_pipe_log_failure_raises_TypeError log_file commands regex :
  open_w os log_file = None ->
  raises_RunError (run_pipe re_findall os g commands regex (Some (LogFile log_file))).1 ->
  exists msg middle,
    run_pipe_log re_findall os g log_file commands regex
    = (Raise (TypeError "__init__() got an unexpected keyword argument 'log_file'"),
       (LogFile log_file, start_line os commands) :: middle
       ++ [(LogFile log_file, end_line os msg)]).
Proof.
  intros Hopen Hfail. unfold run_pipe_log. rewrite Hopen.
  destruct (run_pipe re_findall os g commands regex (Some (LogFile log_file)))
    as [r written].
  destruct Hfail as (cmd&msg&hint&lf&Hr). simpl in Hr. subst r.
  by eexists msg, written.
Qed.

(** A pipeline that succeeds hands its lines through. *)
Lemma run_pipe_log_success log_file commands regex lines written :
  open_w os log_file = None ->
  run_pipe re_findall os g commands regex (Some (LogFile log_file)) = (Return lines, written) ->
  run_pipe_log re_findall os g log_file commands regex
  = (Return lines,
     (LogFile log_file, start_line os commands) :: written
     ++ [(LogFile log_file, end_line os "exit code 0")]).
Proof. intros Hopen Hr. unfold run_pipe_log. by rewrite Hopen, Hr. Qed.

End RunnerFacts.

(** [Error] as its other callers use it. *)
Example call_Error_prefix_msg :
  call_Error ["config"; "No repositories in group `g`"] []
  = Error (Some "config") "No repositories in group `g`" None.
Proof. reflexivity. Qed.

Example call_Error_hint :
  call_Error ["No build summary"] [("hint", "Use `build` first.")]
  = Error None "No build summary" (Some "Use `build` first.").
Proof. reflexivity. Qed.

End PipelineFacts.

(** ** The build summary *)

Module SummaryFacts.
Import PyStr FS Summary.

Section ReadFacts.
Variable P : PyNum.

Lemma read_records_app s summary repo gc ln good rest d d0 :
  read_records P s summary repo gc ln good d = Return d0 ->
  read_records P s summary repo gc ln (good ++ rest) d
  = read_records P s summary repo gc (ln + length good) rest d0.
Proof.
  revert ln d. induction good as [|line good IH]; intros ln d H; simpl in *.
  - simplify_eq. by rewrite Nat.add_0_r.
  - destruct (read_record P s summary repo gc (S ln) line d) as [d1|e]; [|done].
    rewrite (IH _ _ H). f_equal. lia.
Qed.

Lemma read_record_mismatch s summary repo gc ln line d path m n e :
  record_of P repo gc line path m n ->
  s !! path = Some e ->
  float_ne P (mtime P e) m = true \/ size P e <> n ->
  exists what,
    (what = "mtime" \/ what = "size") /\
    read_record P s summary repo gc ln line d
    = Raise (Error (Some (summary +:+ ":" +:+ pretty ln))
               (nl +:+ "Recorded " +:+ what +:+ " differs from actual for `%s`") None).
Proof.
  intros (arch&name&ms&ss&Hsplit&Hm&Hn&Hpath) He Hbad.
  unfold read_record, getmtime, getsize, stat.
  rewrite Hsplit, Hm, Hn, Hpath. simpl. rewrite He. simpl.
  destruct (float_ne P (mtime P e) m) eqn:Hne.
  - exists "mtime". by split; [left|].
  - destruct Hbad as [?|Hsize]; [done|].
    exists "size". split; [by right|].
    by destruct (Z.eqb_spec (size P e) n).
Qed.

Lemma read_record_missing s summary repo gc ln line d path m n :
  record_of P repo gc line path m n ->
  s !! path = None ->
  read_record P s summary repo gc ln line d
  = Raise (OSError ENOENT no_such_file (Some path)).
Proof.
  intros (arch&name&ms&ss&Hsplit&Hm&Hn&Hpath) He.
  unfold read_record, getmtime, stat.
  rewrite Hsplit, Hm, Hn, Hpath. simpl. by rewrite He.
Qed.

Lemma read_record_Return s summary repo gc ln line d d' :
  read_record P s summary repo gc ln line d = Return d' ->
  record_verified P s repo gc line.
Proof.
  unfold read_record, getmtime, getsize, stat, record_verified, record_of.
  intros H.
  destruct (split "|" (strip line)) as [|arch [|name [|ms [|ss [|? ?]]]]] eqn:Hsplit;
    try done.
  destruct (float_of_string P ms) as [m|] eqn:Hm; [|done].
  destruct (int_of_string P ss) as [n|] eqn:Hn; [|done].
  destruct (resolve_path name arch repo gc) as [path|?] eqn:Hpath; [|done].
  simpl in H. destruct (s !! path) as [e|] eqn:He; [|done]. simpl in H.
  destruct (float_ne P (mtime P e) m) eqn:Hne; [done|].
  destruct (Z.eqb_spec (size P e) n) as [Hsz|]; [|done].
  exists path, m, n, e. split; [|done]. by exists arch, name, ms, ss.
Qed.

Lemma read_records_Return s summary repo gc ln lines d d' :
  read_records P s summary repo gc ln lines d = Return d' ->
  Forall (record_verified P s repo gc) lines.
Proof.
  revert ln d. induction lines as [|line lines IH]; intros ln d H; [constructor|].
  simpl in H.
  destruct (read_record P s summary repo gc (S ln) line d) as [d1|e] eqn:Hrec; [|done].
  constructor; [by eapply read_record_Return|by eapply IH].
Qed.

(** X23. A summary that is read successfully has every artifact on disk with
    the recorded time and size: no mismatch and no missing file gets
    through. *)
Lemma read_build_summary_verified s spec_base repo gc v :
  read_build_summary P s spec_base repo gc = Return v ->
  exists rc lines,
    lookup_repo gc repo = Return rc /\
    open_r P s (path_join (path_join (rc_log rc) spec_base) "summary") = Return lines /\
    Forall (record_verified P s repo gc) (drop 2 lines).
Proof.
  unfold read_build_summary. intros H.
  destruct (lookup_repo gc repo) as [rc|] eqn:Hrc; [|done]. simpl in H.
  destruct (open_r P s _) as [lines|e] eqn:Hopen.
  2:{ destruct e; try done. by case_match. }
  exists rc, lines. split; [done|]. split; [done|].
  repeat (case_match; simplify_eq; try done).
  match goal with
  | H : context [read_records P s ?f repo gc 2 (drop 2 lines) ∅] |- _ =>
      destruct (read_records P s f repo gc 2 (drop 2 lines) ∅) eqn:Hrecs; [|done]
  end.
  by eapply read_records_Return.
Qed.

Lemma read_build_summary_records s spec_base repo gc rc lines :
  lookup_repo gc repo = Return rc ->
  open_r P s (path_join (path_join (rc_log rc) spec_base) "summary") = Return lines ->
  header_ok P lines ->
  forall e,
    read_records P s (path_join (path_join (rc_log rc) spec_base) "summary")
      repo gc 2 (drop 2 lines) ∅ = Raise e ->
    read_build_summary P s spec_base repo gc = Raise e.
Proof.
  intros Hrc Hopen (Hver&u&t&bt&Hsplit&Huser&Hbt) e Hrecs.
  unfold read_build_summary. rewrite Hrc. simpl. rewrite Hopen, Hver. simpl.
  rewrite Hsplit, Huser. simpl. by rewrite Hbt, Hrecs.
Qed.

(** C5 (what the code does instead). A summary whose header is valid and
    whose first bad artifact line records a time or a size other than that
    of the file on disk is rejected with an [Error] whose prefix is the
    path of the summary and the number of that line; its message ends in
    the unformatted [`%s`], the path of the artifact file is not in it. *)
Theorem read_build_summary_mismatch s spec_base repo gc rc lines good line rest d0 path m n e :
  lookup_repo gc repo = Return rc ->
  open_r P s (path_join (path_join (rc_log rc) spec_base) "summary") = Return lines ->
  header_ok P lines ->
  drop 2 lines = (good ++ line :: rest)%list ->
  read_records P s (path_join (path_join (rc_log rc) spec_base) "summary")
    repo gc 2 good ∅ = Return d0 ->
  record_of P repo gc line path m n ->
  s !! path = Some e ->
  float_ne P (mtime P e) m = true \/ size P e <> n ->
  exists what,
    (what = "mtime" \/ what = "size") /\
    read_build_summary P s spec_base repo gc
    = Raise (Error (Some (path_join (path_join (rc_log rc) spec_base) "summary"
                          +:+ ":" +:+ pretty (S (2 + length good))))
               (nl +:+ "Recorded " +:+ what +:+ " differs from actual for `%s`") None).
Proof.
  intros Hrc Hopen Hhead Hdrop Hgood Hrec He Hbad.
  set (summary := path_join (path_join (rc_log rc) spec_base) "summary") in *.
  destruct (read_record_mismatch s summary repo gc (S (2 + length good)) line d0
              path m n e Hrec He Hbad) as (what&Hwhat&Hline).
  exists what. split; [done|].
  apply (read_build_summary_records s spec_base repo gc rc lines Hrc Hopen Hhead).
  fold summary. rewrite Hdrop, (read_records_app _ _ _ _ _ _ _ _ _ Hgood).
  cbn [read_records]. by rewrite Hline.
Qed.

(** X24. A missing artifact file is reported with its path and the line
    number. *)
Lemma read_build_summary_missing s spec_base repo gc rc lines good line rest d0 path m n :
  lookup_repo gc repo = Return rc ->
  open_r P s (path_join (path_join (rc_log rc) spec_base) "summary") = Return lines ->
  header_ok P lines ->
  drop 2 lines = (good ++ line :: rest)%list ->
  read_records P s (path_join (path_join (rc_log rc) spec_base) "summary")
    repo gc 2 good ∅ = Return d0 ->
  record_of P repo gc line path m n ->
  s !! path = None ->
  read_build_summary P s spec_base repo gc
  = Raise (Error None
             (path_join (path_join (rc_log rc) spec_base) "summary" +:+ ":"
              +:+ pretty (S (2 + length good)) +:+ ":" +:+ nl
              +:+ str_OSError ENOENT no_such_file (Some path)) None).
Proof.
  intros Hrc Hopen Hhead Hdrop Hgood Hrec He.
  set (summary := path_join (path_join (rc_log rc) spec_base) "summary") in *.
  apply (read_build_summary_records s spec_base repo gc rc lines Hrc Hopen Hhead).
  fold summary. rewrite Hdrop, (read_records_app _ _ _ _ _ _ _ _ _ Hgood).
  cbn [read_records].
  by rewrite (read_record_missing s summary repo gc _ line d0 path m n Hrec He).
Qed.

End ReadFacts.

End SummaryFacts.

(** ** Upload *)

Module PromotionFacts.
Import PyStr FS Summary Pipeline Promotion.



Section MoveFacts.
Variable P : PyNum.

Lemma member_head r rest : member (Some r) (r :: rest) = true.
Proof. simpl. by rewrite String.eqb_refl. Qed.

(** An upload that names the group only takes the packages from the local
    build area ([from_repo] stays [None]) and puts them into the first
    repository of the group, whatever summaries the repositories of the
    group hold. *)
Lemma move_cmd_resolve_upload_default (s : gmap string (entry P)) GROUP spec_base
    read_group_config gc first rest :
  split_max ":" 2 GROUP = [GROUP] ->
  read_group_config GROUP = Return gc ->
  gc_repos gc = first :: rest ->
  move_cmd_resolve P s "upload" GROUP spec_base read_group_config
  = Return (gc, None, Some first).
Proof.
  intros Hsplit Hgc Hrepos. unfold move_cmd_resolve.
  rewrite Hsplit. cbn -[member]. rewrite Hgc. cbn -[member].
  rewrite Hrepos. cbn -[member]. by rewrite member_head.
Qed.


(** An explicit destination is taken as given when it is a repository of
    the group. *)
Lemma move_cmd_resolve_upload_explicit (s : gmap string (entry P)) GROUP group to_repo
    spec_base read_group_config gc :
  split_max ":" 2 GROUP = [group; to_repo] ->
  to_repo <> "" ->
  read_group_config group = Return gc ->
  move_cmd_resolve P s "upload" GROUP spec_base read_group_config
  = if member (Some to_repo) (gc_repos gc) then Return (gc, None, Some to_repo)
    else Raise (no_repository (Some to_repo) group).
Proof.
  intros Hsplit Hto Hgc. unfold move_cmd_resolve.
  rewrite Hsplit. cbn -[member no_repository]. rewrite Hgc. cbn -[member no_repository].
  unfold truthy. destruct (String.eqb_spec to_repo ""); [done|].
  cbn -[member no_repository]. by destruct (member (Some to_repo) (gc_repos gc)).
Qed.

(** Anything but an upload stops at the first statement. *)
Lemma move_cmd_resolve_not_implemented (s : gmap string (entry P)) COMMAND GROUP spec_base
    read_group_config :
  COMMAND <> "upload" ->
  move_cmd_resolve P s COMMAND GROUP spec_base read_group_config
  = Raise (Error None "Not implemented!" None).
Proof.
  intros Hc. unfold move_cmd_resolve. by destruct (String.eqb_spec COMMAND "upload").
Qed.

(** A destination that is no directory stops the copy with an [Error];
    nothing is created in its place. *)
Lemma copy_all_not_a_directory (s : gmap string (entry P)) src dst rest copied :
  isdir P s dst = false ->
  copy_all P s ((src, dst) :: rest) copied
  = (Raise (Error (Some dst) "Not a directory" None), s, copied).
Proof. intros H. simpl. by rewrite H. Qed.

(** Every call of [shutil.copy2] was made with a destination that was a
    directory at that moment; the list of calls only grows. *)
Lemma copy_all_copied (s : gmap string (entry P)) rpms_to_copy copied r s' copied' :
  copy_all P s rpms_to_copy copied = (r, s', copied') ->
  exists new, copied' = (copied ++ new)%list /\
    (r = Return () -> new = rpms_to_copy).
Proof.
  revert s copied. induction rpms_to_copy as [|[src dst] rest IH]; intros s copied H.
  - simpl in H. simplify_eq. exists []. by rewrite app_nil_r.
  - simpl in H. destruct (isdir P s dst).
    2:{ simpl in H. simplify_eq. exists []. by rewrite app_nil_r. }
    simpl in H. destruct (copy2 P s src dst) as [[[]|e] s1].
    + apply IH in H as (new&->&Hnew). exists ((src, dst) :: new).
      rewrite <- app_assoc. split; [done|]. intros Hr. by rewrite (Hnew Hr).
    + simplify_eq. exists []. by rewrite app_nil_r.
Qed.

Lemma move_cmd_copy_cons (s : gmap string (entry P)) rc rpms arch rest rpms_to_copy copied :
  move_cmd_copy P s rc rpms (arch :: rest) rpms_to_copy copied
  = match pairs_of rc rpms arch with
    | Raise e => (Raise e, s, copied)
    | Return pairs =>
        let rpms_to_copy := (rpms_to_copy ++ pairs)%list in
        match copy_all P s rpms_to_copy copied with
        | (Return _, s, copied) => move_cmd_copy P s rc rpms rest rpms_to_copy copied
        | (Raise e, s, copied) => (Raise e, s, copied)
        end
    end.
Proof. reflexivity. Qed.

Lemma move_cmd_copy_grows (s : gmap string (entry P)) rc rpms keys rpms_to_copy copied
    r s' copied' :
  move_cmd_copy P s rc rpms keys rpms_to_copy copied = (r, s', copied') ->
  exists more, copied' = (copied ++ more)%list.
Proof.
  revert s rpms_to_copy copied.
  induction keys as [|arch rest IH]; intros s rpms_to_copy copied H; simpl in H.
  - simplify_eq. exists []. by rewrite app_nil_r.
  - destruct (pairs_of rc rpms arch) as [pairs|e].
    2:{ simplify_eq. exists []. by rewrite app_nil_r. }
    destruct (copy_all P s (rpms_to_copy ++ pairs) copied) as [[[[]|e] s1] copied1] eqn:Hc.
    + apply copy_all_copied in Hc as (new&->&_).
      apply IH in H as (more&->). exists (new ++ more)%list. by rewrite app_assoc.
    + apply copy_all_copied in Hc as (new&->&_). simplify_eq. by exists new.
Qed.

Lemma move_cmd_copy_next (s : gmap string (entry P)) rc rpms arch rest rpms_to_copy copied
    pairs all s' copied' :
  move_cmd_copy P s rc rpms (arch :: rest) rpms_to_copy copied = (Return all, s', copied') ->
  pairs_of rc rpms arch = Return pairs ->
  exists more, copied' = (copied ++ (rpms_to_copy ++ pairs) ++ more)%list.
Proof.
  intros H Hp. simpl in H. rewrite Hp in H.
  destruct (copy_all P s (rpms_to_copy ++ pairs) copied) as [[[[]|e] s1] copied1] eqn:Hc;
    [|done].
  apply copy_all_copied in Hc as (new&->&Hnew). specialize (Hnew eq_refl). subst new.
  apply move_cmd_copy_grows in H as (more&->). exists more. symmetry. apply app_assoc.
Qed.

Lemma move_cmd_copy_first_key_again (s : gmap string (entry P)) rc rpms k1 k2 keys
    first all s' copied :
  move_cmd_copy P s rc rpms (k1 :: k2 :: keys) [] [] = (Return all, s', copied) ->
  pairs_of rc rpms k1 = Return first ->
  exists more, copied = (first ++ first ++ more)%list.
Proof.
  intros H Hfirst. rewrite move_cmd_copy_cons, Hfirst in H. cbv zeta in H.
  destruct (copy_all P s ([] ++ first) []) as [[[[]|e] s1] copied1] eqn:Hc; [|done].
  apply copy_all_copied in Hc as (new&->&Hnew). specialize (Hnew eq_refl). subst new.
  destruct (pairs_of rc rpms k2) as [second|e] eqn:Hsecond.
  - destruct (move_cmd_copy_next _ _ _ _ _ _ _ _ _ _ _ H Hsecond) as (more&->).
    exists (second ++ more)%list. simpl. by rewrite <- !app_assoc.
  - rewrite move_cmd_copy_cons, Hsecond in H. done.
Qed.

(** C8 (what the code does instead). As soon as the summary has two keys,
    an upload whose copy loop runs to its end has copied the files of the
    key that came first twice, before anything else. *)
Theorem move_cmd_copy_first_key_twice (s : gmap string (entry P)) rc rpms k1 k2 keys
    first all :
  (move_cmd_copy P s rc rpms (k1 :: k2 :: keys) [] []).1.1 = Return all ->
  pairs_of rc rpms k1 = Return first ->
  exists more,
    (move_cmd_copy P s rc rpms (k1 :: k2 :: keys) [] []).2 = (first ++ first ++ more)%list.
Proof.
  destruct (move_cmd_copy P s rc rpms (k1 :: k2 :: keys) [] []) as [[r s'] copied] eqn:H.
  cbn [fst snd]. intros -> Hfirst. by eapply move_cmd_copy_first_key_again.
Qed.

End MoveFacts.

End PromotionFacts.

(** ** Build: the summary is staged and committed by a rename *)

Module BuildFacts.
Import PyStr FS Summary Build.

Section StagingFacts.
Variable P : PyNum.
Variable now : pyfloat P.

Lemma staging_write tmp s0 s lines line :
  staging tmp s0 s lines ->
  staging tmp s0 (write P now s tmp line) (lines ++ [line]).
Proof.
  intros [Hoff (e&He&Hk)]. unfold write. rewrite He.
  destruct e as [k m sz]. simpl in Hk. subst k. split.
  - intros path Hp. rewrite lookup_insert_ne by done. by apply Hoff.
  - eexists. rewrite lookup_insert_eq. split; [done|]. done.
Qed.

Lemma within_bind {A B} (m : task P A) (k : A -> task P B) s n Qc Qr :
  within m s n Qc (fun a s' n' => within (k a) s' n' Qc Qr) ->
  within (bind P m k) s n Qc Qr.
Proof. unfold within, bind. by destruct (m s n) as [[a|e] s' n'|s']. Qed.

Lemma within_mono {A} (m : task P A) s n Qc (Q1 Q2 : A -> gmap string (entry P) -> nat -> Prop) :
  within m s n Qc Q1 ->
  (forall a s' n', Q1 a s' n' -> Q2 a s' n') ->
  within m s n Qc Q2.
Proof. unfold within. destruct (m s n) as [[a|e] s' n'|s']; auto. Qed.

Lemma within_step {A} (f : gmap string (entry P) -> outcome A * gmap string (entry P))
    s n (Qc : gmap string (entry P) -> Prop) Qr :
  Qc s ->
  (forall n', match f s with
              | (Return a, s') => Qr a s' n'
              | (Raise _, s') => Qc s'
              end) ->
  within (step P f) s n Qc Qr.
Proof.
  intros Hc Hf. unfold within, step. destruct n as [|n']; [done|].
  specialize (Hf n'). by destruct (f s) as [[a|e] s'].
Qed.

Lemma stages_ret tmp s0 : stages tmp s0 [] (ret P ()).
Proof.
  intros s n lines Hs. unfold within, ret. exists []. rewrite app_nil_r.
  split; [done|constructor].
Qed.

Lemma stages_seq tmp s0 arts1 arts2 m1 m2 :
  stages tmp s0 arts1 m1 -> stages tmp s0 arts2 m2 ->
  stages tmp s0 (arts1 ++ arts2) (bind P m1 (fun _ => m2)).
Proof.
  intros H1 H2 s n lines Hs. apply within_bind.
  eapply within_mono; [apply (H1 s n lines Hs)|].
  intros ? s1 n1 (recs1&Hs1&Hr1). simpl.
  eapply within_mono; [apply (H2 s1 n1 _ Hs1)|].
  intros ? s2 n2 (recs2&Hs2&Hr2). exists (recs1 ++ recs2)%list.
  rewrite app_assoc. split; [done|]. by apply Forall2_app.
Qed.

Lemma stages_f_write tmp s0 s n lines line :
  staging tmp s0 s lines ->
  within (f_write P now tmp line) s n (unchanged_off tmp s0)
    (fun _ s' _ => staging tmp s0 s' (lines ++ [line])).
Proof.
  intros Hs. apply within_step; [apply Hs|]. intros _. by apply staging_write.
Qed.

Lemma stages_write_record tmp s0 class path :
  stages tmp s0 [(class, path)] (write_record P now tmp class path).
Proof.
  intros s n lines Hs. unfold write_record, file_data.
  apply within_bind, within_bind, within_step; [apply Hs|].
  intros n1. unfold getmtime, getsize, stat.
  destruct (s !! path) as [e|] eqn:He; simpl; [|apply Hs].
  apply within_bind, within_step; [apply Hs|].
  intros n2. rewrite He. simpl. unfold within at 1, ret.
  eapply within_mono; [by apply stages_f_write|].
  intros ? s' n' Hs'. eexists [_]. split; [exact Hs'|].
  constructor; [|constructor]. exists e. split; [|done].
  simpl. intros Hp. rewrite <- He. symmetry. by apply Hs.
Qed.

Lemma stages_write_rpms tmp s0 a rpms :
  stages tmp s0 (map (fun r => (a, r)) rpms) (write_rpms P now tmp a rpms).
Proof.
  induction rpms as [|r rest IH]; [apply stages_ret|].
  simpl. apply (stages_seq tmp s0 [(a, r)]); [apply stages_write_record|exact IH].
Qed.

Lemma stages_write_archs tmp s0 arch_rpms :
  stages tmp s0 (concat (map (fun ar => map (fun r => (ar.1, r)) ar.2) arch_rpms))
    (write_archs P now tmp arch_rpms).
Proof.
  induction arch_rpms as [|[a rpms] rest IH]; [apply stages_ret|].
  simpl. apply stages_seq; [apply stages_write_rpms|exact IH].
Qed.

Lemma length_append_str a b :
  String.length (a +:+ b) = (String.length a + String.length b)%nat.
Proof. induction a as [|c a IH]; simpl; [done|]. by rewrite IH. Qed.

Lemma tmp_ne summary : summary <> summary +:+ ".tmp".
Proof.
  intros H. apply (f_equal String.length) in H.
  rewrite length_append_str in H. simpl in H. lia.
Qed.

(** C4 (as the code has it, for the statements that write the summary).
    The lines go to [summary.tmp]: the version, the builder and the time,
    then one line per artifact made from its [os.stat].  If writing is cut
    short at any point, or an artifact is missing, or the rename fails,
    nothing but [summary.tmp] differs from the file system the writing
    started with, so the path [summary] holds what it held.  Only the
    rename, after the last line, puts the staged file at [summary] and
    leaves no [summary.tmp]. *)
Theorem build_cmd_summary_commit (s : gmap string (entry P)) (budget : nat)
    summary g_username g_hostname time_time p :
  match build_cmd_summary P now summary g_username g_hostname time_time p s budget with
  | Crashed s' | Finished (Raise _) s' _ =>
      s' !! summary = s !! summary /\ unchanged_off (summary +:+ ".tmp") s s'
  | Finished (Return _) s' _ =>
      s' !! (summary +:+ ".tmp") = None /\
      (forall path, path <> summary +:+ ".tmp" -> path <> summary -> s' !! path = s !! path) /\
      exists e recs,
        s' !! summary = Some e /\
        kind P e = File ([ver_full p +:+ nl;
                          g_username +:+ "@" +:+ g_hostname +:+ "|"
                          +:+ str_of_float P time_time +:+ nl] ++ recs) /\
        recorded (summary +:+ ".tmp") s (artifacts p) recs
  end.
Proof.
  set (tmp := summary +:+ ".tmp").
  set (Qc := fun s' : gmap string (entry P) =>
               s' !! summary = s !! summary /\ unchanged_off tmp s s').
  set (Qr := fun (_ : unit) (s' : gmap string (entry P)) (_ : nat) =>
               s' !! tmp = None /\
               (forall path, path <> tmp -> path <> summary -> s' !! path = s !! path) /\
               exists e recs,
                 s' !! summary = Some e /\
                 kind P e = File ([ver_full p +:+ nl;
                                   g_username +:+ "@" +:+ g_hostname +:+ "|"
                                   +:+ str_of_float P time_time +:+ nl] ++ recs) /\
                 recorded tmp s (artifacts p) recs).
  enough (within (build_cmd_summary P now summary g_username g_hostname time_time p)
            s budget Qc Qr) as H.
  { unfold within in H.
    by destruct (build_cmd_summary P now summary g_username g_hostname time_time p s budget)
      as [[[]|e] s' n'|s']. }
  assert (forall s', unchanged_off tmp s s' -> Qc s') as Hfail.
  { intros s' H. split; [apply H, tmp_ne|done]. }
  assert (forall (m : task P unit) s1 n (Q1 : unit -> gmap string (entry P) -> nat -> Prop),
            within m s1 n (unchanged_off tmp s) Q1 -> within m s1 n Qc Q1) as Hweak.
  { intros m s1 n Q1. unfold within. destruct (m s1 n) as [[a|e] s' n'|s']; auto. }
  unfold build_cmd_summary. fold tmp.
  apply within_bind, within_step; [by apply Hfail|].
  intros n1. unfold open_w. destruct (isdir P s tmp); [by apply Hfail|].
  set (s1 := <[tmp := _]> s).
  assert (staging tmp s s1 []) as Hs1.
  { split; [intros path Hp; unfold s1; by rewrite lookup_insert_ne|].
    eexists. unfold s1. rewrite lookup_insert_eq. by split. }
  apply within_bind.
  eapply within_mono; [apply Hweak, (stages_f_write tmp s s1 n1 [] _ Hs1)|].
  intros ? s2 n2 Hs2. simpl in Hs2.
  apply within_bind.
  eapply within_mono; [apply Hweak, (stages_f_write tmp s s2 n2 _ _ Hs2)|].
  intros ? s3 n3 Hs3. simpl in Hs3.
  apply within_bind.
  eapply within_mono;
    [apply Hweak, (stages_write_record tmp s "srpm" (srpm p) s3 n3 _ Hs3)|].
  intros ? s4 n4 (recs1&Hs4&Hr1).
  apply within_bind.
  eapply within_mono;
    [apply Hweak, (stages_write_record tmp s "zip" (zip_file p) s4 n4 _ Hs4)|].
  intros ? s5 n5 (recs2&Hs5&Hr2).
  apply within_bind.
  eapply within_mono;
    [apply Hweak, (stages_write_archs tmp s (arch_rpms p) s5 n5 _ Hs5)|].
  intros ? s6 n6 (recs3&Hs6&Hr3).
  destruct Hs6 as [Hoff (e&He&Hk)].
  apply within_step; [by apply Hfail|].
  intros n7. unfold rename. rewrite He.
  destruct (isdir P s6 summary); [by apply Hfail|].
  split; [|split].
  - rewrite lookup_insert_ne by apply tmp_ne. apply lookup_delete_eq.
  - intros path Hp1 Hp2. rewrite lookup_insert_ne by done.
    rewrite lookup_delete_ne by done. by apply Hoff.
  - exists e, (recs1 ++ recs2 ++ recs3)%list. rewrite lookup_insert_eq.
    split; [done|]. split.
    + rewrite Hk. by rewrite <- !app_assoc.
    + unfold artifacts.
      change (recorded tmp s ([("srpm", srpm p)] ++ [("zip", zip_file p)] ++
                concat (map (fun ar => map (fun r => (ar.1, r)) ar.2) (arch_rpms p)))
                (recs1 ++ recs2 ++ recs3)).
      apply Forall2_app; [done|]. by apply Forall2_app.
Qed.

End StagingFacts.

End BuildFacts.

(** ** The configuration resolver: what a call leaves behind *)

Module ConfigInvFacts.
Import PyStr ConfigStore ConfigRefs ConfigInv.

Lemma extends_refl l w : extends l w w.
Proof. split; [by exists []|done]. Qed.

Lemma extends_trans l a b c : extends l a b -> extends l b c -> extends l a c.
Proof.
  intros ([n1 H1]&H2&H3) ([m1 G1]&G2&G3). split; [|split].
  - exists (m1 ++ n1)%list. by rewrite G1, H1, app_assoc.
  - intros l' Hl. by rewrite G2, H2.
  - intros name v Hv. by apply G3, H3.
Qed.

Lemma extends_run l w c : extends l w {| heap := heap w; trace := c :: trace w |}.
Proof. split; [by exists [c]|done]. Qed.

Lemma extends_set_macro l w name sub :
  (heap w !!! l) !! name = None -> extends l w (set_macro l name sub w).
Proof.
  intros Hnone. unfold set_macro. split; [by exists []|]. split; simpl.
  - intros l' Hl. by rewrite lookup_insert_ne.
  - intros other v Hv. rewrite lookup_total_insert_eq.
    rewrite lookup_insert_ne; [done|]. intros ->. congruence.
Qed.

Section InvFacts.
Variable os : OS.

Lemma check_output_extends l w c r w' :
  check_output os w c = (r, w') -> extends l w w'.
Proof.
  unfold check_output. intros H.
  repeat case_match; simplify_eq; apply extends_run.
Qed.

Lemma resolve_extends rec self w section f_section f_option r self' w' :
  extends_ok rec ->
  resolve os rec self w section f_section f_option = Some (r, self', w') ->
  extends (rpm_macros self) w w'.
Proof.
  intros Hrec H. unfold resolve in H.
  destruct (String.eqb f_section "ENV:").
  { repeat case_match; simplify_eq; apply extends_refl. }
  destruct (String.eqb f_section "SHELL:").
  { unfold shell_output in H.
    destruct (check_output os w (Shell f_option)) as [r0 w0] eqn:Hc.
    apply (check_output_extends (rpm_macros self)) in Hc.
    repeat case_match; simplify_eq; done. }
  destruct (String.eqb f_section "RPM:"); [|by eapply Hrec].
  destruct ((heap w !!! rpm_macros self) !! f_option) eqn:Hcache.
  { simplify_eq. apply extends_refl. }
  unfold command_output in H.
  destruct (check_output os w (Argv (eval_macro f_option))) as [r0 w0] eqn:Hc.
  pose proof Hc as Hc'. apply (check_output_extends (rpm_macros self)) in Hc'.
  assert ((heap w0 !!! rpm_macros self) !! f_option = None) as Hnone.
  { unfold check_output in Hc. repeat case_match; simplify_eq; done. }
  repeat case_match; simplify_eq; try done.
  eapply extends_trans; [exact Hc'|]. by apply extends_set_macro.
Qed.

Lemma get_loop_extends rec section opt matches :
  frame rec -> extends_ok rec ->
  forall ret self w r self' w',
    get_loop os rec section opt matches ret self w = Some (r, self', w') ->
    extends (rpm_macros self) w w'.
Proof.
  intros Hframe Hrec. induction matches as [|[fs fo] rest IH]; intros ret self w r self' w' H.
  - simpl in H. simplify_eq. apply extends_refl.
  - simpl in H. case_match; [|simplify_eq; apply extends_refl].
    destruct (resolve os rec _ w section fs fo) as [[[[sub|e] self1] w1]|] eqn:Hres;
      [| |done].
    + pose proof (resolve_extends _ _ _ _ _ _ _ _ _ Hrec Hres) as Hext.
      apply (ConfigFacts.resolve_frame _ _ _ _ _ _ _ _ _ _ Hframe) in Hres as [(Hm&_) _].
      apply IH in H. simpl in Hm, Hext. rewrite <- Hm in H.
      by eapply extends_trans.
    + simplify_eq. by apply (resolve_extends _ _ _ _ _ _ _ _ _ Hrec Hres).
Qed.

Lemma get_fuel_extends fuel vars raw :
  extends_ok (fun self w s o => get_fuel os fuel vars raw self w s (Some o)).
Proof.
  revert raw. induction fuel as [|fuel IH]; intros raw self w s o r self' w' H; [done|].
  simpl in H. repeat (case_match; simplify_eq); try apply extends_refl.
  all: by eapply get_loop_extends;
    [apply (ConfigFacts.get_fuel_frame os fuel vars false)|apply (IH false)|].
Qed.

(** X1. [get] terminates for every configuration and every key, whether its
    value refers to itself or not: the fuel of [get_bound], which is the
    distance of the counter from [MAX_INTERPOLATION_DEPTH] plus one,
    yields a result, and any larger amount yields the same one. *)
Theorem get_terminates cfg w section opt :
  exists r,
    get os cfg w section opt = Some r /\
    forall fuel, (get_bound cfg <= fuel)%nat ->
      get_fuel os fuel ∅ false cfg w section opt = Some r.
Proof.
  destruct (ConfigFacts.get_fuel_total os (get_bound cfg) ∅ false cfg w section opt)
    as [r Hr]; [unfold get_bound; lia|].
  exists r. split; [exact Hr|]. intros fuel Hfuel.
  by eapply ConfigFacts.get_fuel_mono.
Qed.

(** X2. Whatever it returns or raises, a call of [get] leaves the options of the
    object and its reference to the macro dictionary as they were, adds
    commands to the trace without dropping any, touches no dictionary but
    its own macro dictionary, and neither removes nor changes a macro that
    dictionary already held. *)
Theorem get_keeps_options_and_cached_macros cfg w section opt r cfg' w' :
  get os cfg w section opt = Some (r, cfg', w') ->
  same_store cfg cfg' /\ extends (rpm_macros cfg) w w'.
Proof.
  intros H. split.
  { by apply ConfigFacts.get_fuel_frame' in H as [Hs _]. }
  unfold get, get_bound in H. cbn [get_fuel] in H.
  repeat (case_match; simplify_eq); try apply extends_refl.
  all: match goal with
       | H : get_loop os ?rec _ _ _ _ _ _ = _ |- _ =>
           eapply (get_loop_extends rec);
           [apply (ConfigFacts.get_fuel_frame os _ ∅ false)
           |apply (get_fuel_extends _ ∅ false)|exact H]
       end.
Qed.

(** *** The exceptions of [get] *)

Lemma resolve_exn rec self w section f_section f_option e self' w' :
  get_exn_ok rec ->
  resolve os rec self w section f_section f_option = Some (Raise e, self', w') ->
  get_exn (interpolation_failure section f_option f_section f_option e) = true
  /\ forall s o, get_exn (interpolation_failure s o f_section f_option e) = true.
Proof.
  intros Hrec H. unfold resolve, shell_output, command_output, check_output in H.
  repeat (case_match; simplify_eq); try done.
  all: apply Hrec in H; destruct e; done.
Qed.

Lemma get_loop_exn rec section opt matches :
  get_exn_ok rec ->
  forall ret self w e self' w',
    get_loop os rec section opt matches ret self w = Some (Raise e, self', w') ->
    get_exn e = true.
Proof.
  intros Hrec. induction matches as [|[fs fo] rest IH]; intros ret self w e self' w' H.
  - done.
  - simpl in H. case_match; [|by simplify_eq].
    destruct (resolve os rec _ w section fs fo) as [[[[sub|e0] self1] w1]|] eqn:Hres;
      [by eapply IH| |done].
    simplify_eq. by apply (resolve_exn _ _ _ _ _ _ _ _ _ Hrec Hres).
Qed.

Lemma get_fuel_exn fuel vars raw :
  get_exn_ok (fun self w s o => get_fuel os fuel vars raw self w s (Some o)).
Proof.
  revert raw. induction fuel as [|fuel IH]; intros raw self w s o e self' w' H; [done|].
  simpl in H. unfold parser_get in H.
  repeat (case_match; simplify_eq); try done.
  all: by eapply get_loop_exn; [apply (IH false)|].
Qed.

(** X3. Every exception that leaves [get] is one of [ConfigParser], the
    [CalledProcessError] of a command that exited with a non-zero status,
    or the [ValueError] of a malformed [section:option]; a [RunError] of
    [shell_output] or [command_output] never gets out.  The script
    therefore ends with exit code 1 or 127 when a [get] fails. *)
Theorem get_raises_no_RunError cfg w section opt e cfg' w' :
  get os cfg w section opt = Some (Raise e, cfg', w') ->
  get_exn e = true /\
  (Main.exit_code e = 1 \/ Main.exit_code e = 127) /\
  (Main.exit_code e = 1 <-> is_ConfigError e = true).
Proof.
  intros H.
  assert (get_exn e = true) as He.
  { unfold get, get_bound in H. cbn [get_fuel] in H. unfold parser_get in H.
    repeat (case_match; simplify_eq); try done.
    all: match goal with
         | H : get_loop os ?rec _ _ _ _ _ _ = _ |- _ =>
             eapply (get_loop_exn rec); [apply (get_fuel_exn _ ∅ false)|exact H]
         end. }
  split; [done|]. destruct e; try done; simpl; split; auto; split; done.
Qed.

(** *** Placeholders that need no command *)

Lemma get_loop_quiet rec section opt matches :
  forall ret self w r self' w',
    Forall (quiet w (rpm_macros self)) matches ->
    get_loop os rec section opt matches ret self w = Some (r, self', w') ->
    w' = w.
Proof.
  induction matches as [|[fs fo] rest IH]; intros ret self w r self' w' Hq H.
  - simpl in H. by simplify_eq.
  - simpl in H. apply Forall_cons in Hq as [Hq Hrest].
    case_match; [|by simplify_eq].
    assert (exists r1, resolve os rec (set_depth (get_depth self + 1) self) w section fs fo
                       = Some (r1, set_depth (get_depth self + 1) self, w)) as [r1 Hres].
    { unfold resolve. destruct Hq as [Hq|[Hq [v Hv]]]; simpl in Hq; subst fs.
      - cbn [String.eqb Ascii.eqb Bool.eqb]. repeat case_match; by eexists.
      - cbn [String.eqb Ascii.eqb Bool.eqb]. simpl in *. rewrite Hv. by eexists. }
    rewrite Hres in H. destruct r1 as [sub|e]; [|by simplify_eq].
    eapply IH; [|exact H]. exact Hrest.
Qed.

(** X4. A value whose placeholders are environment variables and macros that
    the dictionary already holds is resolved without running any command
    and without touching any dictionary, whether [get] returns or
    raises. *)
Theorem get_cached_runs_nothing cfg w section o raw r cfg' w' :
  o <> "" ->
  parser_get cfg section o ∅ = Return raw ->
  Forall (quiet w (rpm_macros cfg)) (Placeholder.findall raw) ->
  get os cfg w section (Some o) = Some (r, cfg', w') ->
  w' = w.
Proof.
  intros Ho Hraw Hq H. unfold get, get_bound in H. cbn [get_fuel] in H.
  rewrite (ConfigFacts.otruthy_Some o Ho) in H. cbn [default from_option id] in H.
  rewrite Hraw in H. by eapply get_loop_quiet.
Qed.

(** X5. An environment variable that is unset, or set to the empty string,
    stops the resolution with a [NoOptionError] that names the variable
    and the section [ENV]; the placeholders after it are not looked at. *)
Theorem get_env_unset_or_empty cfg w section o raw name rest :
  o <> "" ->
  parser_get cfg section o ∅ = Return raw ->
  Placeholder.findall raw = ("ENV:", name) :: rest ->
  get_depth cfg + 1 < MAX_INTERPOLATION_DEPTH ->
  otruthy (environ os !! name) = false ->
  get os cfg w section (Some o)
  = Some (Raise (NoOptionError name "ENV"), set_depth (get_depth cfg + 1) cfg, w).
Proof.
  intros Ho Hraw Hm Hd Henv.
  rewrite (ConfigFacts.get_first_match os _ _ _ _ _ _ _ _ Ho Hraw Hm Hd). cbv zeta.
  unfold resolve. cbn [String.eqb Ascii.eqb Bool.eqb].
  destruct (environ os !! name) as [sub|]; [|done].
  simpl in Henv. by rewrite Henv.
Qed.

(** *** The short form [section:option] *)

Lemma str_app_cons (c : ascii) (a b : string) : String c a +:+ b = String c (a +:+ b).
Proof. reflexivity. Qed.

Lemma str_app_nil_r (a : string) : a +:+ "" = a.
Proof. induction a as [|c a IH]; [done|]. by rewrite str_app_cons, IH. Qed.

Lemma str_app_snoc (a b : string) (d : ascii) :
  (a +:+ String d "") +:+ b = a +:+ String d b.
Proof. induction a as [|c a IH]; [done|]. by rewrite !str_app_cons, IH. Qed.

Lemma str_app_assoc (a b c : string) : (a +:+ b) +:+ c = a +:+ (b +:+ c).
Proof. induction a as [|d a IH]; [done|]. by rewrite !str_app_cons, IH. Qed.

Lemma str_rev_app (a b : string) : String.rev_app a b = String.rev a +:+ b.
Proof.
  unfold String.rev. revert b. induction a as [|c a IH]; intros b; [done|].
  simpl. by rewrite (IH (String c b)), (IH (String c "")), str_app_snoc.
Qed.

Lemma str_rev_cons (d : ascii) (a : string) :
  String.rev (String d a) = String.rev a +:+ String d "".
Proof. unfold String.rev at 1. simpl. apply str_rev_app. Qed.

Lemma split_go_no_sep c cur s :
  contains_char c s = false -> split_go c None cur s = [String.rev cur +:+ s].
Proof.
  revert cur. induction s as [|d t IH]; intros cur H; simpl in *.
  - by rewrite str_app_nil_r.
  - apply orb_false_iff in H as [Hd Ht]. rewrite Hd. rewrite IH by done.
    by rewrite str_rev_cons, str_app_snoc.
Qed.

Lemma split_go_sep c cur a rest :
  contains_char c a = false ->
  split_go c None cur (a +:+ String c rest)
  = (String.rev cur +:+ a) :: split_go c None "" rest.
Proof.
  revert cur. induction a as [|d t IH]; intros cur Ha.
  - simpl. by rewrite Ascii.eqb_refl, str_app_nil_r.
  - simpl in Ha. apply orb_false_iff in Ha as [Hd Ht].
    rewrite str_app_cons. cbn [split_go]. rewrite Hd, IH by done.
    by rewrite str_rev_cons, str_app_snoc.
Qed.

Lemma split_go_nonempty c cur s : split_go c None cur s <> [].
Proof.
  revert cur. induction s as [|d t IH]; intros cur; simpl; [done|].
  destruct (Ascii.eqb c d); [done|apply IH].
Qed.

(** X6. [get ('section:option')] is [get ('section', 'option')] when neither
    part holds a colon; this is how the script reads [general:archs]. *)
Theorem get_short_form cfg w section o :
  o <> "" ->
  contains_char ":" section = false -> contains_char ":" o = false ->
  get os cfg w (section +:+ ":" +:+ o) None = get os cfg w section (Some o).
Proof.
  intros Ho Hs Hopt. unfold get, get_bound. cbn [get_fuel].
  rewrite (ConfigFacts.otruthy_Some o Ho). cbn [otruthy default from_option id].
  unfold split. change (":" +:+ o) with (String ":" o).
  by rewrite split_go_sep, split_go_no_sep.
Qed.

(** X7. A name with more than one colon cannot be given in the short form: the
    unpacking of the split raises [ValueError] before anything is read. *)
Theorem get_short_form_two_colons cfg w a b c :
  contains_char ":" a = false -> contains_char ":" b = false ->
  get os cfg w (a +:+ ":" +:+ b +:+ ":" +:+ c) None = Some (Raise ValueError, cfg, w).
Proof.
  intros Ha Hb. unfold get, get_bound. cbn [get_fuel otruthy].
  unfold split. change (":" +:+ b +:+ ":" +:+ c) with (String ":" (b +:+ String ":" c)).
  rewrite !split_go_sep by done.
  pose proof (split_go_nonempty ":" "" c) as Hne.
  by destruct (split_go ":" None "" c).
Qed.

End InvFacts.

End ConfigInvFacts.

(** ** Lists of words and lines *)

Module ConfigListsFacts.
Import PyStr ConfigStore ConfigLists.

Lemma split_ws_items s : Forall is_word_item (split_ws s).
Proof.
  induction s as [|c t IH]; [constructor|].
  cbn [split_ws]. destruct (is_space c) eqn:Hc; [done|].
  destruct t as [|d t'].
  { repeat constructor; [done|]. simpl. by repeat constructor. }
  destruct (is_space d) eqn:Hd.
  { constructor; [|done]. split; [done|]. simpl. by repeat constructor. }
  destruct (split_ws (String d t')) as [|x r]; inversion IH as [|? ? [Hx1 Hx2] Hr]; subst.
  - repeat constructor; [done|]. simpl. by repeat constructor.
  - constructor; [|done]. split; [done|]. simpl. by constructor.
Qed.

Lemma split_ws_head_nonspace d t :
  is_space d = false -> exists x r, split_ws (String d t) = x :: r.
Proof.
  intros Hd. cbn [split_ws]. rewrite Hd.
  destruct t as [|e t']; [by eexists _, _|].
  destruct (is_space e); [by eexists _, _|].
  destruct (split_ws (String e t')); by eexists _, _.
Qed.

Lemma split_ws_chars s :
  chars_of (split_ws s) = List.filter (fun c => negb (is_space c)) (list_ascii_of_string s).
Proof.
  induction s as [|c t IH]; [done|].
  cbn [split_ws list_ascii_of_string List.filter]. destruct (is_space c) eqn:Hc; [done|].
  cbn [negb]. destruct t as [|d t']; [done|].
  destruct (is_space d) eqn:Hd.
  { unfold chars_of in *. cbn [map concat]. rewrite IH. done. }
  destruct (split_ws_head_nonspace d t' Hd) as (x&r&Hx). rewrite Hx in *.
  unfold chars_of in *. cbn [map concat list_ascii_of_string] in *.
  rewrite <- IH. done.
Qed.

Lemma filter_truthy_items {P : string -> Prop} l :
  (forall x, P x -> x <> "") -> Forall P l -> List.filter truthy l = l.
Proof.
  intros HP H. induction H as [|x l Hx _ IH]; [done|].
  simpl. unfold truthy at 1. destruct (String.eqb_spec x "") as [->|_].
  - by destruct (HP _ Hx).
  - simpl. by rewrite IH.
Qed.

Lemma split_str_go_nonempty sep skip s : split_str_go sep skip s <> [].
Proof.
  revert skip. induction s as [|c t IH]; intros skip; [done|].
  cbn [split_str_go]. destruct skip as [|k]; [|apply IH].
  destruct (startswith sep (String c t)); [done|].
  by destruct (split_str_go sep 0 t).
Qed.

Lemma split_newline_items s :
  Forall (fun x => Forall (fun c => c <> Placeholder.newline) (list_ascii_of_string x))
    (split_str_go nl O s).
Proof.
  induction s as [|c t IH]; [by repeat constructor|].
  cbn [split_str_go]. unfold nl at 1. cbn [startswith].
  destruct (Ascii.eqb_spec Placeholder.newline c) as [Heq|Hne].
  - cbn [andb]. constructor; [constructor|]. exact IH.
  - cbn [andb]. destruct (split_str_go nl 0 t) as [|f r].
    + by repeat constructor.
    + inversion IH as [|? ? Hf Hr]; subst. constructor; [|done].
      simpl. by constructor.
Qed.

Lemma split_newline_chars s :
  chars_of (split_str_go nl O s)
  = List.filter (fun c => negb (Ascii.eqb Placeholder.newline c)) (list_ascii_of_string s).
Proof.
  induction s as [|c t IH]; [done|].
  cbn [split_str_go list_ascii_of_string List.filter]. unfold nl at 1. cbn [startswith].
  destruct (Ascii.eqb Placeholder.newline c); cbn [andb negb].
  - exact IH.
  - destruct (split_str_go nl 0 t) as [|f r] eqn:Hs.
    + by destruct (split_str_go_nonempty nl 0 t).
    + unfold chars_of in *. cbn [map concat list_ascii_of_string] in *. by rewrite <- IH.
Qed.

Lemma chars_of_filter_truthy l : chars_of (List.filter truthy l) = chars_of l.
Proof.
  induction l as [|x l IH]; [done|]. simpl. unfold truthy at 1.
  destruct (String.eqb_spec x "") as [->|_]; simpl; [done|].
  unfold chars_of in *. simpl. by rewrite IH.
Qed.

Lemma filter_truthy_lines l :
  Forall (fun x => Forall (fun c => c <> Placeholder.newline) (list_ascii_of_string x)) l ->
  Forall is_line_item (List.filter truthy l).
Proof.
  induction 1 as [|x l Hx _ IH]; [constructor|].
  simpl. unfold truthy at 1. destruct (String.eqb_spec x "") as [->|Hne]; simpl; [done|].
  constructor; [by split|done].
Qed.

Section ListsFacts.
Variable os : OS.

Lemma getwords_items cfg w section opt words cfg' w' :
  getwords os cfg w section opt = Some (Return words, cfg', w') ->
  Forall is_word_item words.
Proof.
  unfold getwords, getlist. intros H.
  destruct (get os cfg w section opt) as [[[[v|e] c1] w1]|]; simplify_eq/=.
  rewrite (filter_truthy_items (P := is_word_item)); [|by intros x []|apply split_ws_items].
  apply split_ws_items.
Qed.

(** X11. [getwords] fails exactly when [get] does, with the same exception and
    the same effects; when [get] returns a value, [getwords] returns its
    words: none is empty, none holds white space, and together they are the
    characters of the value that are no white space, in order. *)
Theorem getwords_words cfg w section opt :
  match get os cfg w section opt with
  | Some (Return v, cfg', w') =>
      exists words,
        getwords os cfg w section opt = Some (Return words, cfg', w') /\
        Forall is_word_item words /\
        chars_of words
        = List.filter (fun c => negb (is_space c)) (list_ascii_of_string v)
  | Some (Raise e, cfg', w') => getwords os cfg w section opt = Some (Raise e, cfg', w')
  | None => False
  end.
Proof.
  unfold getwords, getlist.
  destruct (ConfigFacts.get_returns os cfg w section opt) as [[[r cfg'] w'] ->].
  destruct r as [v|e]; [|done]. cbn [py_split].
  exists (split_ws v).
  rewrite (filter_truthy_items (P := is_word_item)); [|by intros x []|apply split_ws_items].
  split; [done|]. split; [apply split_ws_items|apply split_ws_chars].
Qed.

(** X12. [getlines] fails exactly when [get] does, with the same exception
    and the same effects; when [get] returns a value, [getlines] returns
    its lines: none is empty (empty lines are dropped), none holds a line
    terminator, and together they are the characters of the value other
    than line terminators, in order. *)
Theorem getlines_lines cfg w section opt :
  match get os cfg w section opt with
  | Some (Return v, cfg', w') =>
      exists lines,
        getlines os cfg w section opt = Some (Return lines, cfg', w') /\
        Forall is_line_item lines /\
        chars_of lines
        = List.filter (fun c => negb (Ascii.eqb Placeholder.newline c)) (list_ascii_of_string v)
  | Some (Raise e, cfg', w') => getlines os cfg w section opt = Some (Raise e, cfg', w')
  | None => False
  end.
Proof.
  unfold getlines, getlist.
  destruct (ConfigFacts.get_returns os cfg w section opt) as [[[r cfg'] w'] ->].
  destruct r as [v|e]; [|done]. cbn [py_split nl].
  eexists. split; [done|]. split.
  - apply filter_truthy_lines, split_newline_items.
  - rewrite chars_of_filter_truthy. apply split_newline_chars.
Qed.

End ListsFacts.

(** *** Groups of spec directories *)




End ConfigListsFacts.

(** ** Logging *)

Module LoggingFacts.
Import PyStr Pipeline Logging.

Lemma last_char_cons c s : s <> "" -> last_char (String c s) = last_char s.
Proof. by destruct s. Qed.

Lemma last_char_app a c : last_char (a +:+ String c "") = Some c.
Proof.
  induction a as [|d a IH]; [done|].
  rewrite ConfigInvFacts.str_app_cons, last_char_cons; [done|]. by destruct a.
Qed.

Lemma last_char_app_r a b : b <> "" -> last_char (a +:+ b) = last_char b.
Proof.
  intros Hb. induction a as [|d a IH]; [done|].
  rewrite ConfigInvFacts.str_app_cons, last_char_cons; [done|]. by destruct a, b.
Qed.

Lemma last_char_is_Some s : s <> "" -> is_Some (last_char s).
Proof.
  induction s as [|c s IH]; [done|]. intros _.
  destruct s as [|d s]; [by eexists|]. rewrite last_char_cons by done. by apply IH.
Qed.

Lemma last_char_split s c : last_char s = Some c -> exists body, s = body +:+ String c "".
Proof.
  induction s as [|d s IH]; [done|]. destruct s as [|e s].
  - intros [= ->]. by exists "".
  - rewrite last_char_cons by done. intros H. destruct (IH H) as [body ->].
    exists (String d body). by rewrite ConfigInvFacts.str_app_cons.
Qed.

(** A line as the log holds it: ended by a line terminator. *)
Lemma log_line_terminated msg c :
  last_char msg = Some c ->
  last_char (if negb (Ascii.eqb c Placeholder.newline) then msg +:+ nl else msg)
  = Some Placeholder.newline.
Proof.
  intros H. destruct (Ascii.eqb_spec c Placeholder.newline) as [->|Hne]; simpl; [done|].
  apply last_char_app.
Qed.

Lemma log_shape g msg c :
  last_char msg = Some c ->
  exists written,
    log g msg = (Return (), written) /\
    written <> [] /\
    Forall (fun sl => sl.2 = if negb (Ascii.eqb c Placeholder.newline) then msg +:+ nl else msg)
      written /\
    (g_output_file g <> Some Stdout -> NoDup (map fst written)).
Proof.
  intros Hc. unfold log. rewrite Hc.
  set (line := if negb (Ascii.eqb c Placeholder.newline) then msg +:+ nl else msg).
  destruct (g_output_file g) as [f|] eqn:Hf.
  - eexists. split; [done|]. split; [done|].
    destruct (log_to_console g && bool_decide (g_log g <> Some Stdout))%bool.
    + split; [by repeat constructor|]. intros Hout. simpl.
      apply NoDup_cons. split; [|apply NoDup_singleton].
      intros Hin%list_elem_of_singleton. congruence.
    + split; [by repeat constructor|]. intros _. apply NoDup_singleton.
  - eexists. split; [done|]. split; [done|].
    destruct (g_log g) as [l|]; [|split; [by repeat constructor|intros _; apply NoDup_singleton]].
    destruct (bool_decide_reflect (l <> Stdout)) as [Hl|Hl].
    + split; [by repeat constructor|]. intros _. simpl.
      apply NoDup_cons. split; [|apply NoDup_singleton].
      intros Hin%list_elem_of_singleton. congruence.
    + split; [by repeat constructor|]. intros _. apply NoDup_singleton.
Qed.

(** X14. [log] fails on the empty message only.  Any other message is written
    at least once, every copy of it ends with a line terminator (one is
    added if there was none), and unless the redirection file is the
    console itself no stream gets it twice. *)
Theorem log_writes_terminated_line_once g msg :
  msg <> "" ->
  exists line written,
    log g msg = (Return (), written) /\
    (line = msg \/ line = msg +:+ nl) /\
    last_char line = Some Placeholder.newline /\
    written <> [] /\
    Forall (fun sl => sl.2 = line) written /\
    (g_output_file g <> Some Stdout -> NoDup (map fst written)).
Proof.
  intros Hne. destruct (last_char_is_Some msg Hne) as [c Hc].
  destruct (log_shape g msg c Hc) as (written&Hlog&Hw&Hall&Hdup).
  eexists _, written. split; [done|]. split; [|split; [|done]].
  - destruct (negb _); auto.
  - by apply log_line_terminated.
Qed.

(** The empty message is an [IndexError], and nothing is written. *)
Lemma log_empty g : log g "" = (Raise IndexError, []).
Proof. reflexivity. Qed.

(** X15. A message without text is no message: [log_kind] needs [msg] or
    [prefix] to be a non-empty string.  Then it returns, and every line it
    writes starts with the kind and a colon and ends with one of [.:!?]
    followed by the line terminator. *)
Theorem log_kind_punctuated g kind prefix msg :
  otruthy msg = true \/ otruthy prefix = true ->
  exists body c written,
    log_kind g kind prefix msg = (Return (), written) /\
    punctuation c = true /\
    written <> [] /\
    Forall (fun sl => sl.2 = kind +:+ ": " +:+ body +:+ String c nl) written.
Proof.
  intros Htext. unfold log_kind.
  set (pm := if negb (otruthy msg) then (prefix, None) else (msg, prefix)).
  assert (exists m p, pm = (Some m, p) /\ m <> "") as (m&p&->&Hm).
  { unfold pm. destruct (otruthy msg) eqn:Hmsg; simpl.
    - destruct msg as [m|]; [|done]. exists m, prefix. split; [done|].
      intros ->. done.
    - destruct Htext as [|Hp]; [done|]. destruct prefix as [m|]; [|done].
      exists m, None. split; [done|]. intros ->. done. }
  destruct (last_char_is_Some m Hm) as [c Hc]. rewrite Hc.
  set (pre := if otruthy p then default "" p +:+ ": " else "").
  assert (exists body d,
            punctuation d = true /\
            (if negb (punctuation c) then m +:+ "." else m) = body +:+ String d "")
    as (body&d&Hd&Hbody).
  { destruct (punctuation c) eqn:Hp; simpl.
    - apply last_char_split in Hc as [body ->]. by exists body, c.
    - by exists m, "."%char. }
  rewrite Hbody.
  assert (kind +:+ ": " +:+ pre +:+ body +:+ String d ""
          = (kind +:+ ": " +:+ pre +:+ body) +:+ String d "") as Hassoc.
  { by rewrite !ConfigInvFacts.str_app_assoc. }
  rewrite Hassoc.
  destruct (log_shape g ((kind +:+ ": " +:+ pre +:+ body) +:+ String d "") d
              (last_char_app _ d)) as (written&Hlog&Hw&Hall&_).
  assert (Ascii.eqb d Placeholder.newline = false) as Hnl.
  { destruct (Ascii.eqb_spec d Placeholder.newline) as [->|]; [by vm_compute in Hd|done]. }
  rewrite Hnl in Hall. simpl in Hall.
  exists (pre +:+ body), d, written. split; [done|]. split; [done|]. split; [done|].
  eapply Forall_impl; [exact Hall|]. intros sl ->.
  rewrite ConfigInvFacts.str_app_snoc. by rewrite !ConfigInvFacts.str_app_assoc.
Qed.

End LoggingFacts.

(** ** A Python function run under a log *)

Module FuncLogFacts.
Import PyStr Pipeline Logging.

Section FuncLogFacts.
Variable os : PipeOS.
Variable format_exc : exn -> string.

(** X16. Whatever exception [func] raises, [func_log] reports it as a [RunError]
    that carries the log file and names the class of the exception; the
    script then exits with code 102.  The log holds the start line, what
    [func] wrote, a line about the exception and the end line, and the
    redirection of [log] is switched off again. *)
Theorem func_log_failure_carries_log_file g exc_type log_file str_func func e written :
  open_w os log_file = None ->
  func (set_output_file (Some (LogFile log_file)) g) = (Raise e, written) ->
  exists detail,
    func_log os format_exc g exc_type log_file str_func func
    = (Some (Raised (RunError str_func ("exception " +:+ exn_name e) None (Some log_file))),
       (LogFile log_file, "[" +:+ start_ts os +:+ ", Python " +:+ str_func +:+ "]" +:+ nl)
       :: written
       ++ [(LogFile log_file, detail);
           (LogFile log_file, end_line os ("exception " +:+ exn_name e))],
       set_output_file None g) /\
    g_output_file (set_output_file None g) = None /\
    Main.exit_code (RunError str_func ("exception " +:+ exn_name e) None (Some log_file)) = 102.
Proof.
  intros Hopen Hfunc. unfold func_log. rewrite Hopen, Hfunc.
  destruct e; eexists; (split; [|done]); cbn [negb Z.eqb exn_name];
    by rewrite <- app_assoc.
Qed.

(** When [func] returns [None] or 0, [func_log] returns as well; the log is
    framed by the start line and the end line with [return code 0]. *)
Theorem func_log_success g exc_type log_file str_func func v written :
  open_w os log_file = None ->
  func (set_output_file (Some (LogFile log_file)) g) = (Return v, written) ->
  default 0 v = 0 ->
  func_log os format_exc g exc_type log_file str_func func
  = (None,
     (LogFile log_file, "[" +:+ start_ts os +:+ ", Python " +:+ str_func +:+ "]" +:+ nl)
     :: written ++ [(LogFile log_file, end_line os "return code 0")],
     set_output_file None g).
Proof.
  intros Hopen Hfunc Hv. unfold func_log. rewrite Hopen, Hfunc. cbv zeta.
  by rewrite Hv.
Qed.

End FuncLogFacts.

End FuncLogFacts.

(** ** Log rotation *)

Module LogFilesFacts.
Import PyStr FS LogFiles.

Lemma str_app_ne (a b : string) : b <> "" -> a <> a +:+ b.
Proof.
  intros Hb H. apply (f_equal String.length) in H.
  rewrite BuildFacts.length_append_str in H. destruct b; [done|]. simpl in H. lia.
Qed.

Section RotateFacts.
Variable P : PyNum.

(** X17. A log file is rotated without loss whenever nothing but a file can be
    in the way: if [log_file] is a file and [log_file.bak] is no directory,
    [rotate_log] returns, the path [log_file] is free afterwards, the
    previous log is at [log_file.bak] as it was (content, time and size),
    and no other path has changed. *)
Theorem rotate_log_keeps_previous_log (s : gmap string (entry P)) log_file e :
  s !! log_file = Some e ->
  isfile P s log_file = true ->
  isdir P s (log_file +:+ ".bak") = false ->
  exists s',
    rotate_log P s log_file = (Return (), s') /\
    s' !! log_file = None /\
    s' !! (log_file +:+ ".bak") = Some e /\
    forall path, path <> log_file -> path <> log_file +:+ ".bak" -> s' !! path = s !! path.
Proof.
  intros He Hfile Hbak.
  assert (log_file <> log_file +:+ ".bak") as Hne by (by apply str_app_ne).
  unfold rotate_log, exists_path. rewrite bool_decide_eq_true_2 by (by eexists).
  set (bak := log_file +:+ ".bak") in *.
  set (s1 := (remove P s bak).2).
  assert (s1 !! log_file = Some e /\ isdir P s1 bak = false /\
          forall path, path <> bak -> s1 !! path = s !! path) as (He1&Hbak1&Hs1).
  { unfold s1, remove, isdir in *. destruct (s !! bak) as [[[c|] m n]|] eqn:Hb; simpl.
    - rewrite lookup_delete_eq. split; [by rewrite lookup_delete_ne|].
      split; [done|]. intros path Hp. by rewrite lookup_delete_ne.
    - done.
    - rewrite Hb. done. }
  unfold rename. rewrite He1, Hbak1.
  eexists. split; [done|]. split; [|split].
  - rewrite lookup_insert_ne by done. apply lookup_delete_eq.
  - apply lookup_insert_eq.
  - intros path Hp1 Hp2. rewrite lookup_insert_ne, lookup_delete_ne by done. by apply Hs1.
Qed.

(** X18. Without anything at [log_file] there is nothing to rotate and nothing
    changes.  When [log_file] is a regular file, a directory at
    [log_file.bak] makes the rotation fail with an [Error] that leaves
    everything in place, and without such a directory the rotation
    returns.  Nothing is said of a directory at [log_file]. *)
Theorem rotate_log_nothing_lost (s : gmap string (entry P)) log_file :
  (s !! log_file = None -> rotate_log P s log_file = (Return (), s)) /\
  (isfile P s log_file = true ->
   if isdir P s (log_file +:+ ".bak")
   then exists msg, rotate_log P s log_file = (Raise (Error None msg None), s)
   else (rotate_log P s log_file).1 = Return ()).
Proof.
  unfold rotate_log, exists_path. split.
  { intros He. rewrite He. by rewrite bool_decide_eq_false_2 by (by intros [? ?]). }
  intros Hfile.
  destruct (s !! log_file) as [e|] eqn:He; [|by unfold isfile in Hfile; rewrite He in Hfile].
  rewrite bool_decide_eq_true_2 by (by eexists).
  destruct (isdir P s (log_file +:+ ".bak")) eqn:Hbak.
  - assert ((remove P s (log_file +:+ ".bak")).2 = s) as ->.
    { unfold remove, isdir in *. by destruct (s !! (log_file +:+ ".bak")) as [[[c|] m n]|]. }
    unfold rename. rewrite He, Hbak. by eexists.
  - assert (log_file <> log_file +:+ ".bak") as Hne by (by apply str_app_ne).
    unfold rename.
    assert ((remove P s (log_file +:+ ".bak")).2 !! log_file = Some e /\
            isdir P (remove P s (log_file +:+ ".bak")).2 (log_file +:+ ".bak") = false)
      as [-> ->]; [|done].
    unfold remove, isdir in *.
    destruct (s !! (log_file +:+ ".bak")) as [[[c|] m n]|] eqn:Hb; simpl.
    + rewrite lookup_delete_eq. by rewrite lookup_delete_ne.
    + done.
    + by rewrite Hb.
Qed.

End RotateFacts.

End LogFilesFacts.

(** ** The pipeline runner: starting, output and single commands *)

Module RunnerFacts2.
Import PyStr Pipeline.



Section Facts.
Variable re_findall : string -> string -> list string.
Variable os : PipeOS.
Variable g : Globals.

Lemma spawn_all_first_failure before c after errno strerror :
  forall i cmd,
    (forall j cj, before !! j = Some cj -> popen os (i + j) cj = None) ->
    popen os (i + length before) c = Some (errno, strerror) ->
    spawn_all os i (before ++ c :: after) cmd = (c, Some (errno, strerror)).
Proof.
  induction before as [|b before IH]; intros i cmd Hok Hbad.
  - simpl in *. rewrite Nat.add_0_r in Hbad. by rewrite Hbad.
  - simpl. rewrite <- (Nat.add_0_r i) at 1. rewrite (Hok 0%nat b) by done.
    apply IH.
    + intros j cj Hj. replace (S i + j)%nat with (i + S j)%nat by lia. by apply Hok.
    + simpl in Hbad. by replace (S i + length before)%nat with (i + S (length before))%nat by lia.
Qed.

(** X19. When a command of the pipeline cannot be started, [run_pipe] raises a
    [RunError] that names that very command and the error of the operating
    system, whatever its position.  What the processes started before it
    may have written by then is not part of the statement. *)
Theorem run_pipe_cannot_start before c after regex file errno strerror :
  (forall j cj, before !! j = Some cj -> popen os j cj = None) ->
  popen os (length before) c = Some (errno, strerror) ->
  (run_pipe re_findall os g (before ++ c :: after) regex file).1
  = Raise (RunError (join " " c)
             ("error " +:+ pretty errno +:+ " (" +:+ strerror +:+ ")") None None).
Proof.
  intros Hok Hbad. unfold run_pipe.
  destruct (before ++ c :: after)%list as [|cmd0 rest] eqn:Hcmds; [by destruct before|].
  rewrite <- Hcmds. by rewrite (spawn_all_first_failure before c after errno strerror 0%nat).
Qed.


(** X21. A single command run by [run] fails exactly when its own exit status
    is not 0; the [RunError] names the command and the status. *)
Theorem run_fails_iff_status command regex :
  popen os 0 command = None ->
  (raises_RunError (run re_findall os g command regex).1 <-> wait os 0 <> 0) /\
  (wait os 0 <> 0 ->
   (run re_findall os g command regex).1
   = Raise (RunError (join " " command) ("exit code " +:+ pretty (wait os 0)) None None)).
Proof.
  intros Hok. unfold run, run_pipe. cbn [spawn_all]. rewrite Hok. cbv zeta.
  destruct (Z.eqb_spec (wait os 0) 0) as [Hz|Hnz]; cbn [negb fst].
  - split; [|done]. split; [|done]. by intros (?&?&?&?&?).
  - split; [|done]. split; [done|]. intros _. by eexists _, _, _, _.
Qed.

End Facts.

End RunnerFacts2.

(** ** Upload: what the reader hands to the copy *)

Module UploadFacts.
Import PyStr FS Summary Promotion Upload.

Section ShapeFacts.
Variable P : PyNum.










End ShapeFacts.

End UploadFacts.

(** ** Repository groups *)

Module GroupsFacts.
Import PyStr ConfigStore ConfigLists Summary Groups.

Section ReadGroupFacts.
Variable os : OS.
Variable g_rpm : nat.
Variable g_zip_dir : string.
Variable g_log_dir : string.

Lemma cfg_bind_Return {A B} (m : cfg_task A) (k : A -> cfg_task B) c w b c' w' :
  cfg_bind m k c w = Some (Return b, c', w') ->
  exists a c1 w1, m c w = Some (Return a, c1, w1) /\ k a c1 w1 = Some (Return b, c', w').
Proof.
  unfold cfg_bind. intros H.
  destruct (m c w) as [[[[a|e] c1] w1]|]; simplify_eq. by eexists _, _, _.
Qed.

Lemma read_repos_keys base group repos :
  forall d c w d' c' w',
    read_repos os base group repos d c w = Some (Return d', c', w') ->
    forall k, is_Some (d' !! k) <->
              is_Some (d !! k) \/ exists repo, In repo repos /\ k = repo_key (Some repo).
Proof.
  induction repos as [|repo rest IH]; intros d c w d' c' w' H k.
  - simpl in H. unfold cfg_ret in H. simplify_eq. split; [by left|].
    by intros [|(?&[]&_)].
  - cbn [read_repos] in H. apply cfg_bind_Return in H as (rd&c1&w1&_&H).
    rewrite (IH _ _ _ _ _ _ H k). split.
    + intros [Hk|(r&Hr&->)].
      * destruct (decide (repo_key (Some repo) = k)) as [<-|Hne].
        -- right. exists repo. by split; [left|].
        -- rewrite lookup_insert_ne in Hk by done. by left.
      * right. exists r. by split; [right|].
    + intros [Hk|(r&[->|Hr]&->)].
      * left. destruct (decide (repo_key (Some repo) = k)) as [<-|Hne].
        -- rewrite lookup_insert_eq. by eexists.
        -- by rewrite lookup_insert_ne.
      * left. rewrite lookup_insert_eq. by eexists.
      * right. by exists r.
Qed.

(** What [read_group_config] returns when it returns: at least one
    repository, each a word of the option [repositories], and a dictionary
    whose keys are [repo.None] and [repo.NAME] for exactly the repositories
    of the list. *)
Lemma read_group_config_Return group c w gc c' w' :
  read_group_config os g_rpm g_zip_dir g_log_dir group c w = Some (Return gc, c', w') ->
  gc_repos gc <> [] /\
  Forall is_word_item (gc_repos gc) /\
  forall k, is_Some (gc_repo gc !! k) <-> group_keys gc k.
Proof.
  unfold read_group_config. intros H.
  apply cfg_bind_Return in H as (base&c1&w1&_&H).
  apply cfg_bind_Return in H as (repos&c2&w2&Hwords&H).
  apply (ConfigListsFacts.getwords_items os) in Hwords.
  destruct (Nat.eqb_spec (length repos) 0) as [|Hlen]; [done|].
  apply cfg_bind_Return in H as (d&c3&w3&Hd&H).
  apply cfg_bind_Return in H as (topdir&c4&w4&_&H).
  apply cfg_bind_Return in H as (rpmdir&c5&w5&_&H).
  apply cfg_bind_Return in H as (srcrpmdir&c6&w6&_&H).
  unfold cfg_ret in H. simplify_eq. cbn [gc_repos gc_repo].
  split; [by destruct repos|]. split; [done|].
  intros k. unfold group_keys. cbn [gc_repos].
  pose proof (read_repos_keys _ _ _ _ _ _ _ _ _ Hd k) as Hk.
  rewrite lookup_empty in Hk.
  destruct (decide (repo_key None = k)) as [<-|Hne].
  - rewrite lookup_insert_eq. split; [by left|by eexists].
  - rewrite lookup_insert_ne by done. rewrite Hk. split.
    + intros [[? ?]|?]; [done|by right].
    + intros [?|?]; [done|by right].
Qed.

Lemma g_rpm_item_Return key c w v c' w' :
  g_rpm_item g_rpm key c w = Some (Return v, c', w') ->
  c' = c /\ w' = w /\ (heap w !!! g_rpm) !! key = Some v.
Proof.
  unfold g_rpm_item. destruct ((heap w !!! g_rpm) !! key) eqn:Hk; intros H; by simplify_eq.
Qed.

(** X26. The dictionary [read_group_config] returns has an entry for every
    repository of the group, which has at least one, and for nothing else
    but the local build area under [repo.None].  That entry is made of the
    macros [_topdir], [_rpmdir] and [_srcrpmdir] as the macro dictionary
    holds them when the function returns, of [g_zip_dir], and of [build]
    under [g_log_dir]; a repository that is itself called [None] does not
    change it. *)
Theorem read_group_config_entries group c w gc c' w' :
  read_group_config os g_rpm g_zip_dir g_log_dir group c w = Some (Return gc, c', w') ->
  gc_repos gc <> [] /\
  (forall k, is_Some (gc_repo gc !! k) <-> group_keys gc k) /\
  exists topdir rpmdir srcrpmdir,
    (heap w' !!! g_rpm) !! "_topdir" = Some topdir /\
    (heap w' !!! g_rpm) !! "_rpmdir" = Some rpmdir /\
    (heap w' !!! g_rpm) !! "_srcrpmdir" = Some srcrpmdir /\
    gc_repo gc !! repo_key None
    = Some {| rc_base := topdir; rc_rpm := rpmdir; rc_srpm := srcrpmdir;
              rc_zip := g_zip_dir; rc_log := path_join g_log_dir "build" |}.
Proof.
  intros H.
  pose proof (read_group_config_Return _ _ _ _ _ _ H) as (Hne&_&Hkeys).
  split; [done|]. split; [done|].
  unfold read_group_config in H.
  apply cfg_bind_Return in H as (base&c1&w1&_&H).
  apply cfg_bind_Return in H as (repos&c2&w2&_&H).
  destruct (length repos =? 0)%nat; [done|].
  apply cfg_bind_Return in H as (d&c3&w3&_&H).
  apply cfg_bind_Return in H as (topdir&c4&w4&(->&->&Ht)%g_rpm_item_Return&H).
  apply cfg_bind_Return in H as (rpmdir&c5&w5&(->&->&Hr)%g_rpm_item_Return&H).
  apply cfg_bind_Return in H as (srcrpmdir&c6&w6&(->&->&Hs)%g_rpm_item_Return&H).
  unfold cfg_ret in H. simplify_eq. exists topdir, rpmdir, srcrpmdir.
  split; [done|]. split; [done|]. split; [done|]. cbn [gc_repo]. apply lookup_insert_eq.
Qed.

End ReadGroupFacts.

Lemma member_In to_repo repos :
  Promotion.member to_repo repos = true -> exists r, to_repo = Some r /\ In r repos.
Proof.
  destruct to_repo as [r|]; [|done]. simpl. intros H. exists r. split; [done|].
  apply existsb_exists in H as (x&Hx&Heq). apply String.eqb_eq in Heq. by subst.
Qed.

Section UploadFacts.
Variable P : PyNum.
Variable os : OS.
Variable g_rpm : nat.
Variable g_zip_dir : string.
Variable g_log_dir : string.

(** What [move_cmd_resolve] returns when it returns. *)
Lemma move_cmd_resolve_Return (s : gmap string (FS.entry P)) COMMAND GROUP spec_base
    read_group gc from_repo to_repo :
  Promotion.move_cmd_resolve P s COMMAND GROUP spec_base read_group
  = Return (gc, from_repo, to_repo) ->
  COMMAND = "upload" /\
  (exists group, read_group group = Return gc) /\
  otruthy from_repo = false /\
  Promotion.member to_repo (gc_repos gc) = true.
Proof.
  unfold Promotion.move_cmd_resolve. intros H.
  destruct (String.eqb_spec COMMAND "upload") as [->|]; [|done]. split; [done|].
  cbn [negb andb] in H.
  destruct (firstn 3 _) as [|[group|] [|to0 [|from0 [|? ?]]]]; try done.
  destruct (otruthy from0) eqn:Hfrom; [done|].
  destruct (read_group group) as [gc0|] eqn:Hgc; [|done].
  cbn -[Promotion.member] in H. rewrite Hfrom in H. cbn -[Promotion.member] in H.
  destruct (otruthy to0) eqn:Hto; cbn -[Promotion.member] in H.
  - destruct (Promotion.member to0 (gc_repos gc0)) eqn:Hm; [|done].
    cbn -[Promotion.member] in H. simplify_eq. split; [by exists group|done].
  - destruct (gc_repos gc0 !! 0%nat) as [r|] eqn:Hr; [|done].
    cbn -[Promotion.member] in H.
    destruct (Promotion.member (Some r) (gc_repos gc0)) eqn:Hm; [|done].
    cbn -[Promotion.member] in H. simplify_eq. split; [by exists group|done].
Qed.

(** X27. An upload whose group is configured as [read_group_config] reads it
    always finds its destination in the group configuration: when
    [move_cmd] has resolved the repositories, the destination is a
    repository of the group and has its entry [repo.NAME].  The source is
    the local build area, unless the argument ended in a second colon:
    then [from_repo] is the empty string and the lookup of [repo.] is a
    [KeyError]. *)
Theorem upload_finds_its_repositories (s : gmap string (FS.entry P)) GROUP spec_base
    read_group gc from_repo to_repo :
  (forall group gc, read_group group = Return gc ->
     read_from_config os g_rpm g_zip_dir g_log_dir group gc) ->
  Promotion.move_cmd_resolve P s "upload" GROUP spec_base read_group
  = Return (gc, from_repo, to_repo) ->
  (exists r to_repo_config,
     to_repo = Some r /\ In r (gc_repos gc) /\
     lookup_repo gc to_repo = Return to_repo_config) /\
  match from_repo with
  | None =>
      exists from_repo_config to_repo_config,
        Upload.move_cmd_repo_configs P s "upload" GROUP spec_base read_group
        = Return (from_repo_config, to_repo_config)
  | Some x =>
      x = "" /\
      Upload.move_cmd_repo_configs P s "upload" GROUP spec_base read_group
      = Raise (KeyError "repo.")
  end.
Proof.
  intros Hread H.
  pose proof (move_cmd_resolve_Return _ _ _ _ _ _ _ _ H) as (_&(group&Hgc)&Hfrom&Hto).
  destruct (Hread group gc Hgc) as (c&w&c'&w'&Hcfg).
  apply read_group_config_Return in Hcfg as (_&Hwords&Hkeys).
  apply member_In in Hto as (r&->&Hr).
  assert (exists to_repo_config, lookup_repo gc (Some r) = Return to_repo_config) as [trc Htrc].
  { unfold lookup_repo. destruct (Hkeys (repo_key (Some r))) as [_ [rc Hrc]].
    - right. by exists r.
    - rewrite Hrc. by eexists. }
  split; [by exists r, trc|].
  unfold Upload.move_cmd_repo_configs. rewrite H. cbn [mbind outcome_bind].
  destruct from_repo as [x|].
  - assert (x = "") as ->.
    { simpl in Hfrom. unfold truthy in Hfrom. by destruct (String.eqb_spec x ""). }
    split; [done|].
    assert (lookup_repo gc (Some "") = Raise (KeyError "repo.")) as ->; [|done].
    unfold lookup_repo.
    destruct (gc_repo gc !! repo_key (Some "")) as [rc|] eqn:Hrc; [|done].
    exfalso. destruct (Hkeys (repo_key (Some ""))) as [[Hk|(r0&Hr0&Hk)] _]; [by eexists|done|].
    unfold repo_key in Hk. simpl in Hk. simplify_eq.
    rewrite Forall_forall in Hwords. apply list_elem_of_In in Hr0.
    destruct (Hwords "" Hr0) as [Hne _]. done.
  - assert (exists rc, lookup_repo gc None = Return rc) as [frc Hfrc].
    { unfold lookup_repo. destruct (Hkeys (repo_key None)) as [_ [rc Hrc]]; [by left|].
      rewrite Hrc. by eexists. }
    rewrite Hfrc, Htrc. by eexists _, _.
Qed.

End UploadFacts.

End GroupsFacts.

(** ** Build: which targets are built *)

Module BuildArchsFacts.
Import PyStr BuildArchs.

Section ArchsFacts.
Variable run_log_arch : nat -> string -> outcome (list string).
Variable log_base : string.

Lemma nonempty_Some (l : list string) : l <> [] -> nonempty (Some l) = true.
Proof. by destruct l. Qed.

(** Once a package of its own target was seen, the loop goes through all
    the targets that are left. *)
Lemma arch_loop_all archs :
  forall i b (d : gmap string (list string)) base_rpms arch_rpms,
    b <> [] ->
    (forall a l, d !! a = Some l -> l <> []) ->
    arch_loop run_log_arch log_base i archs false (Some b) d = Return (base_rpms, arch_rpms) ->
    base_rpms = Some b /\
    (forall a, is_Some (arch_rpms !! a) <-> is_Some (d !! a) \/ In a archs) /\
    (forall a l, arch_rpms !! a = Some l -> l <> []).
Proof.
  induction archs as [|arch rest IH]; intros i b d base_rpms arch_rpms Hb Hd H.
  - simpl in H. simplify_eq. split; [done|]. split; [|done].
    intros a. split; [by left|]. by intros [|[]].
  - cbn [arch_loop] in H. destruct (run_log_arch i arch) as [rpms|e]; [|done].
    destruct (Nat.eqb_spec (length rpms) 0) as [|Hlen]; [done|]. cbn [negb] in H.
    rewrite (nonempty_Some b Hb) in H. cbn [negb] in H.
    assert ((if existsb (endswith ("." +:+ arch +:+ ".rpm")) rpms then false else false)
            = false) as Hno by (by destruct (existsb _ rpms)).
    rewrite Hno in H.
    apply IH in H as (Hbase&Hkeys&Hvals); [|done|].
    2:{ intros a l Ha. destruct (decide (arch = a)) as [->|Hne].
        - rewrite lookup_insert_eq in Ha. simplify_eq. by destruct l.
        - rewrite lookup_insert_ne in Ha by done. by eapply Hd. }
    split; [done|]. split; [|done].
    intros a. rewrite Hkeys. destruct (decide (arch = a)) as [->|Hne].
    + rewrite lookup_insert_eq. split; [intros _; right; by left|intros _; left; by eexists].
    + rewrite lookup_insert_ne by done. split.
      * intros [?|?]; [by left|right; by right].
      * intros [?|[?|?]]; [by left|done|by right].
Qed.

(** X28. The targets [build_cmd] builds.  When the loop over the targets ends
    without an exception, the first target has yielded at least one
    package, and these packages are the ones kept for the archive.  If
    none of them is a package of the first target itself (all are
    [noarch]), no other target was built; otherwise every target of the
    list was built, whatever the later targets yielded.  No target is
    recorded with an empty list of packages. *)
Theorem arch_loop_builds_first_or_all first rest base_rpms arch_rpms :
  arch_loop run_log_arch log_base 0 (first :: rest) true None ∅
  = Return (base_rpms, arch_rpms) ->
  exists rpms,
    run_log_arch 0%nat first = Return rpms /\
    rpms <> [] /\
    base_rpms = Some rpms /\
    (forall a l, arch_rpms !! a = Some l -> l <> []) /\
    if existsb (endswith ("." +:+ first +:+ ".rpm")) rpms
    then forall a, is_Some (arch_rpms !! a) <-> In a (first :: rest)
    else arch_rpms = {[ first := rpms ]}.
Proof.
  intros H. cbn [arch_loop] in H.
  destruct (run_log_arch 0%nat first) as [rpms|e]; [|done].
  destruct (Nat.eqb_spec (length rpms) 0) as [|Hlen]; [done|]. cbn [negb nonempty] in H.
  assert (rpms <> []) as Hne by (by destruct rpms).
  exists rpms. split; [done|]. split; [done|].
  destruct (existsb (endswith ("." +:+ first +:+ ".rpm")) rpms).
  - apply arch_loop_all in H as (Hbase&Hkeys&Hvals); [|done|].
    2:{ intros a l Ha. destruct (decide (first = a)) as [->|Hna].
        - rewrite lookup_insert_eq in Ha. by simplify_eq.
        - rewrite lookup_insert_ne in Ha by done. by rewrite lookup_empty in Ha. }
    split; [done|]. split; [done|].
    intros a. rewrite Hkeys. destruct (decide (first = a)) as [->|Hna].
    + rewrite lookup_insert_eq. split; [intros _; by left|intros _; left; by eexists].
    + rewrite lookup_insert_ne, lookup_empty by done. split.
      * intros [[? ?]|?]; [done|by right].
      * intros [?|?]; [done|by right].
  - simplify_eq. split; [done|]. split; [|done].
    intros a l Ha. destruct (decide (first = a)) as [->|Hna].
    + rewrite lookup_insert_eq in Ha. by simplify_eq.
    + rewrite lookup_insert_ne in Ha by done. by rewrite lookup_empty in Ha.
Qed.

End ArchsFacts.

End BuildArchsFacts.

(** ** Start-up *)

Module StartupFacts.
Import PyStr ConfigStore Startup.

Lemma used_macros_NoDup : NoDup g_rpmbuild_used_macros.
Proof. by apply (bool_decide_unpack _). Qed.

Lemma store_fields_spec g_rpm fields :
  forall i w,
    (i + length fields <= length g_rpmbuild_used_macros)%nat ->
    exists w',
      store_fields g_rpm i fields w = (Return (), w') /\
      trace w' = trace w /\
      (forall l, l <> g_rpm -> heap w' !! l = heap w !! l) /\
      (forall j name v,
         g_rpmbuild_used_macros !! (i + j)%nat = Some name -> fields !! j = Some v ->
         (heap w' !!! g_rpm) !! name = Some v) /\
      (forall j name,
         (j < i)%nat -> g_rpmbuild_used_macros !! j = Some name ->
         (heap w' !!! g_rpm) !! name = (heap w !!! g_rpm) !! name).
Proof.
  induction fields as [|m rest IH]; intros i w Hlen.
  - exists w. split; [done|]. split; [done|]. split; [done|]. split; [|done].
    intros j name v _ Hj. by rewrite lookup_nil in Hj.
  - cbn [store_fields]. cbn [length] in Hlen.
    destruct (lookup_lt_is_Some_2 g_rpmbuild_used_macros i) as [name Hname]; [lia|].
    rewrite Hname.
    destruct (IH (S i) (set_macro g_rpm name m w)) as (w'&Hr&Htr&Hheap&Hnew&Hold); [lia|].
    exists w'. split; [done|]. split; [done|]. split.
    { intros l Hl. rewrite (Hheap l Hl). unfold set_macro. simpl.
      by rewrite lookup_insert_ne. }
    split.
    + intros j name' v Hj Hv. destruct j as [|j].
      * rewrite Nat.add_0_r in Hj. simpl in Hv. injection Hv as <-.
        rewrite Hname in Hj. injection Hj as <-.
        rewrite (Hold i name (Nat.lt_succ_diag_r i) Hname).
        unfold set_macro. simpl. rewrite lookup_total_insert_eq. apply lookup_insert_eq.
      * apply (Hnew j name' v); [|done].
        by replace (S i + j)%nat with (i + S j)%nat by lia.
    + intros j name' Hj Hname'. rewrite (Hold j name') by (done || lia).
      unfold set_macro. simpl. rewrite lookup_total_insert_eq.
      apply lookup_insert_ne. intros ->.
      pose proof (NoDup_lookup _ _ _ _ used_macros_NoDup Hname Hname'). lia.
Qed.

Lemma store_fields_too_many g_rpm fields :
  forall i w,
    (i <= length g_rpmbuild_used_macros)%nat ->
    (length g_rpmbuild_used_macros < i + length fields)%nat ->
    (store_fields g_rpm i fields w).1 = Raise IndexError.
Proof.
  induction fields as [|m rest IH]; intros i w Hi Hlen.
  - cbn [length] in Hlen. lia.
  - cbn [store_fields]. destruct (g_rpmbuild_used_macros !! i) as [name|] eqn:Hname; [|done].
    apply lookup_lt_Some in Hname. apply IH; [lia|]. cbn [length] in Hlen. lia.
Qed.

(** X29. At start-up one run of the builder evaluates the six macros the script
    uses.  When its output has at most six fields, each field is stored in
    the macro dictionary under the name at its position; the command is the
    only one run and no other dictionary is touched.  When the output has more than six fields, as when a value
    holds the separator, the loop ends in an [IndexError]. *)
Theorem preevaluate_caches_fields os g_rpm w out :
  execute os (trace w) (Argv eval_all) = Exited 0 out ->
  if (length (split "|" (strip out)) <=? length g_rpmbuild_used_macros)%nat then
    exists w',
      preevaluate os g_rpm w = (Return (), w') /\
      trace w' = Argv eval_all :: trace w /\
      (forall l, l <> g_rpm -> heap w' !! l = heap w !! l) /\
      forall j name v,
        g_rpmbuild_used_macros !! j = Some name ->
        split "|" (strip out) !! j = Some v ->
        (heap w' !!! g_rpm) !! name = Some v
  else (preevaluate os g_rpm w).1 = Raise IndexError.
Proof.
  intros Hex. unfold preevaluate, command_output, check_output. rewrite Hex.
  cbn [Z.eqb]. destruct (Nat.leb_spec (length (split "|" (strip out)))
                           (length g_rpmbuild_used_macros)) as [Hle|Hgt].
  - destruct (store_fields_spec g_rpm (split "|" (strip out)) 0%nat
                {| heap := heap w; trace := Argv eval_all :: trace w |})
      as (w'&Hr&Htr&Hheap&Hnew&_); [lia|].
    exists w'. split; [done|]. split; [done|]. split; [done|].
    intros j name v Hname Hv. by apply (Hnew j).
  - apply store_fields_too_many; lia.
Qed.

End StartupFacts.

(** ** Build: an existing summary *)

Module BuildGuardFacts.
Import PyStr FS Summary Build.

Section GuardFacts.
Variable P : PyNum.
Variable now : pyfloat P.

(** X30. Without [-f], [build_cmd] does not touch a package that has a build
    summary: however far the run gets, the file system stays as it was, and
    a run that is not cut short ends in an [Error] with a hint, before the
    log directory is removed and before the builder is started. *)
Theorem build_cmd_keeps_existing_build (s : gmap string (entry P)) budget
    g_log_dir spec_base g_username g_hostname time_time builder :
  isfile P s (path_join (path_join (path_join g_log_dir "build") spec_base) "summary") = true ->
  final_fs P (build_cmd P now false g_log_dir spec_base g_username g_hostname time_time
                builder s budget) = s /\
  ((2 <= budget)%nat ->
   exists msg hint,
     build_cmd P now false g_log_dir spec_base g_username g_hostname time_time builder s budget
     = Finished (Raise (Error None msg (Some hint))) s (budget - 2)).
Proof.
  intros Hfile. unfold build_cmd.
  set (summary := path_join (path_join (path_join g_log_dir "build") spec_base) "summary") in *.
  assert (exists lines, open_r P s summary = Return lines) as [lines Hlines].
  { unfold open_r, isfile in *. destruct (s !! summary) as [[[c|] m n]|]; [by eexists|done|done]. }
  destruct budget as [|[|budget]].
  - split; [done|lia].
  - split; [|lia]. unfold bind, step. by rewrite Hfile.
  - unfold bind, step. rewrite Hfile, Hlines. split; [done|]. intros _.
    eexists _, _. cbn [Nat.sub]. rewrite Nat.sub_0_r. reflexivity.
Qed.

End GuardFacts.

End BuildGuardFacts.

(** ** Start-up: a macro of the spec directories is evaluated twice *)

Module StartupRunFacts.
Import PyStr ConfigStore ConfigRefs ConfigLists Startup ConfigInv StartupRun.

Lemma builder_evals_app name new tr :
  builder_evals name (new ++ tr) = (builder_evals name new + builder_evals name tr)%nat.
Proof. unfold builder_evals. by rewrite filter_app, length_app. Qed.

Lemma builder_evals_extends l w w' name :
  extends l w w' -> (builder_evals name (trace w) <= builder_evals name (trace w'))%nat.
Proof. intros ([new ->]&_). rewrite builder_evals_app. lia. Qed.

Lemma builder_evals_eval_macro name tr :
  builder_evals name (Argv (eval_macro name) :: tr) = S (builder_evals name tr).
Proof.
  unfold builder_evals. rewrite filter_cons_True; [done|].
  unfold evaluates. by rewrite bool_decide_eq_true_2.
Qed.

Lemma builder_evals_eval_all name tr :
  In name g_rpmbuild_used_macros ->
  builder_evals name (Argv eval_all :: tr) = S (builder_evals name tr).
Proof.
  intros Hin. unfold builder_evals. rewrite filter_cons_True; [done|].
  unfold evaluates. rewrite (bool_decide_eq_true_2 (Argv eval_all = Argv eval_all)) by done.
  rewrite (bool_decide_eq_true_2 (name ∈ g_rpmbuild_used_macros)).
  - by rewrite orb_true_r.
  - by apply list_elem_of_In.
Qed.

Lemma accounted_refl l w : accounted l w w.
Proof.
  split; [apply ConfigInvFacts.extends_refl|]. intros name Hnone [v Hv]. congruence.
Qed.

Lemma accounted_trans l a b c : accounted l a b -> accounted l b c -> accounted l a c.
Proof.
  intros [Hab Hnew1] [Hbc Hnew2]. split; [by eapply ConfigInvFacts.extends_trans|].
  intros name Hnone Hsome.
  pose proof (builder_evals_extends l a b name Hab).
  pose proof (builder_evals_extends l b c name Hbc).
  destruct ((heap b !!! l) !! name) as [v|] eqn:Hb.
  - assert (builder_evals name (trace a) < builder_evals name (trace b))%nat
      by (apply Hnew1; [done|by eexists]).
    lia.
  - assert (builder_evals name (trace b) < builder_evals name (trace c))%nat
      by (by apply Hnew2).
    lia.
Qed.

Lemma accounted_run l w c : accounted l w {| heap := heap w; trace := c :: trace w |}.
Proof.
  split; [apply ConfigInvFacts.extends_run|]. simpl. intros name Hnone [v Hv]. congruence.
Qed.

Lemma accounted_eval l w name sub :
  (heap w !!! l) !! name = None ->
  accounted l w
    (set_macro l name sub {| heap := heap w; trace := Argv (eval_macro name) :: trace w |}).
Proof.
  intros Hnone. split.
  - eapply ConfigInvFacts.extends_trans; [apply ConfigInvFacts.extends_run|].
    by apply ConfigInvFacts.extends_set_macro.
  - intros other Ho [v Hv]. unfold set_macro in *. simpl in *.
    rewrite lookup_total_insert_eq in Hv.
    destruct (decide (name = other)) as [->|Hne].
    + rewrite builder_evals_eval_macro. lia.
    + rewrite lookup_insert_ne in Hv by done. congruence.
Qed.

Section RunFacts.
Variable os : OS.

Lemma resolve_accounted rec self w section f_section f_option r self' w' :
  accounted_ok rec ->
  resolve os rec self w section f_section f_option = Some (r, self', w') ->
  accounted (rpm_macros self) w w'.
Proof.
  intros Hrec H. unfold resolve in H.
  destruct (String.eqb f_section "ENV:").
  { repeat case_match; simplify_eq; apply accounted_refl. }
  destruct (String.eqb f_section "SHELL:").
  { unfold shell_output, check_output in H.
    repeat case_match; simplify_eq; apply accounted_run. }
  destruct (String.eqb f_section "RPM:"); [|by eapply Hrec].
  destruct ((heap w !!! rpm_macros self) !! f_option) eqn:Hcache.
  { simplify_eq. apply accounted_refl. }
  unfold command_output, check_output in H.
  repeat case_match; simplify_eq; try apply accounted_run.
  by apply accounted_eval.
Qed.

Lemma get_loop_accounted rec section opt matches :
  frame rec -> accounted_ok rec ->
  forall ret self w r self' w',
    get_loop os rec section opt matches ret self w = Some (r, self', w') ->
    accounted (rpm_macros self) w w'.
Proof.
  intros Hframe Hrec. induction matches as [|[fs fo] rest IH]; intros ret self w r self' w' H.
  - simpl in H. simplify_eq. apply accounted_refl.
  - simpl in H. case_match; [|simplify_eq; apply accounted_refl].
    destruct (resolve os rec _ w section fs fo) as [[[[sub|e] self1] w1]|] eqn:Hres;
      [| |done].
    + pose proof (resolve_accounted _ _ _ _ _ _ _ _ _ Hrec Hres) as Hacc.
      apply (ConfigFacts.resolve_frame _ _ _ _ _ _ _ _ _ _ Hframe) in Hres as [(Hm&_) _].
      apply IH in H. simpl in Hm, Hacc. rewrite <- Hm in H.
      by eapply accounted_trans.
    + simplify_eq. by apply (resolve_accounted _ _ _ _ _ _ _ _ _ Hrec Hres).
Qed.

Lemma get_fuel_accounted fuel vars raw :
  accounted_ok (fun self w s o => get_fuel os fuel vars raw self w s (Some o)).
Proof.
  revert raw. induction fuel as [|fuel IH]; intros raw self w s o r self' w' H; [done|].
  simpl in H. repeat (case_match; simplify_eq); try apply accounted_refl.
  all: by eapply get_loop_accounted;
    [apply (ConfigFacts.get_fuel_frame os fuel vars false)|apply (IH false)|].
Qed.

Lemma get_accounted cfg w section opt r cfg' w' :
  get os cfg w section opt = Some (r, cfg', w') ->
  accounted (rpm_macros cfg) w w'.
Proof.
  intros H. unfold get, get_bound in H. cbn [get_fuel] in H.
  repeat (case_match; simplify_eq); try apply accounted_refl.
  all: match goal with
       | H : get_loop os ?rec _ _ _ _ _ _ = _ |- _ =>
           eapply (get_loop_accounted rec);
           [apply (ConfigFacts.get_fuel_frame os _ ∅ false)
           |apply (get_fuel_accounted _ ∅ false)|exact H]
       end.
Qed.

(** A loop that runs to its end leaves every macro it met in the
    dictionary. *)
Lemma get_loop_caches rec section opt matches :
  frame rec -> accounted_ok rec ->
  forall ret self w v self' w' name,
    get_loop os rec section opt matches ret self w = Some (Return v, self', w') ->
    In ("RPM:", name) matches ->
    is_Some ((heap w' !!! rpm_macros self) !! name).
Proof.
  intros Hframe Hrec. induction matches as [|[fs fo] rest IH];
    intros ret self w v self' w' name H Hin; [done|].
  simpl in H. case_match; [|done].
  destruct (resolve os rec _ w section fs fo) as [[[[sub|e] self1] w1]|] eqn:Hres;
    [|done|done].
  pose proof Hres as Hres'.
  apply (ConfigFacts.resolve_frame _ _ _ _ _ _ _ _ _ _ Hframe) in Hres' as [(Hm&_) _].
  simpl in Hm.
  destruct Hin as [Heq|Hin].
  - simplify_eq.
    assert (is_Some ((heap w1 !!! rpm_macros self) !! name)) as [x Hx].
    { unfold resolve in Hres. cbn [String.eqb Ascii.eqb Bool.eqb] in Hres. simpl in Hres.
      destruct ((heap w !!! rpm_macros self) !! name) eqn:Hc.
      - simplify_eq. by eexists.
      - unfold command_output, check_output in Hres.
        repeat case_match; simplify_eq.
        unfold set_macro. simpl. rewrite lookup_total_insert_eq, lookup_insert_eq.
        by eexists. }
    apply (get_loop_accounted _ _ _ _ Hframe Hrec) in H as [(_&_&Hkeep) _].
    rewrite <- Hm in Hkeep. exists x. by apply Hkeep.
  - rewrite Hm. by eapply IH.
Qed.

(** C10 (what the code does instead).  [Config.get] asks the dictionary
    before it runs the builder, but the start-up does not.  The script
    first reads [general:spec_dirs] through [get] and only then evaluates
    its six macros in one command, whatever the dictionary holds.  So when
    the value of [general:spec_dirs] uses one of these macros, say
    [${RPM:_topdir}], and the start-up gets through, the builder has
    evaluated that macro twice in this one run: once for [get], once in the
    combined command. *)
Theorem startup_evaluates_macro_twice g_config w name raw g_spec_dirs g_config' w' :
  parser_get g_config "general" "spec_dirs" ∅ = Return raw ->
  In ("RPM:", name) (Placeholder.findall raw) ->
  In name g_rpmbuild_used_macros ->
  (heap w !!! rpm_macros g_config) !! name = None ->
  startup os g_config w = Some (Return g_spec_dirs, g_config', w') ->
  (builder_evals name (trace w) + 2 <= builder_evals name (trace w'))%nat.
Proof.
  intros Hraw Hin Hused Hnone H. unfold startup, getlines, getlist in H.
  destruct (get os g_config w "general:spec_dirs" None) as [[[[v|e] c1] w1]|] eqn:Hget;
    [|done|done].
  assert (rpm_macros c1 = rpm_macros g_config) as Hm.
  { apply ConfigFacts.get_fuel_frame' in Hget as [(Hm&_) _]. done. }
  pose proof (get_accounted _ _ _ _ _ _ _ Hget) as [_ Hnew].
  assert (is_Some ((heap w1 !!! rpm_macros g_config) !! name)) as Hcached.
  { unfold get, get_bound in Hget. cbn [get_fuel otruthy] in Hget.
    change (split ":" "general:spec_dirs") with ["general"; "spec_dirs"] in Hget.
    cbv iota beta in Hget. rewrite Hraw in Hget.
    eapply get_loop_caches; [| |exact Hget|exact Hin].
    - apply (ConfigFacts.get_fuel_frame os _ ∅ false).
    - apply (get_fuel_accounted _ ∅ false). }
  specialize (Hnew name Hnone Hcached).
  cbn [py_split nl] in H.
  destruct (spec_dirs_loop [] _) as [dirs|e]; [|done].
  rewrite Hm in H.
  destruct (preevaluate os (rpm_macros g_config) w1) as [[[]|e] w2] eqn:Hpre; [|done].
  simplify_eq.
  assert (trace w' = Argv eval_all :: trace w1) as ->.
  { unfold preevaluate, command_output, check_output in Hpre.
    destruct (execute os (trace w1) (Argv eval_all)) as [errno strerror|status out]; [done|].
    destruct (status =? 0); [|done].
    destruct (Nat.leb_spec (length (split "|" (strip out))) (length g_rpmbuild_used_macros))
      as [Hle|Hgt].
    - destruct (StartupFacts.store_fields_spec (rpm_macros g_config) (split "|" (strip out))
                  0%nat {| heap := heap w1; trace := Argv eval_all :: trace w1 |})
        as (w3&Hr&Htr&_); [lia|].
      rewrite Hr in Hpre. by simplify_eq.
    - assert ((store_fields (rpm_macros g_config) 0 (split "|" (strip out))
                 {| heap := heap w1; trace := Argv eval_all :: trace w1 |}).1
              = Raise IndexError) as Hbad
        by (apply StartupFacts.store_fields_too_many; lia).
      rewrite Hpre in Hbad. discriminate Hbad. }
  rewrite builder_evals_eval_all by done. lia.
Qed.

End RunFacts.

End StartupRunFacts.

(** ** Instances on the sample inputs *)


Example get_self_reference_depth_error :
  ConfigStore.get Samples.os_sample Samples.cfg_sample Samples.world_empty "s" (Some "a")
  = Some (Raise (InterpolationDepthError "a" "s" "${a}"),
          ConfigStore.set_depth 10 Samples.cfg_sample, Samples.world_empty).
Proof. vm_compute. reflexivity. Qed.

Lemma get_without_placeholder_lowers_depth_witness :
  "b" <> "" /\
  ConfigStore.parser_get Samples.cfg_sample "s" "b" ∅ = Return "plain" /\
  Placeholder.findall "plain" = [] /\
  ConfigStore.get Samples.os_sample Samples.cfg_sample Samples.world_empty "s" (Some "b")
  = Some (Return "plain", ConfigStore.set_depth (0 - 1) Samples.cfg_sample,
          Samples.world_empty).
Proof.
  assert ("b" <> "") as H1 by discriminate.
  assert (ConfigStore.parser_get Samples.cfg_sample "s" "b" ∅ = Return "plain") as H2
    by (vm_compute; reflexivity).
  assert (Placeholder.findall "plain" = []) as H3 by reflexivity.
  exact (conj H1 (conj H2 (conj H3
    (ConfigFacts.get_without_placeholder_lowers_depth Samples.os_sample
       Samples.cfg_sample Samples.world_empty "s" "b" "plain" H1 H2 H3)))).
Defined.

(** Ten placeholders in one value, none of them nested, exhaust the
    counter: it is raised for each of them and lowered only after the
    last. *)
Example get_ten_placeholders_depth_error :
  exists ret,
    ConfigStore.get Samples.os_sample Samples.cfg_sample Samples.world_empty "s" (Some "h")
    = Some (Raise (InterpolationDepthError "h" "s" ret),
            ConfigStore.set_depth 10 Samples.cfg_sample, Samples.world_empty).
Proof. eexists. vm_compute. reflexivity. Qed.

Lemma get_shell_nonzero_exit_witness :
  ConfigStore.get Samples.os_sample Samples.cfg_sample Samples.world_empty "s" (Some "d")
  = Some (Raise (CalledProcessError 1 (Shell "false") ""),
          ConfigStore.set_depth (0 + 1) Samples.cfg_sample,
          {| heap := ∅; trace := [Shell "false"] |}) /\
  is_ConfigError (CalledProcessError 1 (Shell "false") "") = false.
Proof.
  apply (ConfigFacts.get_shell_nonzero_exit Samples.os_sample
           Samples.cfg_sample Samples.world_empty "s" "d" "${SHELL:false}" "false" [] 1 "").
  - discriminate.
  - vm_compute; reflexivity.
  - reflexivity.
  - vm_compute; reflexivity.
  - reflexivity.
  - discriminate.
Defined.

Lemma macro_evaluated_at_most_once_witness :
  let ops := [ConfigRefs.OpGet 0 "s" (Some "e"); ConfigRefs.OpDeepcopy 0;
              ConfigRefs.OpGet 1 "s" (Some "e"); ConfigRefs.OpGet 0 "s:e" None] in
  let st := ConfigRefs.run Samples.os_sample Samples.copy_raw ops
              {| ConfigRefs.objects := [Samples.cfg_sample];
                 ConfigRefs.world := Samples.world_empty;
                 ConfigRefs.failure := None |} in
  (forall name, (ConfigRefs.macro_evals name (trace (ConfigRefs.world st)) <= 1)%nat) /\
  Forall (fun c => ConfigStore.rpm_macros c = ConfigStore.rpm_macros Samples.cfg_sample)
    (ConfigRefs.objects st) /\
  (ConfigRefs.failure st = None ->
   forall name, (0 < ConfigRefs.macro_evals name (trace (ConfigRefs.world st)))%nat ->
     is_Some ((heap (ConfigRefs.world st) !!! ConfigStore.rpm_macros Samples.cfg_sample)
                !! name)).
Proof.
  apply (CacheFacts.macro_evaluated_at_most_once Samples.os_sample Samples.copy_raw).
  intros name. change (trace Samples.world_empty) with (@nil command).
  unfold ConfigRefs.macro_evals. rewrite filter_nil. simpl.
  split; [lia|intros H; lia].
Defined.

Example macro_empty_string_cached :
  let ops := [ConfigRefs.OpGet 0 "s" (Some "e"); ConfigRefs.OpDeepcopy 0;
              ConfigRefs.OpGet 1 "s" (Some "e"); ConfigRefs.OpGet 0 "s:e" None] in
  let st := ConfigRefs.run Samples.os_sample Samples.copy_raw ops
              {| ConfigRefs.objects := [Samples.cfg_sample];
                 ConfigRefs.world := Samples.world_empty;
                 ConfigRefs.failure := None |} in
  ConfigRefs.failure st = None /\
  trace (ConfigRefs.world st) = [Argv (ConfigStore.eval_macro "x")] /\
  (heap (ConfigRefs.world st) !!! 0%nat) !! "x" = Some "".
Proof. vm_compute. repeat split; reflexivity. Qed.

(** C1 (as stated). The last command exits with status 1 and the run does
    not fail; the first command exits with status 1, the last with 0, and
    the run fails. *)
Lemma run_pipe_last_status_ignored :
  (Pipeline.wait Samples.pipe_last_fails 1 <> 0 /\
   ~ Pipeline.raises_RunError
       (Pipeline.run_pipe Samples.no_findall Samples.pipe_last_fails
          Samples.globals_sample Samples.unpack None None).1) /\
  (Pipeline.wait Samples.pipe_first_fails 1 = 0 /\
   Pipeline.raises_RunError
     (Pipeline.run_pipe Samples.no_findall Samples.pipe_first_fails
        Samples.globals_sample Samples.unpack None None).1).
Proof.
  split; split.
  - discriminate.
  - intros (cmd&msg&hint&lf&H). vm_compute in H. discriminate.
  - reflexivity.
  - eexists _, _, _, _. vm_compute. reflexivity.
Qed.

Lemma run_pipe_fails_iff_first_status_witness :
  Pipeline.raises_RunError
    (Pipeline.run_pipe Samples.no_findall Samples.pipe_first_fails
       Samples.globals_sample Samples.unpack None None).1
  <-> Pipeline.wait Samples.pipe_first_fails 0 <> 0.
Proof.
  apply (PipelineFacts.run_pipe_fails_iff_first_status Samples.no_findall
           Samples.pipe_first_fails Samples.globals_sample Samples.unpack None None).
  - simpl. lia.
  - reflexivity.
Defined.

Lemma run_pipe_log_failure_raises_TypeError_witness :
  exists msg middle,
    Pipeline.run_pipe_log Samples.no_findall Samples.pipe_first_fails
      Samples.globals_sample "os2.log" Samples.unpack None
    = (Raise (TypeError "__init__() got an unexpected keyword argument 'log_file'"),
       (Pipeline.LogFile "os2.log", Pipeline.start_line Samples.pipe_first_fails Samples.unpack)
       :: middle
       ++ [(Pipeline.LogFile "os2.log", Pipeline.end_line Samples.pipe_first_fails msg)]).
Proof.
  apply (PipelineFacts.run_pipe_log_failure_raises_TypeError Samples.no_findall
           Samples.pipe_first_fails Samples.globals_sample "os2.log" Samples.unpack None).
  - reflexivity.
  - eexists _, _, _, _. vm_compute. reflexivity.
Defined.

Example run_pipe_log_failure_log :
  (Pipeline.run_pipe_log Samples.no_findall Samples.pipe_first_fails
     Samples.globals_sample "os2.log" Samples.unpack None).2
  = [(Pipeline.LogFile "os2.log",
      "[2017-01-01 00:00:00, rpm2cpio.exe a.rpm | cpio.exe -idm]" +:+ nl);
     (Pipeline.LogFile "os2.log", "Wrote: a.rpm" +:+ nl);
     (Pipeline.LogFile "os2.log", "[2017-01-01 00:00:01, exit code 1, 0:00:01.5 s]" +:+ nl)].
Proof. vm_compute. reflexivity. Qed.

Lemma read_build_summary_mismatch_witness :
  exists what,
    (what = "mtime" \/ what = "size") /\
    Summary.read_build_summary Samples.seconds Samples.fs_touched "foo" None
      Samples.group_sample
    = Raise (Error
               (Some (PyStr.path_join
                        (PyStr.path_join (Summary.rc_log Samples.local_repo) "foo") "summary"
                      +:+ ":" +:+ pretty (S (2 + length [nth 2 Samples.summary_lines ""]))))
               (nl +:+ "Recorded " +:+ what +:+ " differs from actual for `%s`") None).
Proof.
  eapply (SummaryFacts.read_build_summary_mismatch Samples.seconds Samples.fs_touched
            "foo" None Samples.group_sample Samples.local_repo Samples.summary_lines
            [nth 2 Samples.summary_lines ""] (nth 3 Samples.summary_lines "") []
            _ "/rpmbuild/zip/foo-1_2-3_oc00.zip" 1500000002 2000
            (Samples.file_of [] 1500000009 2000)).
  - vm_compute; reflexivity.
  - vm_compute; reflexivity.
  - split; [vm_compute; reflexivity|].
    exists "builder@host", "1500000000.0", 1500000000.
    repeat split; vm_compute; reflexivity.
  - reflexivity.
  - vm_compute; reflexivity.
  - exists "zip", "foo-1_2-3_oc00.zip", "1500000002.0", "2000".
    repeat split; vm_compute; reflexivity.
  - vm_compute; reflexivity.
  - left. vm_compute; reflexivity.
Defined.

Example read_build_summary_touched :
  Summary.read_build_summary Samples.seconds Samples.fs_touched "foo" None
    Samples.group_sample
  = Raise (Error (Some "/rpmbuild/logs/build/foo/summary:4")
             (nl +:+ "Recorded mtime differs from actual for `%s`") None).
Proof. vm_compute. reflexivity. Qed.

Example read_build_summary_deleted :
  Summary.read_build_summary Samples.seconds Samples.fs_deleted "foo" None
    Samples.group_sample
  = Raise (Error None
             ("/rpmbuild/logs/build/foo/summary:4:" +:+ nl +:+
              "[Errno 2] No such file or directory: '/rpmbuild/zip/foo-1_2-3_oc00.zip'")
             None).
Proof. vm_compute. reflexivity. Qed.



Lemma move_cmd_copy_first_key_twice_witness :
  exists more,
    (Promotion.move_cmd_copy Samples.seconds Samples.fs_built (Samples.repo_at "/repo/dev")
       Samples.rpms_sample ["srpm"; "zip"] [] []).2
    = ([("/rpmbuild/SRPMS/foo-1.2-3.oc00.src.rpm", "/repo/dev/srpm")]
       ++ [("/rpmbuild/SRPMS/foo-1.2-3.oc00.src.rpm", "/repo/dev/srpm")] ++ more)%list.
Proof.
  eapply (PromotionFacts.move_cmd_copy_first_key_twice Samples.seconds Samples.fs_built
            (Samples.repo_at "/repo/dev") Samples.rpms_sample "srpm" "zip" []).
  - vm_compute. reflexivity.
  - vm_compute. reflexivity.
Defined.

(** The summary of the sample build lists a source package and an archive.
    Whichever of the two keys comes first, the file under it is copied
    twice. *)
Example move_cmd_copy_repeats :
  (Promotion.move_cmd_copy Samples.seconds Samples.fs_built (Samples.repo_at "/repo/dev")
     Samples.rpms_sample ["srpm"; "zip"] [] []).2
  = [("/rpmbuild/SRPMS/foo-1.2-3.oc00.src.rpm", "/repo/dev/srpm");
     ("/rpmbuild/SRPMS/foo-1.2-3.oc00.src.rpm", "/repo/dev/srpm");
     ("/rpmbuild/zip/foo-1_2-3_oc00.zip", "/repo/dev/zip")] /\
  (Promotion.move_cmd_copy Samples.seconds Samples.fs_built (Samples.repo_at "/repo/dev")
     Samples.rpms_sample ["zip"; "srpm"] [] []).2
  = [("/rpmbuild/zip/foo-1_2-3_oc00.zip", "/repo/dev/zip");
     ("/rpmbuild/zip/foo-1_2-3_oc00.zip", "/repo/dev/zip");
     ("/rpmbuild/SRPMS/foo-1.2-3.oc00.src.rpm", "/repo/dev/srpm")].
Proof. split; vm_compute; reflexivity. Qed.

Example move_cmd_copy_missing_directory :
  (Promotion.move_cmd_copy Samples.seconds Samples.fs_built (Samples.repo_at "/repo/staging")
     Samples.rpms_sample ["srpm"; "zip"] [] []).1.1
  = Raise (Error (Some "/repo/staging/srpm") "Not a directory" None).
Proof. vm_compute. reflexivity. Qed.

(** C4 (as stated, for the build as a whole). The local build of [foo] has
    a summary.  A forced build removes the log directory of the spec, the
    summary with it, before the builder runs: when the builder then fails,
    or when the process is cut short while the new summary is being
    staged, the previous summary is gone although no rename has taken
    place. *)
Lemma build_cmd_forced_failure_loses_summary :
  FS.isfile Samples.seconds Samples.fs_built "/rpmbuild/logs/build/foo/summary" = true /\
  (let r := Build.build_cmd Samples.seconds 7 true "/rpmbuild/logs" "foo" "builder" "host" 8
              Samples.builder_fails Samples.fs_built 100%nat in
   match r with
   | Build.Finished (Raise (TypeError _)) _ _ => True
   | _ => False
   end /\
   Build.final_fs Samples.seconds r !! "/rpmbuild/logs/build/foo/summary" = None) /\
  (let r := Build.build_cmd Samples.seconds 7 true "/rpmbuild/logs" "foo" "builder" "host" 8
              Samples.builder_ok Samples.fs_built 9%nat in
   match r with
   | Build.Crashed _ => True
   | _ => False
   end /\
   Build.final_fs Samples.seconds r !! "/rpmbuild/logs/build/foo/summary" = None /\
   FS.isfile Samples.seconds (Build.final_fs Samples.seconds r)
     "/rpmbuild/logs/build/foo/summary.tmp" = true).
Proof.
  split; [vm_compute; reflexivity|]. split; cbv zeta.
  - split; [vm_compute; exact I|vm_compute; reflexivity].
  - split; [vm_compute; exact I|]. split; vm_compute; reflexivity.
Qed.

Example build_cmd_success :
  let r := Build.build_cmd Samples.seconds 7 true "/rpmbuild/logs" "foo" "builder" "host" 8
             Samples.builder_ok Samples.fs_built 100%nat in
  FS.kind Samples.seconds
    <$> (Build.final_fs Samples.seconds r !! "/rpmbuild/logs/build/foo/summary")
  = Some (FS.File ["1.2-3.oc00" +:+ nl; "builder@host|8.0" +:+ nl;
                   "srpm|foo-1.2-3.oc00.src.rpm|1500000001.0|1000" +:+ nl;
                   "zip|foo-1_2-3_oc00.zip|1500000002.0|2000" +:+ nl]) /\
  Build.final_fs Samples.seconds r !! "/rpmbuild/logs/build/foo/summary.tmp" = None.
Proof. cbv zeta. split; vm_compute; reflexivity. Qed.

Example build_cmd_refused_without_force :
  match Build.build_cmd Samples.seconds 7 false "/rpmbuild/logs" "foo" "builder" "host" 8
          Samples.builder_ok Samples.fs_built 100%nat with
  | Build.Finished (Raise (Error None _ (Some _))) s _ =>
      s !! "/rpmbuild/logs/build/foo/summary"
      = Samples.fs_built !! "/rpmbuild/logs/build/foo/summary"
  | _ => False
  end.
Proof. vm_compute. reflexivity. Qed.

(** ** Further instances on the sample inputs *)

Lemma get_keeps_options_and_cached_macros_witness :
  ConfigRefs.same_store Samples.cfg_sample (ConfigStore.set_depth 1 Samples.cfg_sample) /\
  ConfigInv.extends (ConfigStore.rpm_macros Samples.cfg_sample) Samples.world_empty
    {| heap := {[ 0%nat := {[ "x" := "" ]} ]};
       trace := [Argv (ConfigStore.eval_macro "x")] |}.
Proof.
  apply (ConfigInvFacts.get_keeps_options_and_cached_macros Samples.os_sample
           Samples.cfg_sample Samples.world_empty "s" (Some "e") (Return "")).
  vm_compute. reflexivity.
Defined.

Lemma get_raises_no_RunError_witness :
  ConfigInv.get_exn (CalledProcessError 1 (Shell "false") "") = true /\
  (Main.exit_code (CalledProcessError 1 (Shell "false") "") = 1 \/
   Main.exit_code (CalledProcessError 1 (Shell "false") "") = 127) /\
  (Main.exit_code (CalledProcessError 1 (Shell "false") "") = 1 <->
   is_ConfigError (CalledProcessError 1 (Shell "false") "") = true).
Proof.
  apply (ConfigInvFacts.get_raises_no_RunError Samples.os_sample
           Samples.cfg_sample Samples.world_empty "s" (Some "d")
           (CalledProcessError 1 (Shell "false") "")
           (ConfigStore.set_depth 1 Samples.cfg_sample)
           {| heap := ∅; trace := [Shell "false"] |}).
  vm_compute. reflexivity.
Defined.

Lemma get_cached_runs_nothing_witness :
  ConfigStore.get Samples.os_sample Samples.cfg_more Samples.world_more "t" (Some "top")
  = Some (Return "/rpmbuild/logs", ConfigStore.set_depth 0 Samples.cfg_more,
          Samples.world_more) /\
  Samples.world_more = Samples.world_more.
Proof.
  assert (ConfigStore.get Samples.os_sample Samples.cfg_more Samples.world_more "t" (Some "top")
          = Some (Return "/rpmbuild/logs", ConfigStore.set_depth 0 Samples.cfg_more,
                  Samples.world_more)) as H by (vm_compute; reflexivity).
  split; [exact H|].
  apply (ConfigInvFacts.get_cached_runs_nothing Samples.os_sample
           Samples.cfg_more Samples.world_more "t" "top" "${RPM:_topdir}/logs"
           (Return "/rpmbuild/logs") (ConfigStore.set_depth 0 Samples.cfg_more)).
  - discriminate.
  - vm_compute; reflexivity.
  - change (Placeholder.findall "${RPM:_topdir}/logs") with [("RPM:", "_topdir")].
    constructor; [|constructor]. right. split; [reflexivity|].
    exists "/rpmbuild". vm_compute; reflexivity.
  - exact H.
Defined.

Lemma get_env_unset_or_empty_witness :
  ConfigStore.get Samples.os_sample Samples.cfg_more Samples.world_more "t" (Some "env")
  = Some (Raise (NoOptionError "NOPE" "ENV"),
          ConfigStore.set_depth (ConfigStore.get_depth Samples.cfg_more + 1) Samples.cfg_more,
          Samples.world_more).
Proof.
  apply (ConfigInvFacts.get_env_unset_or_empty Samples.os_sample
           Samples.cfg_more Samples.world_more "t" "env" "${ENV:NOPE}" "NOPE" []).
  - discriminate.
  - vm_compute; reflexivity.
  - reflexivity.
  - vm_compute; reflexivity.
  - vm_compute; reflexivity.
Defined.

Lemma get_short_form_witness :
  ConfigStore.get Samples.os_sample Samples.cfg_more Samples.world_more
    ("general" +:+ ":" +:+ "archs") None
  = ConfigStore.get Samples.os_sample Samples.cfg_more Samples.world_more
      "general" (Some "archs").
Proof.
  apply (ConfigInvFacts.get_short_form Samples.os_sample
           Samples.cfg_more Samples.world_more "general" "archs").
  - discriminate.
  - reflexivity.
  - reflexivity.
Defined.

Lemma get_short_form_two_colons_witness :
  ConfigStore.get Samples.os_sample Samples.cfg_more Samples.world_more
    ("repository.grp" +:+ ":" +:+ "dev" +:+ ":" +:+ "layout") None
  = Some (Raise ValueError, Samples.cfg_more, Samples.world_more).
Proof.
  apply (ConfigInvFacts.get_short_form_two_colons Samples.os_sample
           Samples.cfg_more Samples.world_more "repository.grp" "dev" "layout").
  - reflexivity.
  - reflexivity.
Defined.

Lemma get_direct_self_reference_witness :
  ConfigStore.get Samples.os_sample Samples.cfg_sample Samples.world_empty "s" (Some "a")
  = Some (Raise (InterpolationDepthError "a" "s" "${a}"),
          ConfigStore.set_depth
            (Z.max (ConfigStore.get_depth Samples.cfg_sample + 1)
               ConfigStore.MAX_INTERPOLATION_DEPTH) Samples.cfg_sample,
          Samples.world_empty).
Proof.
  apply (ConfigFacts.get_direct_self_reference Samples.os_sample
           Samples.cfg_sample Samples.world_empty "s" "a" "${a}" "" []).
  - discriminate.
  - vm_compute; reflexivity.
  - reflexivity.
  - reflexivity.
  - reflexivity.
Defined.

Lemma get_shell_success_witness :
  ConfigStore.get Samples.os_sample Samples.cfg_more Samples.world_more "t" (Some "sh")
  = Some (Return (PyStr.replace ("${SHELL:" +:+ "echo out" +:+ "}")
                    (PyStr.strip (" out" +:+ nl)) "${SHELL:echo out}"),
          ConfigStore.set_depth (ConfigStore.get_depth Samples.cfg_more) Samples.cfg_more,
          {| heap := heap Samples.world_more;
             trace := Shell "echo out" :: trace Samples.world_more |}).
Proof.
  apply (ConfigFacts.get_shell_success Samples.os_sample
           Samples.cfg_more Samples.world_more "t" "sh" "${SHELL:echo out}" "echo out"
           (" out" +:+ nl)).
  - discriminate.
  - vm_compute; reflexivity.
  - reflexivity.
  - vm_compute; reflexivity.
  - reflexivity.
Defined.

Lemma get_shell_cannot_start_witness :
  exists msg cfg' w',
    ConfigStore.get Samples.os_sample Samples.cfg_more Samples.world_more "t" (Some "nosh")
    = Some (Raise (InterpolationError "t" "nosh" msg), cfg', w').
Proof.
  apply (ConfigFacts.get_shell_cannot_start Samples.os_sample
           Samples.cfg_more Samples.world_more "t" "nosh" "${SHELL:nosh}" "nosh" []
           2 "No such file or directory").
  - discriminate.
  - vm_compute; reflexivity.
  - reflexivity.
  - vm_compute; reflexivity.
  - reflexivity.
Defined.


Example spec_dirs_loop_groups_sample :
  ConfigLists.spec_dirs_loop [] ["/specs"; "+ /specs/extra"; "/other"]
  = Return [["/specs"; "/specs/extra"]; ["/other"]].
Proof. reflexivity. Qed.

Lemma log_writes_terminated_line_once_witness :
  exists line written,
    Logging.log Samples.globals_sample "Spec file       : foo.spec" = (Return (), written) /\
    (line = "Spec file       : foo.spec" \/ line = "Spec file       : foo.spec" +:+ nl) /\
    Logging.last_char line = Some Placeholder.newline /\
    written <> [] /\
    Forall (fun sl => sl.2 = line) written /\
    (Pipeline.g_output_file Samples.globals_sample <> Some Pipeline.Stdout ->
     NoDup (map fst written)).
Proof.
  apply (LoggingFacts.log_writes_terminated_line_once Samples.globals_sample
           "Spec file       : foo.spec").
  discriminate.
Defined.

Lemma log_kind_punctuated_witness :
  exists body c written,
    Logging.log_kind Samples.globals_sample "ERROR" (Some "config") (Some "bad value")
    = (Return (), written) /\
    Logging.punctuation c = true /\
    written <> [] /\
    Forall (fun sl => sl.2 = "ERROR" +:+ ": " +:+ body +:+ String c nl) written.
Proof.
  apply (LoggingFacts.log_kind_punctuated Samples.globals_sample "ERROR"
           (Some "config") (Some "bad value")).
  left. reflexivity.
Defined.

Example log_kind_sample :
  Logging.log_kind Samples.globals_sample "ERROR" (Some "config") (Some "bad value")
  = (Return (),
     [(Pipeline.Stdout, "ERROR: config: bad value." +:+ nl);
      (Pipeline.LogFile "rpmbuild-bot2.log", "ERROR: config: bad value." +:+ nl)]).
Proof. reflexivity. Qed.

Lemma func_log_failure_carries_log_file_witness :
  exists detail,
    Logging.func_log (Samples.pipe_os [0]) Samples.format_exc_sample Samples.globals_sample
      None "/rpmbuild/logs/build/foo/zip.log" "<function gen_zip>" Samples.gen_zip_fails
    = (Some (Logging.Raised
               (RunError "<function gen_zip>"
                  ("exception " +:+
                   Logging.exn_name
                     (RunError "zip -mry9 foo.zip @unixroot" "exit code 12" None None))
                  None (Some "/rpmbuild/logs/build/foo/zip.log"))),
       (Pipeline.LogFile "/rpmbuild/logs/build/foo/zip.log",
        "[" +:+ Pipeline.start_ts (Samples.pipe_os [0]) +:+ ", Python " +:+
        "<function gen_zip>" +:+ "]" +:+ nl)
       :: [(Pipeline.LogFile "/rpmbuild/logs/build/foo/zip.log", "Creating `foo.zip`..." +:+ nl)]
       ++ [(Pipeline.LogFile "/rpmbuild/logs/build/foo/zip.log", detail);
           (Pipeline.LogFile "/rpmbuild/logs/build/foo/zip.log",
            Pipeline.end_line (Samples.pipe_os [0])
              ("exception " +:+
               Logging.exn_name
                 (RunError "zip -mry9 foo.zip @unixroot" "exit code 12" None None)))],
       Logging.set_output_file None Samples.globals_sample) /\
    Pipeline.g_output_file (Logging.set_output_file None Samples.globals_sample) = None /\
    Main.exit_code
      (RunError "<function gen_zip>"
         ("exception " +:+
          Logging.exn_name (RunError "zip -mry9 foo.zip @unixroot" "exit code 12" None None))
         None (Some "/rpmbuild/logs/build/foo/zip.log")) = 102.
Proof.
  apply (FuncLogFacts.func_log_failure_carries_log_file (Samples.pipe_os [0])
           Samples.format_exc_sample Samples.globals_sample None
           "/rpmbuild/logs/build/foo/zip.log" "<function gen_zip>" Samples.gen_zip_fails
           (RunError "zip -mry9 foo.zip @unixroot" "exit code 12" None None)
           [(Pipeline.LogFile "/rpmbuild/logs/build/foo/zip.log", "Creating `foo.zip`..." +:+ nl)]).
  - reflexivity.
  - reflexivity.
Defined.

Lemma rotate_log_keeps_previous_log_witness :
  exists s',
    LogFiles.rotate_log Samples.seconds Samples.fs_logs "/rpmbuild/logs/test/foo.log"
    = (Return (), s') /\
    s' !! "/rpmbuild/logs/test/foo.log" = None /\
    s' !! ("/rpmbuild/logs/test/foo.log" +:+ ".bak")
    = Some (Samples.file_of ["new" +:+ nl] 1500000005 4) /\
    forall path,
      path <> "/rpmbuild/logs/test/foo.log" ->
      path <> "/rpmbuild/logs/test/foo.log" +:+ ".bak" ->
      s' !! path = Samples.fs_logs !! path.
Proof.
  apply (LogFilesFacts.rotate_log_keeps_previous_log Samples.seconds Samples.fs_logs
           "/rpmbuild/logs/test/foo.log" (Samples.file_of ["new" +:+ nl] 1500000005 4)).
  - vm_compute; reflexivity.
  - vm_compute; reflexivity.
  - vm_compute; reflexivity.
Defined.

Lemma run_pipe_cannot_start_witness :
  (Pipeline.run_pipe Samples.no_findall Samples.pipe_no_cpio Samples.globals_sample
     ([["rpm2cpio.exe"; "a.rpm"]] ++ ["cpio.exe"; "-idm"] :: []) None None).1
  = Raise (RunError (PyStr.join " " ["cpio.exe"; "-idm"])
             ("error " +:+ pretty 2 +:+ " (" +:+ "No such file or directory" +:+ ")")
             None None).
Proof.
  apply (RunnerFacts2.run_pipe_cannot_start Samples.no_findall Samples.pipe_no_cpio
           Samples.globals_sample [["rpm2cpio.exe"; "a.rpm"]] ["cpio.exe"; "-idm"] []
           None None 2 "No such file or directory").
  - intros [|j] cj H; [reflexivity|discriminate H].
  - reflexivity.
Defined.

Lemma run_fails_iff_status_witness :
  (Pipeline.raises_RunError
     (Pipeline.run Samples.no_findall (Samples.pipe_os [3]) Samples.globals_sample
        ["zip"; "-jy9"; "logs.zip"] None).1
   <-> Pipeline.wait (Samples.pipe_os [3]) 0 <> 0) /\
  (Pipeline.wait (Samples.pipe_os [3]) 0 <> 0 ->
   (Pipeline.run Samples.no_findall (Samples.pipe_os [3]) Samples.globals_sample
      ["zip"; "-jy9"; "logs.zip"] None).1
   = Raise (RunError (PyStr.join " " ["zip"; "-jy9"; "logs.zip"])
              ("exit code " +:+ pretty (Pipeline.wait (Samples.pipe_os [3]) 0)) None None)).
Proof.
  apply (RunnerFacts2.run_fails_iff_status Samples.no_findall (Samples.pipe_os [3])
           Samples.globals_sample ["zip"; "-jy9"; "logs.zip"] None).
  reflexivity.
Defined.

Example run_single_command_fails :
  (Pipeline.run Samples.no_findall (Samples.pipe_os [3]) Samples.globals_sample
     ["zip"; "-jy9"; "logs.zip"] None).1
  = Raise (RunError "zip -jy9 logs.zip" "exit code 3" None None).
Proof. vm_compute. reflexivity. Qed.

Lemma run_pipe_log_framed_witness :
  exists msg middle,
    (Pipeline.run_pipe_log Samples.no_findall Samples.pipe_first_fails Samples.globals_sample
       "os2.log" Samples.unpack None).2
    = (Pipeline.LogFile "os2.log", Pipeline.start_line Samples.pipe_first_fails Samples.unpack)
      :: middle ++ [(Pipeline.LogFile "os2.log", Pipeline.end_line Samples.pipe_first_fails msg)].
Proof.
  apply (PipelineFacts.run_pipe_log_framed Samples.no_findall Samples.pipe_first_fails
           Samples.globals_sample "os2.log" Samples.unpack None).
  reflexivity.
Defined.

Lemma read_build_summary_verified_witness :
  exists rc lines,
    Summary.lookup_repo Samples.group_sample None = Return rc /\
    FS.open_r Samples.seconds Samples.fs_built
      (PyStr.path_join (PyStr.path_join (Summary.rc_log rc) "foo") "summary") = Return lines /\
    Forall (Summary.record_verified Samples.seconds Samples.fs_built None Samples.group_sample)
      (drop 2 lines).
Proof.
  apply (SummaryFacts.read_build_summary_verified Samples.seconds Samples.fs_built "foo" None
           Samples.group_sample
           ("1.2-3.oc00", "builder@host", 1500000000, Samples.rpms_sample)).
  vm_compute. reflexivity.
Defined.

Lemma read_build_summary_missing_witness :
  Summary.read_build_summary Samples.seconds Samples.fs_deleted "foo" None
    Samples.group_sample
  = Raise (Error None
             (PyStr.path_join
                (PyStr.path_join (Summary.rc_log Samples.local_repo) "foo") "summary"
              +:+ ":" +:+ pretty (S (2 + length [nth 2 Samples.summary_lines ""]))
              +:+ ":" +:+ nl
              +:+ str_OSError FS.ENOENT FS.no_such_file
                    (Some "/rpmbuild/zip/foo-1_2-3_oc00.zip")) None).
Proof.
  eapply (SummaryFacts.read_build_summary_missing Samples.seconds Samples.fs_deleted
            "foo" None Samples.group_sample Samples.local_repo Samples.summary_lines
            [nth 2 Samples.summary_lines ""] (nth 3 Samples.summary_lines "") []
            _ "/rpmbuild/zip/foo-1_2-3_oc00.zip" 1500000002 2000).
  - vm_compute; reflexivity.
  - vm_compute; reflexivity.
  - split; [vm_compute; reflexivity|].
    exists "builder@host", "1500000000.0", 1500000000.
    repeat split; vm_compute; reflexivity.
  - reflexivity.
  - vm_compute; reflexivity.
  - exists "zip", "foo-1_2-3_oc00.zip", "1500000002.0", "2000".
    repeat split; vm_compute; reflexivity.
  - vm_compute; reflexivity.
Defined.


Lemma read_group_config_entries_witness :
  Summary.gc_repos Samples.group_more <> [] /\
  (forall k, is_Some (Summary.gc_repo Samples.group_more !! k)
             <-> Groups.group_keys Samples.group_more k) /\
  exists topdir rpmdir srcrpmdir,
    (heap Samples.world_more !!! 0%nat) !! "_topdir" = Some topdir /\
    (heap Samples.world_more !!! 0%nat) !! "_rpmdir" = Some rpmdir /\
    (heap Samples.world_more !!! 0%nat) !! "_srcrpmdir" = Some srcrpmdir /\
    Summary.gc_repo Samples.group_more !! Summary.repo_key None
    = Some {| Summary.rc_base := topdir; Summary.rc_rpm := rpmdir;
              Summary.rc_srpm := srcrpmdir; Summary.rc_zip := "/rpmbuild/zip";
              Summary.rc_log := PyStr.path_join "/rpmbuild/logs" "build" |}.
Proof.
  apply (GroupsFacts.read_group_config_entries Samples.os_sample 0 "/rpmbuild/zip"
           "/rpmbuild/logs" "grp" Samples.cfg_more Samples.world_more Samples.group_more
           (ConfigStore.set_depth (-14) Samples.cfg_more) Samples.world_more).
  vm_compute. reflexivity.
Defined.

Lemma upload_finds_its_repositories_witness :
  (exists r to_repo_config,
     Some "dev" = Some r /\ In r (Summary.gc_repos Samples.group_more) /\
     Summary.lookup_repo Samples.group_more (Some "dev") = Return to_repo_config) /\
  exists from_repo_config to_repo_config,
    Upload.move_cmd_repo_configs Samples.seconds Samples.fs_built "upload" "grp" "foo"
      Samples.read_group_more
    = Return (from_repo_config, to_repo_config).
Proof.
  apply (GroupsFacts.upload_finds_its_repositories Samples.seconds Samples.os_sample 0
           "/rpmbuild/zip" "/rpmbuild/logs" Samples.fs_built "grp" "foo"
           Samples.read_group_more Samples.group_more None (Some "dev")).
  - intros group gc H. unfold Samples.read_group_more in H.
    destruct (Groups.read_group_config Samples.os_sample 0 "/rpmbuild/zip" "/rpmbuild/logs"
                group Samples.cfg_more Samples.world_more) as [[[r c'] w']|] eqn:Hr;
      [|discriminate H].
    subst r. exists Samples.cfg_more, Samples.world_more, c', w'. exact Hr.
  - vm_compute. reflexivity.
Defined.

Lemma arch_loop_builds_first_or_all_witness :
  exists rpms,
    Samples.run_log_sample 0%nat "pentium4" = Return rpms /\
    rpms <> [] /\
    Some (["/rpmbuild/RPMS/pentium4/foo-1.2-3.oc00.pentium4.rpm";
           "/rpmbuild/RPMS/noarch/foo-doc-1.2-3.oc00.noarch.rpm"]) = Some rpms /\
    (forall a l,
       ({[ "pentium4" := ["/rpmbuild/RPMS/pentium4/foo-1.2-3.oc00.pentium4.rpm";
                          "/rpmbuild/RPMS/noarch/foo-doc-1.2-3.oc00.noarch.rpm"];
           "i686" := ["/rpmbuild/RPMS/i686/foo-1.2-3.oc00.i686.rpm";
                      "/rpmbuild/RPMS/noarch/foo-doc-1.2-3.oc00.noarch.rpm"] ]}
        : gmap string (list string)) !! a = Some l -> l <> []) /\
    if existsb (PyStr.endswith ("." +:+ "pentium4" +:+ ".rpm")) rpms
    then forall a,
        is_Some (({[ "pentium4" := ["/rpmbuild/RPMS/pentium4/foo-1.2-3.oc00.pentium4.rpm";
                                    "/rpmbuild/RPMS/noarch/foo-doc-1.2-3.oc00.noarch.rpm"];
                     "i686" := ["/rpmbuild/RPMS/i686/foo-1.2-3.oc00.i686.rpm";
                                "/rpmbuild/RPMS/noarch/foo-doc-1.2-3.oc00.noarch.rpm"] ]}
                  : gmap string (list string)) !! a)
        <-> In a ("pentium4" :: ["i686"])
    else ({[ "pentium4" := ["/rpmbuild/RPMS/pentium4/foo-1.2-3.oc00.pentium4.rpm";
                            "/rpmbuild/RPMS/noarch/foo-doc-1.2-3.oc00.noarch.rpm"];
             "i686" := ["/rpmbuild/RPMS/i686/foo-1.2-3.oc00.i686.rpm";
                        "/rpmbuild/RPMS/noarch/foo-doc-1.2-3.oc00.noarch.rpm"] ]}
          : gmap string (list string)) = {[ "pentium4" := rpms ]}.
Proof.
  apply (BuildArchsFacts.arch_loop_builds_first_or_all Samples.run_log_sample
           "/rpmbuild/logs/build/foo" "pentium4" ["i686"]).
  vm_compute. reflexivity.
Defined.

Lemma preevaluate_caches_fields_witness :
  if (length (PyStr.split "|"
                (PyStr.strip
                   ("/rpmbuild|/rpmbuild/SOURCES|.oc00|/@unixroot/usr/bin|/rpmbuild/RPMS|/rpmbuild/SRPMS"
                    +:+ nl)))
      <=? length Startup.g_rpmbuild_used_macros)%nat then
    exists w',
      Startup.preevaluate Samples.os_startup 0 Samples.world_empty = (Return (), w') /\
      trace w' = Argv Startup.eval_all :: trace Samples.world_empty /\
      (forall l, l <> 0%nat -> heap w' !! l = heap Samples.world_empty !! l) /\
      forall j name v,
        Startup.g_rpmbuild_used_macros !! j = Some name ->
        PyStr.split "|"
          (PyStr.strip
             ("/rpmbuild|/rpmbuild/SOURCES|.oc00|/@unixroot/usr/bin|/rpmbuild/RPMS|/rpmbuild/SRPMS"
              +:+ nl)) !! j = Some v ->
        (heap w' !!! 0%nat) !! name = Some v
  else (Startup.preevaluate Samples.os_startup 0 Samples.world_empty).1 = Raise IndexError.
Proof.
  apply (StartupFacts.preevaluate_caches_fields Samples.os_startup 0 Samples.world_empty).
  reflexivity.
Defined.

Example preevaluate_sample :
  ((heap (Startup.preevaluate Samples.os_startup 0 Samples.world_empty).2 !!! 0%nat)
     : gmap string string) !! "_rpmdir"
  = Some "/rpmbuild/RPMS".
Proof. vm_compute. reflexivity. Qed.

Lemma build_cmd_keeps_existing_build_witness :
  Build.final_fs Samples.seconds
    (Build.build_cmd Samples.seconds 7 false "/rpmbuild/logs" "foo" "builder" "host" 8
       Samples.builder_ok Samples.fs_built 100%nat) = Samples.fs_built /\
  ((2 <= 100)%nat ->
   exists msg hint,
     Build.build_cmd Samples.seconds 7 false "/rpmbuild/logs" "foo" "builder" "host" 8
       Samples.builder_ok Samples.fs_built 100%nat
     = Build.Finished (Raise (Error None msg (Some hint))) Samples.fs_built (100 - 2)).
Proof.
  apply (BuildGuardFacts.build_cmd_keeps_existing_build Samples.seconds 7 Samples.fs_built
           100%nat "/rpmbuild/logs" "foo" "builder" "host" 8 Samples.builder_ok).
  vm_compute. reflexivity.
Defined.

Lemma rotate_log_nothing_lost_witness :
  exists msg,
    LogFiles.rotate_log Samples.seconds Samples.fs_bak_dir "/rpmbuild/logs/test/foo.log"
    = (Raise (Error None msg None), Samples.fs_bak_dir).
Proof.
  apply (proj2 (LogFilesFacts.rotate_log_nothing_lost Samples.seconds Samples.fs_bak_dir
                  "/rpmbuild/logs/test/foo.log")).
  reflexivity.
Defined.

Lemma startup_evaluates_macro_twice_witness :
  match StartupRun.startup Samples.os_topdir Samples.cfg_topdir Samples.world_start with
  | Some (Return _, _, w') =>
      (StartupRun.builder_evals "_topdir" (trace Samples.world_start) + 2
       <= StartupRun.builder_evals "_topdir" (trace w'))%nat
  | _ => False
  end.
Proof.
  destruct (StartupRun.startup Samples.os_topdir Samples.cfg_topdir Samples.world_start)
    as [[[[g_spec_dirs|e] g_config'] w']|] eqn:H.
  - apply (StartupRunFacts.startup_evaluates_macro_twice Samples.os_topdir
             Samples.cfg_topdir Samples.world_start "_topdir" "${RPM:_topdir}/SPECS"
             g_spec_dirs g_config' w').
    + reflexivity.
    + vm_compute. left. reflexivity.
    + vm_compute. left. reflexivity.
    + reflexivity.
    + exact H.
  - vm_compute in H. discriminate H.
  - vm_compute in H. discriminate H.
Defined.

(** On this input the builder is run twice, first for [%{?_topdir}] alone
    and then for the six macros together; the trace has the latest command
    first. *)
Example startup_sample :
  (fun r => match r with
            | Some (Return g_spec_dirs, _, w') => Some (g_spec_dirs, trace w')
            | _ => None
            end)
    (StartupRun.startup Samples.os_topdir Samples.cfg_topdir Samples.world_start)
  = Some ([["/rpmbuild/SPECS"]],
          [Argv Startup.eval_all; Argv (ConfigStore.eval_macro "_topdir")]).
Proof. vm_compute. reflexivity. Qed.
